(** * The FastLoop signal-to-decision pipeline (IMPROVED_VERSION.py)

    A shallow embedding of the trading script: configuration loading,
    deadline parsing (regular expression, [strptime], US/Eastern
    localisation), market discovery, the two momentum providers and the
    decision engine, followed by the properties the specification states
    about them and by further properties of the code: its error paths,
    its edge cases and what a run does to the world.

    Conventions of the embedding:
    - a Python value obtained from JSON is a [pyval]; a [dict] is a
      [gmap string pyval];
    - text is ASCII ([string]); [float]s are idealised as exact rationals
      ([Q]), so the arithmetic below is the arithmetic of the formulas and
      says nothing about rounding;
    - a Python exception is the [Raise] outcome of the [outcome] monad;
      functions that touch the network, the clock, the environment or the
      file system run in the state monad [M] over a [world];
    - an absolute instant (an aware UTC [datetime]) is a number of
      microseconds since 1970-01-01T00:00:00Z. *)

From Stdlib Require Import ZArith QArith Qabs List String Ascii Lia Sorting.Sorted Sorting.Permutation.
From stdpp Require Import gmap strings.

Set Warnings "-register-all".
Set Default Proof Using "Type".

Local Open Scope string_scope.
Local Open Scope Z_scope.

(* ================================================================= *)
(** ** Python values, exceptions and the two monads *)

Inductive pyval : Type :=
| PNone
| PBool (b : bool)
| PInt (z : Z)
| PFloat (q : Q)
| PStr (s : string)
| PList (l : list pyval)
| PDict (d : gmap string pyval).

(** The declared types of [CONFIG_SCHEMA] and [isinstance]. Python's
    [bool] is a subclass of [int], so a [PBool] is an instance of [int]. *)
Inductive pytype : Type := TFloat | TInt | TStr | TBool.

Definition isinstance (v : pyval) (t : pytype) : bool :=
  match t, v with
  | TFloat, PFloat _ => true
  | TInt, PInt _ => true
  | TInt, PBool _ => true
  | TStr, PStr _ => true
  | TBool, PBool _ => true
  | _, _ => false
  end.

Inductive exn : Type :=
| JSONDecodeError
| TypeError
| ValueError
| AttributeError
| IndexError
| KeyError
| ZeroDivisionError
| OSError
| RecursionError
| SystemExit (code : Z).

Inductive outcome (A : Type) : Type :=
| Ret (a : A)
| Raise (e : exn).
Arguments Ret {A} a.
Arguments Raise {A} e.

Definition obind {A B} (x : outcome A) (k : A -> outcome B) : outcome B :=
  match x with
  | Ret a => k a
  | Raise e => Raise e
  end.

Declare Scope py_scope.
Delimit Scope py_scope with py.
Notation "x <- e ;; k" := (obind e (fun x => k))
  (at level 100, e at next level, right associativity) : py_scope.

(** Truth value testing of a Python object. *)
Definition truthy (v : pyval) : bool :=
  match v with
  | PNone => false
  | PBool b => b
  | PInt z => negb (z =? 0)
  | PFloat q => negb (Qeq_bool q 0)
  | PStr s => negb (String.eqb s EmptyString)
  | PList l => match l with [] => false | _ => true end
  | PDict d => negb (bool_decide (d = ∅))
  end.

(** [a or b] on values. *)
Definition py_or (a b : pyval) : pyval := if truthy a then a else b.

(** [d.get(k)] and [d.get(k, dflt)]; on a value that is not a [dict]
    (no attribute [get]) Python raises [AttributeError]. *)
Definition dict_get (d : gmap string pyval) (k : string) (dflt : pyval) : pyval :=
  default dflt (d !! k).

Definition py_get (v : pyval) (k : string) (dflt : pyval) : outcome pyval :=
  match v with
  | PDict d => Ret (dict_get d k dflt)
  | _ => Raise AttributeError
  end.

(** Numbers: [int], [float] and [bool] take part in arithmetic. *)
Definition as_number (v : pyval) : option Q :=
  match v with
  | PInt z => Some (inject_Z z)
  | PFloat q => Some q
  | PBool b => Some (inject_Z (if b then 1 else 0))
  | _ => None
  end.

Definition number (v : pyval) : outcome Q :=
  match as_number v with
  | Some q => Ret q
  | None => Raise TypeError
  end.

(** True division; Python raises on a zero divisor, also for floats. *)
Definition py_div (a b : Q) : outcome Q :=
  if Qeq_bool b 0 then Raise ZeroDivisionError else Ret (a / b)%Q.

Definition Qltb (a b : Q) : bool :=
  match (a ?= b)%Q with Lt => true | _ => false end.

(* ================================================================= *)
(** ** Text *)

Definition is_upper (c : ascii) : bool :=
  let n := nat_of_ascii c in (65 <=? n)%nat && (n <=? 90)%nat.
Definition is_lower (c : ascii) : bool :=
  let n := nat_of_ascii c in (97 <=? n)%nat && (n <=? 122)%nat.
Definition is_digit (c : ascii) : bool :=
  let n := nat_of_ascii c in (48 <=? n)%nat && (n <=? 57)%nat.

Definition lower_char (c : ascii) : ascii :=
  if is_upper c then ascii_of_nat (nat_of_ascii c + 32) else c.

(** [str.lower()]. *)
Fixpoint lower (s : string) : string :=
  match s with
  | EmptyString => EmptyString
  | String c s' => String (lower_char c) (lower s')
  end.

Fixpoint starts_with (p s : string) : bool :=
  match p, s with
  | EmptyString, _ => true
  | String a p', String b s' => Ascii.eqb a b && starts_with p' s'
  | String _ _, EmptyString => false
  end.

(** [p in s] for two strings: [p] occurs in [s] as a substring. *)
Fixpoint str_in (p s : string) : bool :=
  starts_with p s ||
  match s with
  | EmptyString => false
  | String _ s' => str_in p s'
  end.

Definition digit_val (c : ascii) : Z := Z.of_nat (nat_of_ascii c) - 48.

Definition digits_val (cs : list ascii) : Z :=
  fold_left (fun acc c => 10 * acc + digit_val c) cs 0.

(** Decimal rendering of a non-negative integer, as an f-string does. *)
Fixpoint digits_of (fuel : nat) (n : Z) (acc : string) : string :=
  match fuel with
  | O => acc
  | S fuel' =>
      let acc' := String (ascii_of_nat (Z.to_nat (48 + n mod 10))) acc in
      if n <? 10 then acc' else digits_of fuel' (n / 10) acc'
  end.

Definition str_of_Z (n : Z) : string :=
  if n <? 0 then String "-" (digits_of (Z.to_nat (Z.log2 (- n)) + 1) (- n) EmptyString)
  else digits_of (Z.to_nat (Z.log2 n) + 1) n EmptyString.

(* ================================================================= *)
(** ** [json.loads]

    The decoder of the standard library, on ASCII text: a lexer that walks
    the characters once and a parser that walks the tokens once with an
    explicit stack of open containers. Both recurse on their input, so the
    decoder is total. Two boundaries of the model: the non-standard
    literals [NaN], [Infinity] and [-Infinity] (which have no rational
    value) and [\u] escapes above code point 127 are rejected here. *)

Module Json.

Inductive token : Type :=
| TAtom (v : pyval)
| TOpenList | TCloseList | TOpenDict | TCloseDict | TComma | TColon.

Definition quote : ascii := ascii_of_nat 34.
Definition backslash : ascii := ascii_of_nat 92.

Definition is_ws (c : ascii) : bool :=
  let n := nat_of_ascii c in
  (n =? 32)%nat || (n =? 9)%nat || (n =? 10)%nat || (n =? 13)%nat.

Definition structural (c : ascii) : option token :=
  match c with
  | "["%char => Some TOpenList
  | "]"%char => Some TCloseList
  | "{"%char => Some TOpenDict
  | "}"%char => Some TCloseDict
  | ","%char => Some TComma
  | ":"%char => Some TColon
  | _ => None
  end.

Fixpoint span (p : ascii -> bool) (s : list ascii) : list ascii * list ascii :=
  match s with
  | c :: s' => if p c then let '(a, b) := span p s' in (c :: a, b) else ([], s)
  | [] => ([], [])
  end.

Definition pow10 (e : Z) : Q := Qpower (10 # 1) e.

(** A JSON number, the whole word: an optional minus sign, an integer part
    without a leading zero, an optional fraction and an optional exponent.
    An integer literal decodes to an [int], anything else to a [float]. *)
Definition number_of_word (w : list ascii) : option pyval :=
  let '(neg, w1) := match w with "-"%char :: r => (true, r) | _ => (false, w) end in
  let '(ip, w2) := span is_digit w1 in
  let sign (z : Z) := if neg then - z else z in
  match ip with
  | [] => None
  | d :: ds =>
      if Ascii.eqb d "0" && negb (Nat.eqb (List.length ds) 0) then None else
      let '(frac, w3, has_frac, ok_frac) :=
        match w2 with
        | "."%char :: r =>
            let '(f, r') := span is_digit r in
            (f, r', true, negb (Nat.eqb (List.length f) 0))
        | _ => ([], w2, false, true)
        end in
      let '(ex, w4, has_exp, ok_exp) :=
        match w3 with
        | c :: r =>
            if Ascii.eqb c "e" || Ascii.eqb c "E" then
              let '(eneg, r1) :=
                match r with
                | "-"%char :: r1 => (true, r1)
                | "+"%char :: r1 => (false, r1)
                | _ => (false, r)
                end in
              let '(e, r2) := span is_digit r1 in
              ((if eneg then - digits_val e else digits_val e), r2, true,
               negb (Nat.eqb (List.length e) 0))
            else (0, w3, false, true)
        | [] => (0, w3, false, true)
        end in
      if negb (ok_frac && ok_exp) then None else
      match w4 with
      | [] =>
          if has_frac || has_exp then
            Some (PFloat (Qred (inject_Z (sign (digits_val (ip ++ frac)))
                                * pow10 (ex - Z.of_nat (List.length frac)))))
          else Some (PInt (sign (digits_val ip)))
      | _ :: _ => None
      end
  end.

Definition atom_of_word (w : list ascii) : option pyval :=
  let s := string_of_list_ascii w in
  if String.eqb s "null" then Some PNone
  else if String.eqb s "true" then Some (PBool true)
  else if String.eqb s "false" then Some (PBool false)
  else number_of_word w.

Definition hex_val (c : ascii) : option Z :=
  let n := Z.of_nat (nat_of_ascii c) in
  if (48 <=? n) && (n <=? 57) then Some (n - 48)
  else if (97 <=? n) && (n <=? 102) then Some (n - 87)
  else if (65 <=? n) && (n <=? 70) then Some (n - 55)
  else None.

Definition unescape (c : ascii) : option ascii :=
  match c with
  | "b"%char => Some (ascii_of_nat 8)
  | "f"%char => Some (ascii_of_nat 12)
  | "n"%char => Some (ascii_of_nat 10)
  | "r"%char => Some (ascii_of_nat 13)
  | "t"%char => Some (ascii_of_nat 9)
  | "/"%char => Some "/"%char
  | _ => if Ascii.eqb c quote then Some quote
         else if Ascii.eqb c backslash then Some backslash else None
  end.

Inductive lexmode : Type :=
| LIdle
| LWord (acc : list ascii)
| LStr (acc : list ascii)
| LEsc (acc : list ascii)
| LHex (acc : list ascii) (hex : list Z).

(** What a character does between tokens. *)
Definition idle (c : ascii) (out : list token) : lexmode * list token :=
  if is_ws c then (LIdle, out)
  else match structural c with
       | Some t => (LIdle, t :: out)
       | None => if Ascii.eqb c quote then (LStr [], out) else (LWord [c], out)
       end.

Definition ends_word (c : ascii) : bool :=
  is_ws c || Ascii.eqb c quote ||
  match structural c with Some _ => true | None => false end.

(** [acc] and [out] are kept in reverse. *)
Fixpoint lex (m : lexmode) (s : list ascii) (out : list token) : option (list token) :=
  match s with
  | [] =>
      match m with
      | LIdle => Some (rev out)
      | LWord acc =>
          match atom_of_word (rev acc) with
          | Some v => Some (rev (TAtom v :: out))
          | None => None
          end
      | _ => None
      end
  | c :: s' =>
      match m with
      | LIdle => let '(m', out') := idle c out in lex m' s' out'
      | LWord acc =>
          if ends_word c then
            match atom_of_word (rev acc) with
            | Some v => let '(m', out') := idle c (TAtom v :: out) in lex m' s' out'
            | None => None
            end
          else lex (LWord (c :: acc)) s' out
      | LStr acc =>
          if Ascii.eqb c quote then
            lex LIdle s' (TAtom (PStr (string_of_list_ascii (rev acc))) :: out)
          else if Ascii.eqb c backslash then lex (LEsc acc) s' out
          else if (nat_of_ascii c <? 32)%nat then None
          else lex (LStr (c :: acc)) s' out
      | LEsc acc =>
          if Ascii.eqb c "u" then lex (LHex acc []) s' out
          else match unescape c with
               | Some c' => lex (LStr (c' :: acc)) s' out
               | None => None
               end
      | LHex acc hex =>
          match hex_val c with
          | None => None
          | Some h =>
              match hex with
              | [h2; h1; h0] =>
                  let cp := ((h0 * 16 + h1) * 16 + h2) * 16 + h in
                  if cp <? 128 then lex (LStr (ascii_of_nat (Z.to_nat cp) :: acc)) s' out
                  else None
              | _ => lex (LHex acc (h :: hex)) s' out
              end
          end
      end
  end.

(** A container that is still open: a list with its elements so far
    (reversed), or a dict waiting for the value of key [k]. *)
Inductive frame : Type :=
| InList (acc : list pyval)
| InDict (d : gmap string pyval) (k : string).

(** What the parser expects next. [first] tells that the container was
    just opened, so that it may close at once. *)
Inductive expect : Type :=
| Value (first : bool)
| Key (d : gmap string pyval) (first : bool)
| Colon (d : gmap string pyval) (k : string)
| Done (v : pyval).

Fixpoint parse (ts : list token) (e : expect) (stk : list frame) : option pyval :=
  match ts with
  | [] => match e, stk with Done v, [] => Some v | _, _ => None end
  | t :: ts' =>
      match e with
      | Value first =>
          match t with
          | TAtom v => parse ts' (Done v) stk
          | TOpenList => parse ts' (Value true) (InList [] :: stk)
          | TOpenDict => parse ts' (Key ∅ true) stk
          | TCloseList =>
              match first, stk with
              | true, InList [] :: stk' => parse ts' (Done (PList [])) stk'
              | _, _ => None
              end
          | _ => None
          end
      | Key d first =>
          match t with
          | TAtom (PStr k) => parse ts' (Colon d k) stk
          | TCloseDict => if first then parse ts' (Done (PDict d)) stk else None
          | _ => None
          end
      | Colon d k =>
          match t with
          | TColon => parse ts' (Value false) (InDict d k :: stk)
          | _ => None
          end
      | Done v =>
          match stk with
          | [] => None
          | InList acc :: stk' =>
              match t with
              | TComma => parse ts' (Value false) (InList (v :: acc) :: stk')
              | TCloseList => parse ts' (Done (PList (rev (v :: acc)))) stk'
              | _ => None
              end
          | InDict d k :: stk' =>
              match t with
              | TComma => parse ts' (Key (<[k := v]> d) false) stk'
              | TCloseDict => parse ts' (Done (PDict (<[k := v]> d))) stk'
              | _ => None
              end
          end
      end
  end.

Definition decode (s : string) : option pyval :=
  match lex LIdle (list_ascii_of_string s) [] with
  | Some ts => parse ts (Value false) []
  | None => None
  end.

(** [json.loads(v)]: [TypeError] unless [v] is text, [JSONDecodeError]
    when the text is not a JSON document. *)
Definition loads (v : pyval) : outcome pyval :=
  match v with
  | PStr s =>
      match decode s with
      | Some r => Ret r
      | None => Raise JSONDecodeError
      end
  | _ => Raise TypeError
  end.

End Json.

(* ================================================================= *)
(** ** Regular expressions ([re])

    A backtracking matcher in continuation-passing style, with the
    priorities of Python's engine: alternatives left to right, a greedy
    repetition tries one more iteration before it tries to stop, a lazy
    one the other way round. Character classes are those of [str]
    patterns restricted to ASCII. *)

Module Re.

Inductive regex : Type :=
| Eps
| Chr (p : ascii -> bool)
| Seq (r1 r2 : regex)
| Alt (r1 r2 : regex)
| Star (greedy : bool) (r : regex)
| Group (n : nat) (r : regex).

(** Captured groups, most recent first. *)
Definition captures : Type := list (nat * list ascii).

Fixpoint group (n : nat) (caps : captures) : list ascii :=
  match caps with
  | [] => []
  | (i, s) :: caps' => if Nat.eqb i n then s else group n caps'
  end.

Section Matcher.
Context {A : Type}.

(** The loop of a repetition: [step] matches one iteration. A greedy
    repetition tries one more iteration first, a lazy one tries to stop
    first. An iteration has to consume text, which bounds the number of
    iterations by the length of the text. *)
Fixpoint star_loop (greedy : bool)
    (step : list ascii -> captures -> (list ascii -> captures -> option A) -> option A)
    (k : list ascii -> captures -> option A)
    (fuel : nat) (s : list ascii) (caps : captures) : option A :=
  let again :=
    match fuel with
    | O => None
    | S fuel' =>
        step s caps (fun s' caps' =>
          if (List.length s' <? List.length s)%nat
          then star_loop greedy step k fuel' s' caps' else None)
    end in
  if greedy then
    match again with Some x => Some x | None => k s caps end
  else
    match k s caps with Some x => Some x | None => again end.

(** [run r s caps k]: match [r] at the head of [s], then hand the rest of
    the text and the captures to [k]; [None] makes the matcher backtrack. *)
Fixpoint run (r : regex) (s : list ascii) (caps : captures)
    (k : list ascii -> captures -> option A) : option A :=
  match r with
  | Eps => k s caps
  | Chr p =>
      match s with
      | c :: s' => if p c then k s' caps else None
      | [] => None
      end
  | Seq r1 r2 => run r1 s caps (fun s' caps' => run r2 s' caps' k)
  | Alt r1 r2 =>
      match run r1 s caps k with
      | Some x => Some x
      | None => run r2 s caps k
      end
  | Star greedy r1 => star_loop greedy (run r1) k (List.length s) s caps
  | Group n r1 =>
      run r1 s caps (fun s' caps' =>
        k s' ((n, firstn (List.length s - List.length s') s) :: caps'))
  end.
End Matcher.

(** [re.match]: anchored at the start; returns the unmatched rest. *)
Definition match_ (r : regex) (s : list ascii) : option (list ascii * captures) :=
  run r s [] (fun rest caps => Some (rest, caps)).

(** [re.search]: the leftmost position at which the pattern matches. *)
Fixpoint search (r : regex) (s : list ascii) : option captures :=
  match match_ r s with
  | Some (_, caps) => Some caps
  | None =>
      match s with
      | [] => None
      | _ :: s' => search r s'
      end
  end.

(** Building blocks. *)
Definition lit (c : ascii) : regex := Chr (Ascii.eqb c).
Definition ilit (c : ascii) : regex := Chr (fun x => Ascii.eqb (lower_char x) c).
Definition plus (r : regex) : regex := Seq r (Star true r).
Definition opt (r : regex) : regex := Alt r Eps.

Fixpoint seq (rs : list regex) : regex :=
  match rs with
  | [] => Eps
  | [r] => r
  | r :: rs' => Seq r (seq rs')
  end.

Fixpoint alt (rs : list regex) : regex :=
  match rs with
  | [] => Chr (fun _ => false)
  | [r] => r
  | r :: rs' => Alt r (alt rs')
  end.

Definition text (s : string) : regex := seq (map lit (list_ascii_of_string s)).
Definition itext (s : string) : regex := seq (map ilit (list_ascii_of_string s)).
Definition range (a b : ascii) : regex :=
  Chr (fun c => (nat_of_ascii a <=? nat_of_ascii c)%nat && (nat_of_ascii c <=? nat_of_ascii b)%nat).

(** [\w], [\d], [\s] and [.] on ASCII text. *)
Definition is_word (c : ascii) : bool :=
  is_upper c || is_lower c || is_digit c || Ascii.eqb c "_".
Definition is_space (c : ascii) : bool :=
  let n := nat_of_ascii c in
  ((9 <=? n)%nat && (n <=? 13)%nat) || ((28 <=? n)%nat && (n <=? 32)%nat).
Definition word : regex := Chr is_word.
Definition digit : regex := Chr is_digit.
Definition space : regex := Chr is_space.
Definition dot : regex := Chr (fun c => negb (Nat.eqb (nat_of_ascii c) 10)).

End Re.

(* ================================================================= *)
(** ** Dates ([datetime], [_strptime], [pytz]) *)

Module Datetime.

(** *** The proleptic Gregorian calendar of [datetime] *)

Definition is_leap (year : Z) : bool :=
  (year mod 4 =? 0) && (negb (year mod 100 =? 0) || (year mod 400 =? 0)).

Definition days_before_year (year : Z) : Z :=
  let y := year - 1 in y * 365 + y / 4 - y / 100 + y / 400.

Definition DAYS_IN_MONTH : list Z := [31; 28; 31; 30; 31; 30; 31; 31; 30; 31; 30; 31].

Definition days_in_month (year month : Z) : Z :=
  if (month =? 2) && is_leap year then 29
  else nth (Z.to_nat (month - 1)) DAYS_IN_MONTH 0.

Definition days_before_month (year month : Z) : Z :=
  fold_right Z.add 0 (firstn (Z.to_nat (month - 1)) DAYS_IN_MONTH)
  + (if (2 <? month) && is_leap year then 1 else 0).

(** [date(year, month, day).toordinal()]: 1 for 0001-01-01. *)
Definition ymd2ord (year month day : Z) : Z :=
  days_before_year year + days_before_month year month + day.

(** [date.weekday()]: Monday is 0, Sunday is 6. *)
Definition weekday (ordinal : Z) : Z := (ordinal + 6) mod 7.

Definition EPOCH_ORDINAL : Z := 719163.   (* 1970-01-01 *)

(** The year of an ordinal, the first component of [_ord2ymd]. *)
Definition year_of_ordinal (ordinal : Z) : Z :=
  let n := ordinal - 1 in
  let n400 := n / 146097 in
  let n := n mod 146097 in
  let n100 := n / 36524 in
  let n := n mod 36524 in
  let n4 := n / 1461 in
  let n := n mod 1461 in
  let n1 := n / 365 in
  let year := n400 * 400 + 1 + n100 * 100 + n4 * 4 + n1 in
  if (n1 =? 4) || (n100 =? 4) then year - 1 else year.

(** A naive [datetime] to the minute (seconds and microseconds are 0 in
    everything [strptime] builds here). *)
Record naive : Type := Naive {
  year : Z; month : Z; day : Z; hour : Z; minute : Z
}.

(** Seconds from 1970-01-01T00:00 to the wall-clock reading [n]. *)
Definition wall_seconds (n : naive) : Z :=
  (ymd2ord (year n) (month n) (day n) - EPOCH_ORDINAL) * 86400
  + hour n * 3600 + minute n * 60.

(** The constructor [datetime(year, month, day, hour, minute)] checks the
    range of every field. *)
Definition datetime_new (y mo d h mi : Z) : outcome naive :=
  if (1 <=? y) && (y <=? 9999) && (1 <=? mo) && (mo <=? 12)
     && (1 <=? d) && (d <=? days_in_month y mo)
     && (0 <=? h) && (h <=? 23) && (0 <=? mi) && (mi <=? 59)
  then Ret (Naive y mo d h mi)
  else Raise ValueError.

(** *** [datetime.strptime(s, "%B %d %Y %I:%M%p")]

    [_strptime] turns the format into a regular expression, compiled
    with [IGNORECASE]: a directive becomes a group, white space in the
    format becomes [\s+]. Month names and the meridiem are those of the C
    locale, the month alternatives sorted by decreasing length. *)

Definition f_month : list string :=
  ["january"; "february"; "march"; "april"; "may"; "june"; "july";
   "august"; "september"; "october"; "november"; "december"].

Definition month_alternatives : list string :=
  ["september"; "february"; "november"; "december"; "january"; "october";
   "august"; "march"; "april"; "june"; "july"; "may"].

Definition re_B : Re.regex := Re.alt (map Re.itext month_alternatives).
Definition re_d : Re.regex :=
  Re.alt [ Re.Seq (Re.lit "3") (Re.range "0" "1");
           Re.Seq (Re.range "1" "2") Re.digit;
           Re.Seq (Re.lit "0") (Re.range "1" "9");
           Re.range "1" "9";
           Re.Seq (Re.lit " ") (Re.range "1" "9") ].
Definition re_Y : Re.regex := Re.seq [Re.digit; Re.digit; Re.digit; Re.digit].
Definition re_I : Re.regex :=
  Re.alt [ Re.Seq (Re.lit "1") (Re.range "0" "2");
           Re.Seq (Re.lit "0") (Re.range "1" "9");
           Re.range "1" "9" ].
Definition re_M : Re.regex :=
  Re.alt [ Re.Seq (Re.range "0" "5") Re.digit; Re.digit ].
Definition re_p : Re.regex := Re.alt [Re.itext "am"; Re.itext "pm"].

Definition format_regex : Re.regex :=
  Re.seq [ Re.Group 1 re_B; Re.plus Re.space;
           Re.Group 2 re_d; Re.plus Re.space;
           Re.Group 3 re_Y; Re.plus Re.space;
           Re.Group 4 re_I; Re.lit ":";
           Re.Group 5 re_M;
           Re.Group 6 re_p ].

Fixpoint index_of (s : string) (l : list string) (i : Z) : Z :=
  match l with
  | [] => 0
  | x :: l' => if String.eqb x s then i else index_of s l' (i + 1)
  end.

(** [int(s)] on the text of a numeric group, which may start with a
    blank. *)
Definition int_of_group (s : list ascii) : Z :=
  digits_val (List.filter (fun c => is_digit c) s).

Definition strptime (s : string) : outcome naive :=
  match Re.match_ format_regex (list_ascii_of_string s) with
  | None => Raise ValueError                       (* does not match format *)
  | Some (_ :: _, _) => Raise ValueError           (* unconverted data remains *)
  | Some ([], caps) =>
      let y := int_of_group (Re.group 3 caps) in
      let mo := index_of (lower (string_of_list_ascii (Re.group 1 caps))) f_month 1 in
      let d := int_of_group (Re.group 2 caps) in
      let h := int_of_group (Re.group 4 caps) in
      let mi := int_of_group (Re.group 5 caps) in
      let ampm := lower (string_of_list_ascii (Re.group 6 caps)) in
      let h := if String.eqb ampm "am" then (if h =? 12 then 0 else h)
               else (if h =? 12 then h else h + 12) in
      datetime_new y mo d h mi
  end.

(** *** [pytz.timezone("US/Eastern")]

    The zone is a table of UTC transition instants, each with the
    offset in force from then on. The table here is the part that the
    rule in force since 2007 generates, up to the last year the
    compiled table of [pytz] covers: daylight time starts on the second
    Sunday of March at 02:00 standard time and ends on the first Sunday
    of November at 02:00 daylight time. Before the first entry the zone
    is on standard time. Times are seconds since 1970-01-01T00:00. *)

Record tzinfo : Type := TzInfo { utcoffset : Z; dst : bool }.

Definition EST : tzinfo := TzInfo (-18000) false.
Definition EDT : tzinfo := TzInfo (-14400) true.

(** The first Sunday on or after [year]-[month]-[day]. *)
Definition sunday_on_or_after (year month day : Z) : Z :=
  day + (6 - weekday (ymd2ord year month day)) mod 7.

Definition dst_start_utc (year : Z) : Z :=
  wall_seconds (Naive year 3 (sunday_on_or_after year 3 8) 7 0).

Definition dst_end_utc (year : Z) : Z :=
  wall_seconds (Naive year 11 (sunday_on_or_after year 11 1) 6 0).

Definition FIRST_YEAR : Z := 2007.

Definition transitions : list (Z * tzinfo) :=
  flat_map (fun i => let y := FIRST_YEAR + Z.of_nat i in
                     [(dst_start_utc y, EDT); (dst_end_utc y, EST)])
           (seq 0 31).

(** [self._transition_info[max(0, bisect_right(self._utc_transition_times, t) - 1)]]:
    the entry of the last transition at or before [t]. *)
Fixpoint info_at (table : list (Z * tzinfo)) (current : tzinfo) (t : Z) : tzinfo :=
  match table with
  | [] => current
  | (t0, inf) :: table' => if t0 <=? t then info_at table' inf t else current
  end.

Definition tz_at (t : Z) : tzinfo := info_at transitions EST t.

(** An aware datetime: a wall-clock reading (in seconds) and its zone
    entry. *)
Record aware : Type := Aware { wall : Z; tz : tzinfo }.

Definition to_utc (a : aware) : Z := wall a - utcoffset (tz a).

(** [tzinfo.normalize(dt.replace(tzinfo=inf))]: the same instant, read in
    the entry in force at that instant. *)
Definition normalize (a : aware) : aware :=
  let u := to_utc a in
  let inf := tz_at u in
  Aware (u + utcoffset inf) inf.

(** The candidates [localize] collects: for a day before and a day after,
    the entry in force then, kept if the reading survives [normalize]. *)
Definition possible_loc_dt (dt : Z) : list aware :=
  flat_map (fun delta =>
              let loc := normalize (Aware dt (tz_at (dt + delta))) in
              if wall loc =? dt then [loc] else [])
           [-86400; 86400].

Definition same_instant (a b : aware) : bool := to_utc a =? to_utc b.

(** [localize(dt, is_dst=False)]. A reading that never happened (the
    hour skipped in spring) is localised six hours earlier and moved
    back; an ambiguous one (the hour repeated in autumn) takes the entry
    that is not daylight time, or failing that the later instant. *)
Fixpoint localize (fuel : nat) (dt : Z) : option aware :=
  match possible_loc_dt dt with
  | [] =>
      match fuel with
      | O => None
      | S fuel' =>
          match localize fuel' (dt - 21600) with
          | Some a => Some (Aware (wall a + 21600) (tz a))
          | None => None
          end
      end
  | [a] => Some a
  | a :: b :: _ =>
      if same_instant a b then Some a
      else match List.filter (fun p => negb (dst (tz p))) [a; b] with
           | [p] => Some p
           | _ => Some (if to_utc a <? to_utc b then b else a)
           end
  end.

(** [dt.astimezone(pytz.UTC)] as an absolute instant in microseconds. *)
Definition astimezone_utc (a : aware) : Z := to_utc a * 1000000.

End Datetime.

(* ================================================================= *)
(** ** Remaining built-ins: [in], indexing, [int()], [float()] *)

Definition py_eq_str (v : pyval) (s : string) : bool :=
  match v with PStr x => String.eqb x s | _ => false end.

(** [needle in hay] for a string [needle]: substring of a string,
    element of a list, key of a dict; other values are not iterable. *)
Definition py_in (needle : string) (hay : pyval) : outcome bool :=
  match hay with
  | PStr s => Ret (str_in needle s)
  | PList l => Ret (existsb (fun v => py_eq_str v needle) l)
  | PDict d => Ret (bool_decide (is_Some (d !! needle)))
  | _ => Raise TypeError
  end.

(** [v[i]] for an integer index [i], negative indices counting from the
    end. A dict decoded from JSON has only string keys. *)
Definition py_index (v : pyval) (i : Z) : outcome pyval :=
  match v with
  | PList l =>
      let n := Z.of_nat (List.length l) in
      let j := if i <? 0 then i + n else i in
      if (0 <=? j) && (j <? n) then
        match nth_error l (Z.to_nat j) with
        | Some x => Ret x
        | None => Raise IndexError
        end
      else Raise IndexError
  | PStr s =>
      let n := Z.of_nat (String.length s) in
      let j := if i <? 0 then i + n else i in
      if (0 <=? j) && (j <? n) then
        match String.get (Z.to_nat j) s with
        | Some c => Ret (PStr (String c EmptyString))
        | None => Raise IndexError
        end
      else Raise IndexError
  | PDict _ => Raise KeyError
  | _ => Raise TypeError
  end.

Fixpoint drop_while (p : ascii -> bool) (s : list ascii) : list ascii :=
  match s with
  | c :: s' => if p c then drop_while p s' else s
  | [] => []
  end.

(** [str.strip()]. *)
Definition strip (s : list ascii) : list ascii :=
  rev (drop_while Re.is_space (rev (drop_while Re.is_space s))).

(** Digits with single underscores between them, as numeric literals
    allow; the underscores are dropped. *)
Fixpoint digits_us (s : list ascii) (after_digit : bool) : option (list ascii) :=
  match s with
  | [] => if after_digit then Some [] else None
  | c :: s' =>
      if is_digit c then option_map (cons c) (digits_us s' true)
      else if Ascii.eqb c "_" && after_digit then digits_us s' false
      else None
  end.

Definition split_sign (s : list ascii) : bool * list ascii :=
  match s with
  | "-"%char :: r => (true, r)
  | "+"%char :: r => (false, r)
  | _ => (false, s)
  end.

(** [int(v)]: truncation of a number, a decimal literal in a string. *)
Definition py_int (v : pyval) : outcome Z :=
  match v with
  | PInt z => Ret z
  | PBool b => Ret (if b then 1 else 0)
  | PFloat q => Ret (Z.quot (Qnum q) (Z.pos (Qden q)))
  | PStr s =>
      let '(neg, r) := split_sign (strip (list_ascii_of_string s)) in
      match digits_us r false with
      | Some ds => Ret (if neg then - digits_val ds else digits_val ds)
      | None => Raise ValueError
      end
  | _ => Raise TypeError
  end.

(** [float(v)]: a number, or a decimal literal in a string: sign, digits
    with an optional fraction (one of the two parts may be empty) and an
    optional exponent. The literals [inf] and [nan] have no rational
    value and are rejected here. *)
Definition float_of_text (s : list ascii) : option Q :=
  let '(neg, r) := split_sign (strip s) in
  let '(ip, r1) := Json.span (fun c => is_digit c || Ascii.eqb c "_") r in
  let '(fp, r2) :=
    match r1 with
    | "."%char :: r' => Json.span (fun c => is_digit c || Ascii.eqb c "_") r'
    | _ => ([], r1)
    end in
  let '(ex, r3, ok_exp) :=
    match r2 with
    | c :: r' =>
        if Ascii.eqb c "e" || Ascii.eqb c "E" then
          let '(eneg, r'') := split_sign r' in
          let '(e, rest) := Json.span (fun c => is_digit c || Ascii.eqb c "_") r'' in
          match digits_us e false with
          | Some ds => ((if eneg then - digits_val ds else digits_val ds), rest, true)
          | None => (0, rest, false)
          end
        else (0, r2, true)
    | [] => (0, r2, true)
    end in
  let part (p : list ascii) : option (list ascii) :=
    match p with [] => Some [] | _ => digits_us p false end in
  match part ip, part fp, r3 with
  | Some ids, Some fds, [] =>
      if negb ok_exp || (Nat.eqb (List.length ids) 0 && Nat.eqb (List.length fds) 0)
      then None
      else
        let m := digits_val (ids ++ fds) in
        Some (Qred (inject_Z (if neg then - m else m)
                    * Json.pow10 (ex - Z.of_nat (List.length fds))))
  | _, _, _ => None
  end.

Definition py_float (v : pyval) : outcome Q :=
  match v with
  | PInt z => Ret (inject_Z z)
  | PBool b => Ret (inject_Z (if b then 1 else 0))
  | PFloat q => Ret q
  | PStr s =>
      match float_of_text (list_ascii_of_string s) with
      | Some q => Ret q
      | None => Raise ValueError
      end
  | _ => Raise TypeError
  end.

(* ================================================================= *)
(** ** The world of one run and the state monad over it

    What the script reads and writes outside its own variables: the
    process environment, the files of the working directory, the clock,
    the remote services, and what it printed. A file that holds JSON is
    represented by the document it denotes, so that [json.dump] followed
    by [json.load] gives the value back. *)

Inductive endpoint : Type :=
| GammaMarkets                                  (* gamma-api.polymarket.com/markets *)
| BinanceKlines (symbol : string) (limit : Z)   (* api.binance.com/api/v3/klines *)
| CoinGeckoPrice (ids : string).                (* api.coingecko.com/api/v3/simple/price *)

Inductive response : Type :=
| Payload (v : pyval)                   (* success status and a JSON body *)
| RequestException (msg : string).

Inductive fcontent : Type :=
| Unreadable                            (* [open] fails *)
| Malformed                             (* text that is not JSON *)
| Document (v : pyval).

Inductive direction : Type := Up | Down | Neutral.

Record signal : Type := Signal {
  momentum_pct : Q;
  signal_direction : direction;
  price_now : pyval;
  volume_ratio : Q
}.

Inductive message : Type :=
| MsgConfigWarning
| MsgNoApiKey
| MsgTimeParseError
| MsgRunning (asset : string)
| MsgNoMarkets
| MsgTarget (question : pyval)
| MsgNoSignal
| MsgSignal (s : signal)
| MsgWeak
| MsgLowVolume
| MsgAction (side : string)
| MsgLive
| MsgDryRun.

Record world : Type := World {
  environ : gmap string string;
  files : gmap string fcontent;
  now : Z;                                (* microseconds since the epoch *)
  http : endpoint -> nat -> response;     (* the answer to the n-th request made *)
  requests : list endpoint;               (* requests made, oldest first *)
  stdout : list message                   (* lines printed, oldest first *)
}.

Definition M (A : Type) : Type := world -> outcome A * world.

Definition ret {A} (a : A) : M A := fun w => (Ret a, w).
Definition raise {A} (e : exn) : M A := fun w => (Raise e, w).
Definition bind {A B} (x : M A) (k : A -> M B) : M B :=
  fun w => match x w with
           | (Ret a, w') => k a w'
           | (Raise e, w') => (Raise e, w')
           end.
Definition lift {A} (x : outcome A) : M A := fun w => (x, w).

Notation "x <~ e ;; k" := (bind e (fun x => k))
  (at level 100, e at next level, right associativity) : py_scope.
Notation "e ;;; k" := (bind e (fun _ => k))
  (at level 100, right associativity) : py_scope.

(** [try: body except Exception: handler]. [SystemExit] does not derive
    from [Exception] and passes through. *)
Definition try_except {A} (body : M A) (handler : M A) : M A :=
  fun w => match body w with
           | (Ret a, w') => (Ret a, w')
           | (Raise (SystemExit c), w') => (Raise (SystemExit c), w')
           | (Raise _, w') => handler w'
           end.

Definition print (m : message) : M unit :=
  fun w => (Ret tt, World (environ w) (files w) (now w) (http w) (requests w) (stdout w ++ [m])).

Definition sleep (seconds : Z) : M unit :=
  fun w => (Ret tt, World (environ w) (files w) (now w + seconds * 1000000) (http w)
                          (requests w) (stdout w)).

(** [datetime.now(timezone.utc)] and its [.year]. *)
Definition datetime_now : M Z := fun w => (Ret (now w), w).
Definition utc_year (t : Z) : Z :=
  Datetime.year_of_ordinal (t / 86400000000 + Datetime.EPOCH_ORDINAL).

Definition path_exists (path : string) : M bool :=
  fun w => (Ret (bool_decide (is_Some (files w !! path))), w).

(** [with open(path, 'r') as f: json.load(f)]. *)
Definition json_load_file (path : string) : M pyval :=
  fun w => match files w !! path with
           | Some (Document v) => (Ret v, w)
           | Some Malformed => (Raise JSONDecodeError, w)
           | Some Unreadable | None => (Raise OSError, w)
           end.

(** [with open(path, 'w') as f: json.dump(v, f)]. *)
Definition json_dump_file (path : string) (v : pyval) : M unit :=
  fun w => match files w !! path with
           | Some Unreadable => (Raise OSError, w)
           | _ => (Ret tt, World (environ w) (<[path := Document v]> (files w)) (now w)
                                 (http w) (requests w) (stdout w))
           end.

(** One [requests.request] with [raise_for_status] and [.json()]. *)
Definition http_request (e : endpoint) : M response :=
  fun w => (Ret (http w e (List.length (requests w))),
            World (environ w) (files w) (now w) (http w) (requests w ++ [e]) (stdout w)).

(* ================================================================= *)
(** ** Configuration and schema *)

Local Open Scope py_scope.

Definition CONFIG_SCHEMA : list (string * (pyval * pytype)) :=
  [ ("entry_threshold", (PFloat (5 # 100), TFloat));
    ("min_momentum_pct", (PFloat (5 # 10), TFloat));
    ("max_position", (PFloat (5 # 1), TFloat));
    ("signal_source", (PStr "binance", TStr));
    ("lookback_minutes", (PInt 5, TInt));
    ("min_time_remaining", (PInt 60, TInt));
    ("asset", (PStr "BTC", TStr));
    ("window", (PStr "5m", TStr));
    ("volume_confidence", (PBool true, TBool)) ].

Definition ASSET_SYMBOLS : gmap string string :=
  list_to_map [("BTC", "BTCUSDT"); ("ETH", "ETHUSDT"); ("SOL", "SOLUSDT")].

Definition ASSET_PATTERNS : gmap string (list string) :=
  list_to_map [ ("BTC", ["bitcoin up or down"]);
                ("ETH", ["ethereum up or down"]);
                ("SOL", ["solana up or down"]) ].

Definition COINGECKO_IDS : gmap string string :=
  list_to_map [("BTC", "bitcoin"); ("ETH", "ethereum"); ("SOL", "solana")].

Definition STATE_FILE : string := "trading_state.json".

(* ================================================================= *)
(** ** Core utilities *)

(** The loop of [load_config] over the schema: one [config.get] per key. *)
Fixpoint fill_config (schema : list (string * (pyval * pytype))) (config : pyval)
    (final_config : gmap string pyval) : outcome (gmap string pyval) :=
  match schema with
  | [] => Ret final_config
  | (key, spec) :: schema' =>
      v <- py_get config key (fst spec) ;;
      fill_config schema' config (<[key := v]> final_config)
  end.

Definition load_config (path : string) : M (gmap string pyval) :=
  config <~ (present <~ path_exists path ;;
             if present then
               try_except (json_load_file path)
                          (print MsgConfigWarning ;;; ret (PDict ∅))
             else ret (PDict ∅)) ;;
  lift (fill_config CONFIG_SCHEMA config ∅).

Definition get_api_key : M string :=
  fun w =>
    match environ w !! "SIMMER_API_KEY" with
    | Some (String c k) => (Ret (String c k), w)
    | _ => (print MsgNoApiKey ;;; raise (SystemExit 1)) w
    end.

Definition error_dict (msg : string) : pyval := PDict {[ "error" := PStr msg ]}.

(** The retry loop of [api_request], [i] counting the attempts made and
    [todo] those left. *)
Fixpoint api_attempts (e : endpoint) (retries i : Z) (todo : nat) : M pyval :=
  match todo with
  | O => ret (error_dict "Max retries exceeded")
  | S todo' =>
      r <~ http_request e ;;
      match r with
      | Payload v => ret v
      | RequestException msg =>
          if i =? retries - 1 then ret (error_dict msg)
          else (sleep (1 * (i + 1)) ;;; api_attempts e retries (i + 1) todo')
      end
  end.

Definition api_request (e : endpoint) : M pyval := api_attempts e 3 0 3.

(* ================================================================= *)
(** ** Market discovery and parsing *)

(** The pattern of [parse_et_to_utc]: a word, a blank and digits (group
    1), a comma, anything up to a hyphen, blanks, a clock time with its
    meridiem (group 2), blanks, [ET]. *)
Definition pattern : Re.regex :=
  Re.seq [ Re.Group 1 (Re.seq [Re.plus Re.word; Re.lit " "; Re.plus Re.digit]);
           Re.lit ",";
           Re.Star false Re.dot;
           Re.lit "-";
           Re.Star true Re.space;
           Re.Group 2 (Re.seq [ Re.digit; Re.opt Re.digit; Re.lit ":";
                                Re.digit; Re.digit;
                                Re.Alt (Re.text "AM") (Re.text "PM") ]);
           Re.Star true Re.space;
           Re.text "ET" ].

(** The body of the [try] block, for the groups of a match and the
    current year. *)
Definition parse_groups (date_str time_str : string) (year : Z) : outcome Z :=
  let dt_str := date_str +:+ " " +:+ str_of_Z year +:+ " " +:+ time_str in
  local_dt <- Datetime.strptime dt_str ;;
  match Datetime.localize 2 (Datetime.wall_seconds local_dt) with
  | Some localized_dt => Ret (Datetime.astimezone_utc localized_dt)
  | None => Raise RecursionError
  end.

Definition parse_et_to_utc (question : pyval) : M (option Z) :=
  match question with
  | PStr q =>
      match Re.search pattern (list_ascii_of_string q) with
      | None => ret None
      | Some caps =>
          try_except
            (t <~ datetime_now ;;
             end_time <~ lift (parse_groups (string_of_list_ascii (Re.group 1 caps))
                                            (string_of_list_ascii (Re.group 2 caps))
                                            (utc_year t)) ;;
             ret (Some end_time))
            (print MsgTimeParseError ;;; ret None)
      end
  | _ => raise TypeError
  end.

Record market : Type := Market {
  question : pyval;
  slug : pyval;
  condition_id : pyval;
  end_time : Z;
  outcome_prices : pyval;
  fee_rate_bps : Z
}.

Definition py_lower (v : pyval) : outcome string :=
  match v with
  | PStr s => Ret (lower s)
  | _ => Raise AttributeError
  end.

(** The test of the [if] in the loop of [discover_markets]; [and] does
    not look at the slug when no pattern occurs in the question. *)
Definition matches (patterns : list string) (window : string) (m : pyval) : outcome bool :=
  qv <- py_get m "question" PNone ;;
  q <- py_lower (py_or qv (PStr EmptyString)) ;;
  slug <- py_get m "slug" (PStr EmptyString) ;;
  if existsb (fun p => str_in p q) patterns
  then py_in ("-" +:+ window +:+ "-") slug
  else Ret false.

(** One iteration of the loop of [discover_markets]. *)
Definition consider (patterns : list string) (window : string) (m : pyval)
    (markets : list market) : M (list market) :=
  hit <~ lift (matches patterns window m) ;;
  if hit then
    qv <~ lift (py_get m "question" (PStr EmptyString)) ;;
    parsed <~ parse_et_to_utc qv ;;
    match parsed with
    | Some t =>
        entry <~ lift (question <- py_get m "question" PNone ;;
                       slug <- py_get m "slug" (PStr EmptyString) ;;
                       condition_id <- py_get m "conditionId" PNone ;;
                       raw <- py_get m "outcomePrices" (PStr "[0.5, 0.5]") ;;
                       outcome_prices <- Json.loads raw ;;
                       fee <- py_get m "feeRateBps" PNone ;;
                       fee_rate_bps <- py_int (py_or fee (PInt 0)) ;;
                       Ret (Market question slug condition_id t outcome_prices fee_rate_bps)) ;;
        ret (markets ++ [entry])%list
    | None => ret markets
    end
  else ret markets.

Fixpoint discover_loop (patterns : list string) (window : string) (result : list pyval)
    (markets : list market) : M (list market) :=
  match result with
  | [] => ret markets
  | m :: result' =>
      markets' <~ consider patterns window m markets ;;
      discover_loop patterns window result' markets'
  end.

Definition patterns_of (asset : string) : list string :=
  default ["bitcoin up or down"] (ASSET_PATTERNS !! asset).

Definition discover_markets (asset window : string) : M (list market) :=
  result <~ api_request GammaMarkets ;;
  err <~ lift (py_in "error" result) ;;
  match result with
  | PList l => if err then ret [] else discover_loop (patterns_of asset) window l []
  | _ => ret []
  end.

(* ================================================================= *)
(** ** Signal generation *)

Fixpoint map_outcome {A B} (f : A -> outcome B) (l : list A) : outcome (list B) :=
  match l with
  | [] => Ret []
  | x :: l' => y <- f x ;; ys <- map_outcome f l' ;; Ret (y :: ys)
  end.

(** [sum(volumes)]: from 0, left to right. *)
Definition py_sum (l : list Q) : Q := fold_left Qplus l 0%Q.

(** What [get_binance_momentum] computes from a list of at least two
    candles. *)
Definition binance_signal (candles : list pyval) : outcome signal :=
  first <- py_index (PList candles) 0 ;;
  open_ <- py_index first 1 ;;
  price_then <- py_float open_ ;;
  last_ <- py_index (PList candles) (-1) ;;
  close_ <- py_index last_ 4 ;;
  price_now <- py_float close_ ;;
  change <- py_div (price_now - price_then) price_then ;;
  let momentum_pct := (change * 100)%Q in
  volumes <- map_outcome (fun c => v <- py_index c 5 ;; py_float v) candles ;;
  avg_vol <- py_div (py_sum volumes) (inject_Z (Z.of_nat (List.length volumes))) ;;
  vol_ratio <- (if Qltb 0 avg_vol then py_div (List.last volumes 0%Q) avg_vol else Ret 1%Q) ;;
  Ret (Signal momentum_pct (if Qltb 0 momentum_pct then Up else Down)
              (PFloat price_now) vol_ratio).

Definition get_binance_momentum (asset : string) (lookback : Z) : M (option signal) :=
  let symbol := default "BTCUSDT" (ASSET_SYMBOLS !! asset) in
  candles <~ api_request (BinanceKlines symbol lookback) ;;
  err <~ lift (py_in "error" candles) ;;
  match candles with
  | PList cs =>
      if err || (List.length cs <? 2)%nat then ret None
      else (s <~ lift (binance_signal cs) ;; ret (Some s))
  | _ => ret None
  end.

Definition state_key (asset : string) : string := asset +:+ "_last_price".

(** [state[key] = value]; only a dict takes a string key. *)
Definition py_setitem (state : pyval) (key : string) (value : pyval) : outcome pyval :=
  match state with
  | PDict d => Ret (PDict (<[key := value]> d))
  | _ => Raise TypeError
  end.

(** [((price_now - prev_price) / prev_price) * 100 if prev_price else 0]. *)
Definition spot_momentum (price_now prev_price : pyval) : outcome Q :=
  if truthy prev_price then
    a <- number price_now ;;
    b <- number prev_price ;;
    change <- py_div (a - b) b ;;
    Ret (change * 100)%Q
  else Ret 0%Q.

Definition spot_direction (momentum_pct : Q) : direction :=
  if Qltb 0 momentum_pct then Up else if Qltb momentum_pct 0 then Down else Neutral.

(** The first half of [get_coingecko_momentum]: the current price, or
    [None] when the service gave no usable one. *)
Definition fetch_spot_price (asset : string) : M (option pyval) :=
  let cg_id := default "bitcoin" (COINGECKO_IDS !! asset) in
  res <~ api_request (CoinGeckoPrice cg_id) ;;
  err <~ lift (py_in "error" res) ;;
  if err then ret None else
  price_now <~ lift (inner <- py_get res cg_id (PDict ∅) ;; py_get inner "usd" PNone) ;;
  if negb (truthy price_now) then ret None else ret (Some price_now).

(** The second half: read the state, compute the signal against the
    stored price, store the current price. *)
Definition spot_signal (asset : string) (price_now : pyval) : M signal :=
  (* Load previous state *)
  present <~ path_exists STATE_FILE ;;
  state <~ (if present then json_load_file STATE_FILE else ret (PDict ∅)) ;;
  prev_price <~ lift (py_get state (state_key asset) price_now) ;;
  momentum_pct <~ lift (spot_momentum price_now prev_price) ;;
  (* Update state *)
  state' <~ lift (py_setitem state (state_key asset) price_now) ;;
  json_dump_file STATE_FILE state' ;;;
  ret (Signal momentum_pct (spot_direction momentum_pct) price_now 1%Q).

Definition get_coingecko_momentum (asset : string) : M (option signal) :=
  fetched <~ fetch_spot_price asset ;;
  match fetched with
  | None => ret None
  | Some price_now => s <~ spot_signal asset price_now ;; ret (Some s)
  end.

(* ================================================================= *)
(** ** Execution logic *)

(** A configuration whose values have the types the schema declares;
    [run_strategy] is modelled on these. *)
Record config : Type := Config {
  cfg_entry_threshold : Q;
  cfg_min_momentum_pct : Q;
  cfg_max_position : Q;
  cfg_signal_source : string;
  cfg_lookback_minutes : Z;
  cfg_min_time_remaining : Z;
  cfg_asset : string;
  cfg_window : string;
  cfg_volume_confidence : bool
}.

(** [sorted(l, key=...)]: a stable sort, here by insertion from the
    right; an element goes in front of the first one whose key is not
    smaller. *)
Fixpoint insert_by {A} (key : A -> Z) (x : A) (l : list A) : list A :=
  match l with
  | [] => [x]
  | y :: l' => if key x <=? key y then x :: y :: l' else y :: insert_by key x l'
  end.

Definition sorted {A} (key : A -> Z) (l : list A) : list A :=
  fold_right (insert_by key) [] l.

(** [(m['end_time'] - now).total_seconds() > cfg['min_time_remaining']],
    both sides in microseconds. *)
Definition far_enough (now_ : Z) (min_time_remaining : Z) (m : market) : bool :=
  min_time_remaining * 1000000 <? end_time m - now_.

(** Lines 210 to 219 of [run_strategy]: discover, keep the markets that
    are far enough from their deadline, and pick the first of them in
    deadline order; [None] stands for the early [return]. *)
Definition select_market (cfg : config) : M (option market) :=
  markets <~ discover_markets (cfg_asset cfg) (cfg_window cfg) ;;
  now_ <~ datetime_now ;;
  let valid_markets := List.filter (far_enough now_ (cfg_min_time_remaining cfg)) markets in
  if bool_decide (valid_markets = []) then (print MsgNoMarkets ;;; ret None) else
  match sorted end_time valid_markets with
  | [] => raise IndexError
  | best :: _ => print (MsgTarget (question best)) ;;; ret (Some best)
  end.

Definition get_signal (cfg : config) : M (option signal) :=
  if String.eqb (cfg_signal_source cfg) "binance"
  then get_binance_momentum (cfg_asset cfg) (cfg_lookback_minutes cfg)
  else get_coingecko_momentum (cfg_asset cfg).

Definition run_strategy (live : bool) (cfg : config) : M unit :=
  print (MsgRunning (cfg_asset cfg)) ;;;
  api_key <~ get_api_key ;;
  chosen <~ select_market cfg ;;
  match chosen with
  | None => ret tt
  | Some best =>
      (* Get Signal *)
      sig <~ get_signal cfg ;;
      match sig with
      | None => print MsgNoSignal
      | Some s =>
          print (MsgSignal s) ;;;
          (* Decision *)
          if Qltb (Qabs (momentum_pct s)) (cfg_min_momentum_pct cfg) then print MsgWeak
          else if cfg_volume_confidence cfg && Qltb (volume_ratio s) (5 # 10) then print MsgLowVolume
          else
            let side := match signal_direction s with Up => "yes" | _ => "no" end in
            print (MsgAction side) ;;;
            if live then print MsgLive else print MsgDryRun
      end
  end.

(** The typed reading of the dict [load_config] returns, as
    [run_strategy] uses its keys: [Some] when every key holds a value of
    the type [CONFIG_SCHEMA] declares for it. *)
Definition typed_config (c : gmap string pyval) : option config :=
  match c !! "entry_threshold", c !! "min_momentum_pct", c !! "max_position",
        c !! "signal_source", c !! "lookback_minutes", c !! "min_time_remaining",
        c !! "asset", c !! "window", c !! "volume_confidence" with
  | Some (PFloat a), Some (PFloat b), Some (PFloat c0), Some (PStr d), Some (PInt e),
    Some (PInt f), Some (PStr g), Some (PStr h), Some (PBool i) =>
      Some (Config a b c0 d e f g h i)
  | _, _, _, _, _, _, _, _, _ => None
  end.

(* ================================================================= *)
(** ** What the specification says, in its own words *)

(** The documented defaults of the configuration source, with the type
    each key is documented to have. *)
Definition documented_defaults : list (string * pyval * pytype) :=
  [ ("entry_threshold", PFloat (5 # 100), TFloat);
    ("min_momentum_pct", PFloat (5 # 10), TFloat);
    ("max_position", PFloat (5 # 1), TFloat);
    ("signal_source", PStr "binance", TStr);
    ("lookback_minutes", PInt 5, TInt);
    ("min_time_remaining", PInt 60, TInt);
    ("asset", PStr "BTC", TStr);
    ("window", PStr "5m", TStr);
    ("volume_confidence", PBool true, TBool) ].

(** A world with nothing in it but a clock reading; the examples below
    fill in what they need. *)
Definition quiet (t : Z) (answer : endpoint -> nat -> response) : world :=
  World ∅ ∅ t answer [] [].

Definition no_answer : endpoint -> nat -> response :=
  fun _ _ => RequestException "unreachable".

Definition with_file (path : string) (c : fcontent) (w : world) : world :=
  World (environ w) (<[path := c]> (files w)) (now w) (http w) (requests w) (stdout w).

Definition with_key (k : string) (w : world) : world :=
  World (<["SIMMER_API_KEY" := k]> (environ w)) (files w) (now w) (http w)
        (requests w) (stdout w).

(** A configuration file that binds an integer key to text. *)
Definition wrong_type_config : gmap string pyval :=
  {[ "lookback_minutes" := PStr "five" ]}.

(** A market listing that answers every request for markets with
    [records]; the other services do not answer. *)
Definition listing (records : list pyval) : endpoint -> nat -> response :=
  fun e _ =>
    match e with
    | GammaMarkets => Payload (PList records)
    | _ => RequestException "unreachable"
    end.

(** A five-minute Bitcoin market closing on 5 March at [closing] Eastern
    time, with further fields [extra]. *)
Definition btc_record (closing : string) (extra : list (string * pyval)) : pyval :=
  PDict (list_to_map
           ([ ("question", PStr ("Bitcoin Up or Down - March 5, 3:00PM-" +:+ closing +:+ " ET"));
              ("slug", PStr "btc-updown-5m-1772741100") ] ++ extra)%list).

Definition noon_5_march_2026 : Z := 1772712000000000.   (* 2026-03-05T12:00:00Z *)

(** A spot-price service that quotes Bitcoin at [price], and a state file
    left by earlier runs. *)
Definition quoting (price : pyval) : endpoint -> nat -> response :=
  fun e _ =>
    match e with
    | CoinGeckoPrice "bitcoin" => Payload (PDict {[ "bitcoin" := PDict {[ "usd" := price ]} ]})
    | _ => RequestException "unreachable"
    end.

Definition earlier_state : gmap string pyval :=
  {[ "BTC_last_price" := PInt 50000; "ETH_last_price" := PInt 3000 ]}.

Definition spot_world : world :=
  with_file STATE_FILE (Document (PDict earlier_state)) (quiet 0 (quoting (PInt 51000))).

Definition after_first_run : world := snd (get_coingecko_momentum "BTC" spot_world).

Definition first_signal : signal :=
  match fst (get_coingecko_momentum "BTC" spot_world) with
  | Ret (Some s) => s
  | _ => Signal 0 Neutral PNone 0
  end.

(** The part of the world a request leaves alone. *)
Definition request_frame (e : endpoint) (w w' : world) : Prop :=
  environ w' = environ w /\ files w' = files w /\ http w' = http w
  /\ stdout w' = stdout w /\ now w <= now w'
  /\ exists n, requests w' = (requests w ++ replicate n e)%list.

(** The part of the world printing leaves alone. *)
Definition print_frame (w w' : world) : Prop :=
  environ w' = environ w /\ files w' = files w /\ now w' = now w
  /\ http w' = http w /\ requests w' = requests w.

(** The configuration of the documented defaults. *)
Definition default_config : config :=
  Config (5 # 100) (5 # 10) (5 # 1) "binance" 5 60 "BTC" "5m" true.

(** A run that starts after the only listed market has closed. *)
Definition late_world : world :=
  with_key "secret" (quiet 1772744400000000 (listing [btc_record "3:05PM" []])).

(** Three open markets; the second and third close first, together. *)
Definition three_markets : list pyval :=
  [ btc_record "3:10PM" [("conditionId", PStr "a")];
    btc_record "3:05PM" [("conditionId", PStr "b")];
    btc_record "3:05PM" [("conditionId", PStr "c")] ].

Definition busy_world : world := quiet noon_5_march_2026 (listing three_markets).

Definition discovered (cfg : config) (w : world) : list market :=
  match fst (discover_markets (cfg_asset cfg) (cfg_window cfg) w) with
  | Ret ms => ms
  | Raise _ => []
  end.

(** A candle as the exchange lays it out: the open price at index 1, the
    close at index 4, the volume at index 5, each read with [float()]. *)
Record candle : Type := Candle { c_open : Q; c_close : Q; c_volume : Q }.

Definition candle_of (c : pyval) : outcome candle :=
  o <- py_index c 1 ;; open_ <- py_float o ;;
  cl <- py_index c 4 ;; close_ <- py_float cl ;;
  v <- py_index c 5 ;; volume <- py_float v ;;
  Ret (Candle open_ close_ volume).

(** The mean of a window of volumes. *)
Definition mean (l : list Q) : Q :=
  (fold_right Qplus 0 l / inject_Z (Z.of_nat (List.length l)))%Q.

(** An exchange that answers with three one-minute candles. *)
Definition kline (t : Z) (o h l c v : string) : pyval :=
  PList [PInt t; PStr o; PStr h; PStr l; PStr c; PStr v; PInt (t + 59999)].

Definition three_candles : list pyval :=
  [ kline 0 "100.0" "101.0" "99.5" "100.5" "10.0";
    kline 60000 "100.5" "101.5" "100.0" "101.0" "20.0";
    kline 120000 "101.0" "102.5" "100.5" "102.0" "30.0" ].

Definition candle_rows : list candle :=
  [ Candle 100 (201 # 2) 10; Candle (201 # 2) 101 20; Candle 101 102 30 ].

Definition candle_world : world :=
  quiet 0 (fun e _ => match e with
                      | BinanceKlines _ _ => Payload (PList three_candles)
                      | _ => RequestException "unreachable"
                      end).

(** [parse_et_to_utc] without its effects, for the current year: the
    deadline, or [None] where the function returns [None]. *)
Definition parse_deadline (year : Z) (question : string) : option Z :=
  match Re.search pattern (list_ascii_of_string question) with
  | None => None
  | Some caps =>
      match parse_groups (string_of_list_ascii (Re.group 1 caps))
                         (string_of_list_ascii (Re.group 2 caps)) year with
      | Ret t => Some t
      | Raise _ => None
      end
  end.

(** The two conditions the specification names for inclusion, on the
    question and the slug of a record ([None] for an absent field). *)
Definition question_matches (patterns : list string) (question : option pyval) : bool :=
  match py_lower (py_or (default PNone question) (PStr EmptyString)) with
  | Ret q => existsb (fun p => str_in p q) patterns
  | Raise _ => false
  end.

Definition slug_has_window (window : string) (slug : option pyval) : bool :=
  match py_in ("-" +:+ window +:+ "-") (default (PStr EmptyString) slug) with
  | Ret b => b
  | Raise _ => false
  end.

Definition two_conditions (patterns : list string) (window : string)
    (question slug : option pyval) : bool :=
  question_matches patterns question && slug_has_window window slug.

(** The third condition the code adds: the deadline parses from the
    question. *)
Definition deadline_parses (year : Z) (question : option pyval) : bool :=
  match default (PStr EmptyString) question with
  | PStr q => match parse_deadline year q with Some _ => true | None => false end
  | _ => false
  end.

Definition included (year : Z) (patterns : list string) (window : string)
    (question slug : option pyval) : bool :=
  two_conditions patterns window question slug && deadline_parses year question.

(** A Bitcoin market whose question carries no deadline. *)
Definition undated_record : pyval :=
  PDict (list_to_map [ ("question", PStr "Bitcoin Up or Down today?");
                       ("slug", PStr "btc-updown-5m-1772741100") ]).

(** A field of a listed record, [None] when it is absent. *)
Definition field (m : pyval) (k : string) : option pyval :=
  match m with
  | PDict d => d !! k
  | _ => None
  end.

(** What identifies a record in the listing and an entry in the output. *)
Definition record_id (d : gmap string pyval) : pyval * pyval * pyval :=
  (dict_get d "question" PNone, dict_get d "slug" (PStr EmptyString),
   dict_get d "conditionId" PNone).

Definition market_id (e : market) : pyval * pyval * pyval :=
  (question e, slug e, condition_id e).

Definition dict_of (m : pyval) : gmap string pyval :=
  match m with
  | PDict d => d
  | _ => ∅
  end.

(** Auxiliary notions for the zone table: the start of a year, the entry
    the rule gives an instant, and the readings that exist in an entry. *)
Module Eastern.
Import Datetime.








End Eastern.



(** The text [parse_et_to_utc] hands to [strptime]. *)
Definition dt_str_of (caps : Re.captures) (year : Z) : string :=
  string_of_list_ascii (Re.group 1 caps) +:+ " " +:+ str_of_Z year +:+ " "
  +:+ string_of_list_ascii (Re.group 2 caps).

Definition captures_of (q : string) : Re.captures :=
  match Re.search pattern (list_ascii_of_string q) with
  | Some caps => caps
  | None => []
  end.

(** A question whose deadline is 5 March, 15:05 Eastern time. *)
Definition q_5_march : string := "Bitcoin Up or Down - March 5, 3:00PM-3:05PM ET".


(** The longest run of characters of [p] at the head of a text. *)
Fixpoint leading (p : ascii -> bool) (s : list ascii) : list ascii :=
  match s with
  | c :: s' => if p c then c :: leading p s' else []
  | [] => []
  end.




(** A declarative reading of regular expressions, against which the
    matcher is proved sound, and the pieces of the two expressions of the
    deadline parser. *)
Module ReSpec.
Import Re.

(** What the matcher finds: [Matches r u c c'] when [r] matches the text
    [u], taking the captures from [c] to [c']. *)
Inductive Matches : regex -> list ascii -> captures -> captures -> Prop :=
| MEps c : Matches Eps [] c c
| MChr p a c : p a = true -> Matches (Chr p) [a] c c
| MSeq r1 r2 u v c c1 c2 :
    Matches r1 u c c1 -> Matches r2 v c1 c2 -> Matches (Seq r1 r2) (u ++ v) c c2
| MAltL r1 r2 u c c' : Matches r1 u c c' -> Matches (Alt r1 r2) u c c'
| MAltR r1 r2 u c c' : Matches r2 u c c' -> Matches (Alt r1 r2) u c c'
| MStarNil g r c : Matches (Star g r) [] c c
| MStarCons g r u v c c1 c2 :
    Matches r u c c1 -> Matches (Star g r) v c1 c2 -> Matches (Star g r) (u ++ v) c c2
| MGroup n r u c c' : Matches r u c c' -> Matches (Group n r) u c ((n, u) :: c').

Definition sound_for (r : regex) : Prop :=
  forall (A : Type) s c (k : list ascii -> captures -> option A) x,
    run r s c k = Some x ->
    exists u s' c', s = (u ++ s')%list /\ Matches r u c c' /\ k s' c' = Some x.

(** Text matched by a regular expression all of whose character classes
    lie within [P] consists of characters of [P]. *)
Inductive Within (P : ascii -> bool) : regex -> Prop :=
| WEps : Within P Eps
| WChr p : (forall a, p a = true -> P a = true) -> Within P (Chr p)
| WSeq r1 r2 : Within P r1 -> Within P r2 -> Within P (Seq r1 r2)
| WAlt r1 r2 : Within P r1 -> Within P r2 -> Within P (Alt r1 r2)
| WStar g r : Within P r -> Within P (Star g r)
| WGroup n r : Within P r -> Within P (Group n r).

(** The numbers of the groups of a regular expression. *)
Fixpoint group_ids (r : regex) : list nat :=
  match r with
  | Eps | Chr _ => []
  | Seq r1 r2 | Alt r1 r2 => group_ids r1 ++ group_ids r2
  | Star _ r1 => group_ids r1
  | Group n r1 => n :: group_ids r1
  end.

Definition date_part : regex := seq [plus word; lit " "; plus digit].

Definition after_date : regex :=
  seq [ lit ","; Star false dot; lit "-"; Star true space;
        Group 2 (seq [ digit; opt digit; lit ":"; digit; digit;
                       Alt (text "AM") (text "PM") ]);
        Star true space; text "ET" ].

Definition format_tail : regex :=
  seq [ plus space; Group 4 Datetime.re_I; lit ":"; Group 5 Datetime.re_M;
        Group 6 Datetime.re_p ].




End ReSpec.



(* ================================================================= *)
(** ** Further notions for the properties of the code *)

(** The world after [n] requests to [e] and [secs] seconds of sleep. *)
Definition after_requests (e : endpoint) (n : nat) (secs : Z) (w : world) : world :=
  World (environ w) (files w) (now w + secs * 1000000) (http w)
        (requests w ++ replicate n e) (stdout w).

(** The answer of the service [e] to the [j]-th attempt of a call made in
    the world [w]. *)
Definition attempt (w : world) (e : endpoint) (j : nat) : response :=
  http w e (List.length (requests w) + j).

(** An attempt that ends in a [RequestException]. *)
Definition fails (r : response) : Prop :=
  match r with RequestException _ => True | Payload _ => False end.

(** A service that fails twice and then answers with [v]; one that never
    answers. *)
Definition flaky (v : pyval) : endpoint -> nat -> response :=
  fun _ n => if (n <? 2)%nat then RequestException "timeout" else Payload v.

Definition refusing : endpoint -> nat -> response :=
  fun _ n => RequestException ("refused " +:+ str_of_Z (Z.of_nat n)).

(** A service that answers every request with [v]. *)
Definition answering (v : pyval) : endpoint -> nat -> response := fun _ _ => Payload v.

(** A configuration file that overrides two keys and carries a key the
    schema does not know. *)
Definition user_config : gmap string pyval :=
  {[ "asset" := PStr "ETH"; "min_momentum_pct" := PInt 1; "comment" := PStr "test" ]}.

Definition user_world : world :=
  with_file "config.json" (Document (PDict user_config)) (quiet 0 no_answer).

(** What [load_config] leaves under a key of the schema for the user's
    object [d]. *)
Definition resolved (d : gmap string pyval) (e : string * (pyval * pytype)) : pyval :=
  default (fst (snd e)) (d !! fst e).

(** The configuration a run loads, empty if loading raises. *)
Definition loaded (path : string) (w : world) : gmap string pyval :=
  match fst (load_config path w) with
  | Ret cfg => cfg
  | Raise _ => ∅
  end.

(** The leading run of word characters of a text: in the first group of
    the pattern, the word in front of the day. *)
Fixpoint leading_word (s : list ascii) : list ascii :=
  match s with
  | c :: s' => if Re.is_word c then c :: leading_word s' else []
  | [] => []
  end.

(** A question whose month is abbreviated. *)
Definition q_abbreviated : string := "Bitcoin Up or Down - Mar 5, 3:00PM-3:05PM ET".

(** A response the callers of [api_request] treat as a failure: an
    object or text, or a list that has the string ["error"] among its
    elements. A JSON scalar is none of these. *)
Definition unusable (v : pyval) : Prop :=
  match v with
  | PDict _ | PStr _ => True
  | PList l => In (PStr "error") l
  | _ => False
  end.

Definition scalar (v : pyval) : Prop :=
  match v with
  | PNone | PBool _ | PInt _ | PFloat _ => True
  | _ => False
  end.

(** What [discover_markets] guarantees of an entry of its output, for
    the patterns, the window and the year of the run. *)
Definition well_formed_entry (patterns : list string) (window : string) (year : Z)
    (e : market) : Prop :=
  exists q,
    question e = PStr q
    /\ existsb (fun p => str_in p (lower q)) patterns = true
    /\ py_in ("-" +:+ window +:+ "-") (slug e) = Ret true
    /\ parse_deadline year q = Some (end_time e).

Definition text_or_null (v : pyval) : Prop :=
  match v with
  | PStr _ | PNone => True
  | _ => False
  end.

(** A record of the listing on which the loop of [discover_markets] does
    not raise: the question is text, null or absent, the slug is text or
    absent, the outcome-price field (or its default) decodes, and the fee
    field (or its default) reads as an integer. *)
Definition well_formed_record (d : gmap string pyval) : Prop :=
  (forall v, d !! "question" = Some v -> text_or_null v)
  /\ (forall v, d !! "slug" = Some v -> exists s, v = PStr s)
  /\ (exists prices, Json.loads (dict_get d "outcomePrices" (PStr "[0.5, 0.5]")) = Ret prices)
  /\ (exists fee, py_int (py_or (dict_get d "feeRateBps" PNone) (PInt 0)) = Ret fee).

(** Candles whose first open price is zero. *)
Definition zero_open_candles : list pyval :=
  [ kline 0 "0.0" "1.0" "0.0" "0.5" "10.0";
    kline 60000 "0.5" "1.5" "0.5" "1.0" "20.0" ].

(** The signal the exchange provider computes from [three_candles]. *)
Definition first_exchange_signal : signal :=
  match fst (get_binance_momentum "BTC" 3 candle_world) with
  | Ret (Some s) => s
  | _ => Signal 0 Neutral PNone 0
  end.

(** The state holds no previous price under [key]: no entry, or a value
    that counts as false (zero, [null], empty text). *)
Definition no_previous (d : gmap string pyval) (key : string) : Prop :=
  match d !! key with
  | None => True
  | Some prev => truthy prev = false
  end.

(** Worlds in which the spot price is quoted and the state holds zero,
    or text, as the previous price of Bitcoin. *)
Definition zero_state_world : world :=
  with_file STATE_FILE (Document (PDict {[ "BTC_last_price" := PInt 0 ]}))
    (quiet 0 (quoting (PInt 51000))).

Definition text_state_world : world :=
  with_file STATE_FILE (Document (PDict {[ "BTC_last_price" := PStr "n/a" ]}))
    (quiet 0 (quoting (PInt 51000))).

(** The service a run asks for its signal. *)
Definition provider_endpoint (cfg : config) : endpoint :=
  if String.eqb (cfg_signal_source cfg) "binance"
  then BinanceKlines (default "BTCUSDT" (ASSET_SYMBOLS !! cfg_asset cfg)) (cfg_lookback_minutes cfg)
  else CoinGeckoPrice (default "bitcoin" (COINGECKO_IDS !! cfg_asset cfg)).

(** What a computation did to the world besides its files: it slept
    [secs] seconds, made the requests [reqs] and printed [out]. *)
Definition effects (w w' : world) (secs : Z) (reqs : list endpoint) (out : list message) : Prop :=
  environ w' = environ w /\ http w' = http w /\ now w' = now w + secs * 1000000
  /\ requests w' = (requests w ++ reqs)%list /\ stdout w' = (stdout w ++ out)%list.

(** The lines [run_strategy] prints once it has a signal. *)
Definition verdict (live : bool) (cfg : config) (s : signal) : list message :=
  if Qltb (Qabs (momentum_pct s)) (cfg_min_momentum_pct cfg) then [MsgWeak]
  else if cfg_volume_confidence cfg && Qltb (volume_ratio s) (5 # 10) then [MsgLowVolume]
  else [ MsgAction (match signal_direction s with Up => "yes" | _ => "no" end);
         if live then MsgLive else MsgDryRun ].

(** The lines a run of [run_strategy] adds to the output. *)
Definition printed_by (live : bool) (cfg : config) (w : world) : list message :=
  drop (List.length (stdout w)) (stdout (snd (run_strategy live cfg w))).

(** A world in which the listing has one open market and the exchange
    answers with three rising candles. *)
Definition trading_world : world :=
  with_key "secret"
    (quiet noon_5_march_2026
       (fun e _ => match e with
                   | GammaMarkets => Payload (PList [btc_record "3:05PM" []])
                   | BinanceKlines _ _ => Payload (PList three_candles)
                   | CoinGeckoPrice _ => RequestException "unreachable"
                   end)).

(** Candles that rise while the volume dries up, and a world in which
    the exchange answers with them. *)
Definition thin_candles : list pyval :=
  [ kline 0 "100.0" "101.0" "99.5" "100.5" "10.0";
    kline 60000 "100.5" "101.5" "100.0" "101.0" "20.0";
    kline 120000 "101.0" "102.5" "100.5" "102.0" "1.0" ].

Definition thin_world : world :=
  with_key "secret"
    (quiet noon_5_march_2026
       (fun e _ => match e with
                   | GammaMarkets => Payload (PList [btc_record "3:05PM" []])
                   | BinanceKlines _ _ => Payload (PList thin_candles)
                   | CoinGeckoPrice _ => RequestException "unreachable"
                   end)).

(* ================================================================= *)
(** ** Configuration loading *)

Lemma fill_config_defaults :
  fill_config CONFIG_SCHEMA (PDict ∅) ∅
  = Ret (list_to_map (map (fun e => (fst (fst e), snd (fst e))) documented_defaults)).
Proof.
  vm_cast_no_check
    (eq_refl (Ret (list_to_map (map (fun e => (fst (fst e), snd (fst e)))
                                    documented_defaults) : gmap string pyval))).
Qed.

Lemma documented_defaults_lookup :
  Forall (fun e : string * pyval * pytype =>
            (list_to_map (map (fun e => (fst (fst e), snd (fst e))) documented_defaults)
               : gmap string pyval) !! fst (fst e) = Some (snd (fst e)))
         documented_defaults.
Proof. repeat constructor. Qed.

(** The documented defaults have the declared types; as a typed
    configuration they are [default_config]. *)
Lemma documented_defaults_typed :
  typed_config (list_to_map (map (fun e => (fst (fst e), snd (fst e))) documented_defaults))
  = Some default_config
  /\ Forall (fun e : string * pyval * pytype => isinstance (snd (fst e)) (snd e) = true)
            documented_defaults.
Proof. split; [vm_compute; reflexivity | repeat constructor]. Qed.

(** C10. When the configuration file is absent, cannot be opened or does
    not hold JSON, [load_config] returns normally, with the documented
    default under each of the nine keys; it touches no file and prints at
    most the warning. *)
Theorem load_config_defaults_on_failure (path : string) (w : world) :
  files w !! path = None \/ files w !! path = Some Unreadable
    \/ files w !! path = Some Malformed ->
  exists cfg w',
    load_config path w = (Ret cfg, w')
    /\ Forall (fun e : string * pyval * pytype => cfg !! fst (fst e) = Some (snd (fst e)))
              documented_defaults
    /\ files w' = files w
    /\ (stdout w' = stdout w \/ stdout w' = (stdout w ++ [MsgConfigWarning])%list).
Proof.
  intros H.
  assert (Hload : exists w',
    (present <~ path_exists path ;;
     if present then
       try_except (json_load_file path) (print MsgConfigWarning ;;; ret (PDict ∅))
     else ret (PDict ∅)) w = (Ret (PDict ∅), w')
    /\ files w' = files w
    /\ (stdout w' = stdout w \/ stdout w' = (stdout w ++ [MsgConfigWarning])%list)).
  { unfold bind, path_exists, try_except, json_load_file, print, ret.
    destruct H as [H | [H | H]]; repeat (rewrite H; cbn); eauto. }
  destruct Hload as (w' & Hrun & Hfiles & Hout).
  exists (list_to_map (map (fun e => (fst (fst e), snd (fst e))) documented_defaults)), w'.
  split.
  - unfold load_config, bind at 1. rewrite Hrun. unfold lift.
    now rewrite fill_config_defaults.
  - split; [exact documented_defaults_lookup | auto].
Qed.

Lemma load_config_defaults_on_failure_witness :
  exists cfg w',
    load_config "config.json" (with_file "config.json" Malformed (quiet 0 no_answer))
    = (Ret cfg, w')
    /\ Forall (fun e : string * pyval * pytype => cfg !! fst (fst e) = Some (snd (fst e)))
              documented_defaults
    /\ files w' = files (with_file "config.json" Malformed (quiet 0 no_answer))
    /\ (stdout w' = stdout (with_file "config.json" Malformed (quiet 0 no_answer))
        \/ stdout w'
           = (stdout (with_file "config.json" Malformed (quiet 0 no_answer))
              ++ [MsgConfigWarning])%list).
Proof.
  apply (load_config_defaults_on_failure "config.json"
           (with_file "config.json" Malformed (quiet 0 no_answer))).
  right; right. vm_compute. reflexivity.
Defined.

Lemma fill_config_other schema d acc cfg key :
  fill_config schema (PDict d) acc = Ret cfg ->
  key ∉ map fst schema ->
  cfg !! key = acc !! key.
Proof.
  revert acc. induction schema as [| [k spec] schema IH]; intros acc Hrun Hnot; simpl in *.
  - now inversion Hrun.
  - apply not_elem_of_cons in Hnot as [Hne Hnot].
    rewrite (IH _ Hrun Hnot). now apply lookup_insert_ne.
Qed.

Lemma fill_config_lookup schema d acc cfg key dflt t :
  NoDup (map fst schema) ->
  fill_config schema (PDict d) acc = Ret cfg ->
  (key, (dflt, t)) ∈ schema ->
  cfg !! key = Some (dict_get d key dflt).
Proof.
  revert acc. induction schema as [| [k spec] schema IH]; intros acc Hnd Hrun Hin; simpl in *.
  - now apply elem_of_nil in Hin.
  - apply NoDup_cons in Hnd as [Hk Hnd].
    apply elem_of_cons in Hin as [Heq | Hin].
    + inversion Heq; subst. rewrite (fill_config_other _ _ _ _ _ Hrun Hk).
      apply lookup_insert_eq.
    + eapply IH; eauto.
Qed.

Lemma fill_config_total schema d acc :
  exists cfg, fill_config schema (PDict d) acc = Ret cfg.
Proof.
  revert acc. induction schema as [| [key spec] schema IH]; intros acc; simpl; eauto.
Qed.

Lemma schema_keys_nodup : NoDup (map fst CONFIG_SCHEMA).
Proof.
  apply (bool_decide_unpack (NoDup (map fst CONFIG_SCHEMA))). vm_compute. exact I.
Qed.

(** What [load_config] does with a configuration file that holds a JSON
    object: under each key of the schema it puts the user's value when
    there is one, whatever its type, and the schema's default otherwise. *)
Lemma load_config_user_values path w d :
  files w !! path = Some (Document (PDict d)) ->
  exists cfg,
    load_config path w = (Ret cfg, w)
    /\ forall key dflt t, (key, (dflt, t)) ∈ CONFIG_SCHEMA ->
         cfg !! key = Some (dict_get d key dflt).
Proof.
  intros H.
  destruct (fill_config_total CONFIG_SCHEMA d ∅) as [cfg Hcfg].
  exists cfg. split.
  - unfold load_config, bind, path_exists, try_except, json_load_file, lift.
    repeat (rewrite H; cbn -[fill_config CONFIG_SCHEMA]). now rewrite Hcfg.
  - intros key dflt t Hin. eapply fill_config_lookup; eauto using schema_keys_nodup.
Qed.

(** C3, at the failing input. The schema declares [lookback_minutes] an
    [int]; a configuration file that binds it to the text ["five"] comes
    back from [load_config] with that text under the key, which is not a
    value of the declared type. *)
Theorem load_config_keeps_wrong_type :
  exists cfg w',
    load_config "config.json"
      (with_file "config.json" (Document (PDict wrong_type_config)) (quiet 0 no_answer))
    = (Ret cfg, w')
    /\ cfg !! "lookback_minutes" = Some (PStr "five")
    /\ isinstance (PStr "five") TInt = false.
Proof.
  destruct (load_config_user_values "config.json"
              (with_file "config.json" (Document (PDict wrong_type_config)) (quiet 0 no_answer))
              wrong_type_config) as (cfg & Hrun & Hget).
  { vm_compute; reflexivity. }
  exists cfg; eexists. split; [exact Hrun |]. split; [| reflexivity].
  rewrite (Hget "lookback_minutes" (PInt 5) TInt).
  - reflexivity.
  - unfold CONFIG_SCHEMA. set_solver.
Qed.

(* ================================================================= *)
(** ** Market discovery: the outcome-price field *)

Example json_default_pair :
  Json.loads (PStr "[0.5, 0.5]") = Ret (PList [PFloat (1 # 2); PFloat (1 # 2)]).
Proof. vm_compute. reflexivity. Qed.

(** A record without the field gets the equal split. *)
Example discover_markets_absent_prices :
  fst (discover_markets "BTC" "5m" (quiet noon_5_march_2026 (listing [btc_record "3:05PM" []])))
  = Ret [ Market (PStr "Bitcoin Up or Down - March 5, 3:00PM-3:05PM ET")
                 (PStr "btc-updown-5m-1772741100") PNone
                 1772741100000000
                 (PList [PFloat (1 # 2); PFloat (1 # 2)]) 0 ].
Proof. vm_compute. reflexivity. Qed.

(** C1, at the failing input. A record that passes the filter and whose
    outcome-price field is text that is not JSON makes [discover_markets]
    raise the decoder's exception: there is no handler around
    [json.loads], and no default is substituted. *)
Theorem discover_markets_malformed_prices_raises :
  fst (discover_markets "BTC" "5m"
         (quiet noon_5_march_2026
                (listing [btc_record "3:05PM" [("outcomePrices", PStr "[0.5, ")]])))
  = Raise JSONDecodeError.
Proof. vm_compute. reflexivity. Qed.
(* ================================================================= *)
(** ** The spot-price provider and its state file *)

Lemma api_attempts_frame e retries i todo w :
  0 <= i ->
  exists v w', api_attempts e retries i todo w = (Ret v, w') /\ request_frame e w w'.
Proof.
  unfold request_frame.
  revert i w. induction todo as [| todo IH]; intros i w Hi; simpl.
  - exists (error_dict "Max retries exceeded"), w. split; [reflexivity |].
    repeat (split; [try reflexivity; try lia |]). exists 0%nat. simpl. now rewrite app_nil_r.
  - unfold bind, http_request.
    destruct (http w e (List.length (requests w))) as [v | msg].
    + eexists _, _. split; [reflexivity |]. simpl.
      repeat (split; [try reflexivity; try lia |]). now exists 1%nat.
    + destruct (i =? retries - 1).
      * eexists _, _. split; [reflexivity |]. simpl.
        repeat (split; [try reflexivity; try lia |]). now exists 1%nat.
      * unfold sleep at 1. cbn.
        edestruct (IH (i + 1)) as (v & w' & Hrun & Henv & Hfiles & Hhttp & Hout & Hnow & n & Hreq);
          [lia |].
        rewrite Hrun. exists v, w'. split; [reflexivity |]. cbn in *.
        repeat (split; [try assumption; try lia |]).
        exists (S n). rewrite Hreq. now rewrite <- app_assoc.
Qed.

Lemma api_request_frame e w :
  exists v w', api_request e w = (Ret v, w') /\ request_frame e w w'.
Proof. apply api_attempts_frame. lia. Qed.

Lemma fetch_spot_price_frame asset w r w' :
  fetch_spot_price asset w = (r, w') ->
  request_frame (CoinGeckoPrice (default "bitcoin" (COINGECKO_IDS !! asset))) w w'
  /\ forall p, r = Ret (Some p) -> truthy p = true.
Proof.
  unfold fetch_spot_price.
  set (cg_id := default "bitcoin" (COINGECKO_IDS !! asset)).
  destruct (api_request_frame (CoinGeckoPrice cg_id) w) as (res & w1 & Hreq & Hframe).
  unfold bind at 1. rewrite Hreq. unfold bind, lift, ret.
  destruct (py_in "error" res) as [[|] |]; [| | ]. 
  1,3: intros H; inversion H; subst; split; [assumption | discriminate].
  destruct (inner <- py_get res cg_id (PDict ∅);; py_get inner "usd" PNone) as [price |].
  2: intros H; inversion H; subst; split; [assumption | discriminate].
  destruct (truthy price) eqn:Ht; cbn; intros H; inversion H; subst; (split; [assumption |]).
  - now intros p [= <-].
  - discriminate.
Qed.

(** A successful [spot_signal] leaves the state file holding a dict that
    extends the one it found by the asset's own entry. *)
Lemma spot_signal_state asset price w r w' :
  spot_signal asset price w = (r, w') ->
  (files w' = files w /\ (forall s, r <> Ret s))
  \/ exists d s,
       (files w !! STATE_FILE = Some (Document (PDict d))
        \/ (files w !! STATE_FILE = None /\ d = ∅))
       /\ r = Ret s /\ price_now s = price
       /\ files w' = <[STATE_FILE := Document (PDict (<[state_key asset := price]> d))]> (files w).
Proof.
  unfold spot_signal, bind, lift, path_exists, json_load_file, json_dump_file, ret.
  destruct (files w !! STATE_FILE) as [[| | v] |] eqn:Hfile; cbn; rewrite ?Hfile; cbn.
  1,2: intros H; inversion H; subst; left; split; [reflexivity | discriminate].
  - destruct v; cbn; try (intros H; inversion H; subst; left; split; [reflexivity | discriminate]).
    destruct (spot_momentum price (dict_get d (state_key asset) price)); cbn; rewrite ?Hfile;
      intros H; inversion H; subst; [right | left; split; [reflexivity | discriminate]].
    exists d; eexists. split; [now left |]. repeat split; reflexivity.
  - destruct (spot_momentum price (dict_get ∅ (state_key asset) price)); cbn; rewrite ?Hfile;
      intros H; inversion H; subst; [right | left; split; [reflexivity | discriminate]].
    exists ∅; eexists. split; [now right |]. repeat split; reflexivity.
Qed.

(** C9. Whatever a run of the spot-price provider returns, a state file
    that held a JSON object before the run holds one after it, and the
    two agree on every key other than the asset's own
    [{asset}_last_price]. *)
Theorem coingecko_state_frame asset w r w' d :
  get_coingecko_momentum asset w = (r, w') ->
  files w !! STATE_FILE = Some (Document (PDict d)) ->
  exists d',
    files w' !! STATE_FILE = Some (Document (PDict d'))
    /\ forall k, k <> state_key asset -> d' !! k = d !! k.
Proof.
  intros Hrun Hfile. unfold get_coingecko_momentum, bind in Hrun.
  destruct (fetch_spot_price asset w) as [fetched w1] eqn:Hfetch.
  apply fetch_spot_price_frame in Hfetch as [(_ & Hfiles & _) _].
  rewrite <- Hfiles in Hfile.
  destruct fetched as [[price |] |]; [| inversion Hrun; subst; eauto ..].
  destruct (spot_signal asset price w1) as [r1 w2] eqn:Hsig.
  assert (w' = w2) as -> by (destruct r1; now inversion Hrun).
  apply spot_signal_state in Hsig as [[Hsame _] | (d0 & s & Hd0 & _ & _ & Hfiles')].
  - rewrite Hsame. eauto.
  - destruct Hd0 as [Hd0 | [Hd0 _]]; [| congruence].
    assert (d0 = d) as -> by congruence.
    rewrite Hfiles', lookup_insert_eq. eexists; split; [reflexivity |].
    intros k Hk. now apply lookup_insert_ne.
Qed.

Lemma truthy_number_nonzero p q :
  truthy p = true -> as_number p = Some q -> Qeq_bool q 0 = false.
Proof.
  destruct p as [| [|] | z | q' | | |]; cbn; intros Ht [= <-]; try discriminate.
  - reflexivity.
  - unfold Qeq_bool; cbn. destruct (Z.eqb_spec z 0); [discriminate |].
    apply Z.eqb_neq. lia.
  - now destruct (Qeq_bool q' 0).
Qed.

Lemma spot_momentum_same p q :
  truthy p = true -> as_number p = Some q ->
  exists m, spot_momentum p p = Ret m /\ (m == 0)%Q.
Proof.
  intros Ht Hq. unfold spot_momentum, number, py_div. rewrite Ht, Hq. cbn.
  rewrite (truthy_number_nonzero _ _ Ht Hq). eexists; split; [reflexivity |].
  unfold Qminus. rewrite Qplus_opp_r. unfold Qdiv. now rewrite !Qmult_0_l.
Qed.

Lemma spot_direction_zero m : (m == 0)%Q -> spot_direction m = Neutral.
Proof.
  intros H. unfold spot_direction, Qltb.
  assert (H1 : (0 ?= m)%Q = Eq) by (apply Qeq_alt; now symmetry).
  assert (H2 : (m ?= 0)%Q = Eq) by now apply Qeq_alt.
  now rewrite H1, H2.
Qed.

(** C8. When a run of the spot-price provider has returned a signal,
    the state file is not touched in between, and the next run fetches
    the same (numeric) price, the next run returns a signal with momentum
    0 and direction neutral, whatever the momentum of the first. *)
Theorem coingecko_second_run_zero asset w1 s1 w1' w2 w2m q :
  get_coingecko_momentum asset w1 = (Ret (Some s1), w1') ->
  files w2 !! STATE_FILE = files w1' !! STATE_FILE ->
  fetch_spot_price asset w2 = (Ret (Some (price_now s1)), w2m) ->
  as_number (price_now s1) = Some q ->
  exists s2 w2',
    get_coingecko_momentum asset w2 = (Ret (Some s2), w2')
    /\ (momentum_pct s2 == 0)%Q
    /\ signal_direction s2 = Neutral.
Proof.
  intros Hrun1 Hfiles Hfetch2 Hq.
  (* the first run stored its price *)
  assert (Hstored : exists d, files w1' !! STATE_FILE
                              = Some (Document (PDict (<[state_key asset := price_now s1]> d)))).
  { unfold get_coingecko_momentum, bind in Hrun1.
    destruct (fetch_spot_price asset w1) as [[[p1 |] |] w1m]; try discriminate.
    destruct (spot_signal asset p1 w1m) as [r1 w1s] eqn:Hsig.
    destruct r1 as [s |]; [| discriminate]. inversion Hrun1; subst.
    apply spot_signal_state in Hsig as [[_ Hno] | (d & s & _ & [= <-] & <- & ->)].
    - now destruct (Hno s1).
    - exists d. apply lookup_insert_eq. }
  destruct Hstored as [d Hstored].
  apply fetch_spot_price_frame in Hfetch2 as Hframe. destruct Hframe as [(_ & Hsame & _) Htruthy].
  specialize (Htruthy _ eq_refl).
  destruct (spot_momentum_same _ _ Htruthy Hq) as (m & Hm & Hzero).
  assert (Hfile2 : files w2m !! STATE_FILE
                   = Some (Document (PDict (<[state_key asset := price_now s1]> d))))
    by now rewrite Hsame, Hfiles.
  unfold get_coingecko_momentum, bind at 1. rewrite Hfetch2.
  unfold spot_signal, bind, lift, path_exists, json_load_file, json_dump_file, ret.
  rewrite Hfile2. cbn. rewrite Hfile2. cbn.
  unfold dict_get. rewrite lookup_insert_eq. cbn. rewrite Hm. cbn. rewrite Hfile2.
  eexists _, _. split; [reflexivity |]. cbn. split; [exact Hzero | now apply spot_direction_zero].
Qed.

Lemma coingecko_state_frame_witness :
  exists d',
    files after_first_run !! STATE_FILE = Some (Document (PDict d'))
    /\ forall k, k <> state_key "BTC" -> d' !! k = earlier_state !! k.
Proof.
  apply (coingecko_state_frame "BTC" spot_world
           (fst (get_coingecko_momentum "BTC" spot_world)) after_first_run earlier_state);
    vm_compute; reflexivity.
Defined.

Lemma coingecko_second_run_zero_witness :
  exists s2 w2',
    get_coingecko_momentum "BTC" after_first_run = (Ret (Some s2), w2')
    /\ (momentum_pct s2 == 0)%Q
    /\ signal_direction s2 = Neutral.
Proof.
  apply (coingecko_second_run_zero "BTC" spot_world first_signal after_first_run
           after_first_run (snd (fetch_spot_price "BTC" after_first_run)) 51000);
    vm_compute; reflexivity.
Defined.

Example first_run_momentum : (momentum_pct first_signal == 2)%Q.
Proof. vm_compute. reflexivity. Qed.

(* ================================================================= *)
(** ** [sorted] is a stable sort *)

Section Sorted.
Context {A : Type} (key : A -> Z).

Lemma sorted_cons x l : sorted key (x :: l) = insert_by key x (sorted key l).
Proof. reflexivity. Qed.

Lemma insert_by_perm x l : Permutation (insert_by key x l) (x :: l).
Proof.
  induction l as [| y l IH]; simpl; [reflexivity |].
  destruct (key x <=? key y); [reflexivity |].
  rewrite IH. apply perm_swap.
Qed.

Lemma sorted_perm l : Permutation (sorted key l) l.
Proof.
  induction l as [| x l IH]; [reflexivity |].
  rewrite sorted_cons, insert_by_perm. now constructor.
Qed.

Lemma insert_by_sorted x l :
  StronglySorted (fun a b => key a <= key b) l ->
  StronglySorted (fun a b => key a <= key b) (insert_by key x l).
Proof.
  induction 1 as [| y l Hs IH Hy]; simpl.
  - repeat constructor.
  - destruct (Z.leb_spec (key x) (key y)).
    + constructor; [now constructor |].
      constructor; [assumption |].
      eapply List.Forall_impl; [| exact Hy]. intros; simpl in *; lia.
    + constructor; [assumption |].
      eapply Permutation_Forall; [symmetry; apply insert_by_perm |].
      constructor; [lia | assumption].
Qed.

Lemma sorted_sorted l : StronglySorted (fun a b => key a <= key b) (sorted key l).
Proof.
  induction l as [| x l IH]; [constructor |].
  rewrite sorted_cons. now apply insert_by_sorted.
Qed.

(** Stability: inserting [x] does not move it past an element of its own
    key, so the elements of any one key keep their order. *)
Lemma insert_by_filter k x l :
  (key x = k -> Forall (fun y => key x <= key y) (List.filter (fun y => key y =? k) l)) ->
  List.filter (fun y => key y =? k) (insert_by key x l)
  = List.filter (fun y => key y =? k) (x :: l).
Proof.
  induction l as [| y l IH]; intros Hall; [reflexivity |].
  cbn [insert_by]. destruct (Z.leb_spec (key x) (key y)); [reflexivity |].
  cbn [List.filter] in *.
  destruct (Z.eqb_spec (key x) k) as [Hx | Hx], (Z.eqb_spec (key y) k) as [Hy | Hy].
  - specialize (Hall Hx). inversion Hall; subst. lia.
  - rewrite IH by auto. cbn [List.filter]. now destruct (Z.eqb_spec (key x) k).
  - rewrite IH by (intros; contradiction). cbn [List.filter].
    now destruct (Z.eqb_spec (key x) k).
  - rewrite IH by (intros; contradiction). cbn [List.filter].
    now destruct (Z.eqb_spec (key x) k).
Qed.

Lemma sorted_stable k l :
  List.filter (fun y => key y =? k) (sorted key l) = List.filter (fun y => key y =? k) l.
Proof.
  induction l as [| x l IH]; [reflexivity |].
  rewrite sorted_cons, insert_by_filter.
  - cbn [List.filter]. now rewrite IH.
  - intros Hx. apply List.Forall_forall. intros y Hy.
    apply List.filter_In in Hy as [_ Hy]. apply Z.eqb_eq in Hy. lia.
Qed.

(** The head of the sorted list is the first element of least key. *)
Lemma sorted_head l :
  l <> [] ->
  exists best before after rest,
    sorted key l = best :: rest
    /\ l = (before ++ best :: after)%list
    /\ Forall (fun m => key best < key m) before
    /\ Forall (fun m => key best <= key m) after.
Proof.
  induction l as [| x l IH]; [congruence | intros _].
  destruct l as [| y l].
  - exists x, [], [], []. repeat split; constructor.
  - destruct IH as (best & before & after & rest & Hs & Hl & Hb & Ha); [congruence |].
    rewrite sorted_cons, Hs. cbn [insert_by].
    destruct (Z.leb_spec (key x) (key best)).
    + exists x, [], (y :: l), (best :: rest). repeat split; [constructor |].
      rewrite Hl. apply Forall_app. split.
      * eapply List.Forall_impl; [| exact Hb]. intros; simpl in *; lia.
      * constructor; [lia |]. eapply List.Forall_impl; [| exact Ha]. intros; simpl in *; lia.
    + exists best, (x :: before), after. eexists. repeat split.
      * now rewrite Hl.
      * constructor; [lia | assumption].
      * assumption.
Qed.
End Sorted.

(* ================================================================= *)
(** ** What discovery does to the world *)

Lemma print_frame_refl w : print_frame w w.
Proof. now repeat split. Qed.

Lemma print_frame_trans w1 w2 w3 :
  print_frame w1 w2 -> print_frame w2 w3 -> print_frame w1 w3.
Proof. unfold print_frame. intuition congruence. Qed.

Lemma parse_et_to_utc_frame qv w r w' :
  parse_et_to_utc qv w = (r, w') -> print_frame w w'.
Proof.
  unfold parse_et_to_utc.
  destruct qv; try (intros [= <- <-]; apply print_frame_refl).
  destruct (Re.search pattern (list_ascii_of_string s)) as [caps |];
    [| intros [= <- <-]; apply print_frame_refl].
  unfold try_except, bind, datetime_now, lift, print, ret.
  destruct (parse_groups _ _ _) as [t | []]; intros [= <- <-]; now repeat split.
Qed.

Lemma consider_frame patterns window m markets w r w' :
  consider patterns window m markets w = (r, w') -> print_frame w w'.
Proof.
  unfold consider, bind at 1, lift at 1.
  destruct (matches patterns window m) as [[|] |];
    try (intros [= <- <-]; apply print_frame_refl).
  unfold bind at 1, lift at 1.
  destruct (py_get m "question" (PStr EmptyString)) as [qv |];
    [| intros [= <- <-]; apply print_frame_refl].
  unfold bind at 1.
  destruct (parse_et_to_utc qv w) as [[[t |] |] w1] eqn:Hparse;
    apply parse_et_to_utc_frame in Hparse.
  - unfold bind, lift, ret.
    match goal with |- context [match ?x with _ => _ end] => destruct x end;
      now intros [= <- <-].
  - now intros [= <- <-].
  - now intros [= <- <-].
Qed.

Lemma discover_loop_frame patterns window l markets w r w' :
  discover_loop patterns window l markets w = (r, w') -> print_frame w w'.
Proof.
  revert markets w. induction l as [| m l IH]; intros markets w; simpl.
  - intros [= <- <-]. apply print_frame_refl.
  - unfold bind.
    destruct (consider patterns window m markets w) as [[ms |] w1] eqn:Hc;
      apply consider_frame in Hc.
    + intros H. apply IH in H. eapply print_frame_trans; eauto.
    + now intros [= <- <-].
Qed.

(** Discovery asks for the market listing and nothing else. *)
Lemma discover_markets_frame asset window w r w' :
  discover_markets asset window w = (r, w') ->
  environ w' = environ w /\ files w' = files w /\ http w' = http w
  /\ exists n, requests w' = (requests w ++ replicate n GammaMarkets)%list.
Proof.
  unfold discover_markets, bind at 1.
  destruct (api_request_frame GammaMarkets w) as (res & w1 & -> & He & Hf & Hh & _ & _ & Hreq).
  unfold bind, lift.
  assert (Hbase : environ w1 = environ w /\ files w1 = files w /\ http w1 = http w
                  /\ exists n, requests w1 = (requests w ++ replicate n GammaMarkets)%list)
    by auto.
  destruct (py_in "error" res) as [err |]; [| now intros [= <- <-]].
  destruct res; try now intros [= <- <-].
  destruct err; [now intros [= <- <-] |].
  intros H. apply discover_loop_frame in H as (He' & Hf' & _ & Hh' & Hr').
  rewrite He', Hf', Hh', Hr'. exact Hbase.
Qed.

(* ================================================================= *)
(** ** The decision engine: choosing the market *)

(** C6. When discovery returns markets of which some are more than
    [min_time_remaining] seconds from their deadline, the engine selects
    the head of these markets sorted by deadline. That market is the
    first of earliest deadline in discovery order: strictly earlier than
    everything discovered before it and no later than anything after it.
    The sort is ascending and keeps the markets of any one deadline in
    their discovery order. *)
Theorem select_market_earliest cfg w markets w1 :
  discover_markets (cfg_asset cfg) (cfg_window cfg) w = (Ret markets, w1) ->
  List.filter (far_enough (now w1) (cfg_min_time_remaining cfg)) markets <> [] ->
  exists best before after rest,
    select_market cfg w = (Ret (Some best), snd (print (MsgTarget (question best)) w1))
    /\ List.filter (far_enough (now w1) (cfg_min_time_remaining cfg)) markets
       = (before ++ best :: after)%list
    /\ Forall (fun m => end_time best < end_time m) before
    /\ Forall (fun m => end_time best <= end_time m) after
    /\ sorted end_time (List.filter (far_enough (now w1) (cfg_min_time_remaining cfg)) markets)
       = best :: rest
    /\ StronglySorted (fun a b => end_time a <= end_time b) (best :: rest)
    /\ forall t, List.filter (fun m => end_time m =? t) (best :: rest)
                 = List.filter (fun m => end_time m =? t)
                     (List.filter (far_enough (now w1) (cfg_min_time_remaining cfg)) markets).
Proof.
  intros Hdisc Hne.
  set (valid := List.filter (far_enough (now w1) (cfg_min_time_remaining cfg)) markets) in *.
  destruct (sorted_head end_time valid Hne) as (best & before & after & rest & Hs & Hl & Hb & Ha).
  exists best, before, after, rest.
  split.
  - unfold select_market, bind at 1. rewrite Hdisc.
    unfold bind at 1, datetime_now. fold valid.
    rewrite bool_decide_eq_false_2 by assumption.
    rewrite Hs. reflexivity.
  - repeat (split; [assumption |]). split.
    + rewrite <- Hs. apply sorted_sorted.
    + intros t. rewrite <- Hs. apply sorted_stable.
Qed.

Lemma select_market_earliest_witness :
  exists best before after rest,
    select_market default_config busy_world
    = (Ret (Some best),
       snd (print (MsgTarget (question best))
              (snd (discover_markets "BTC" "5m" busy_world))))
    /\ List.filter (far_enough noon_5_march_2026 60) (discovered default_config busy_world)
       = (before ++ best :: after)%list
    /\ Forall (fun m => end_time best < end_time m) before
    /\ Forall (fun m => end_time best <= end_time m) after
    /\ sorted end_time (List.filter (far_enough noon_5_march_2026 60)
                                    (discovered default_config busy_world))
       = best :: rest
    /\ StronglySorted (fun a b => end_time a <= end_time b) (best :: rest)
    /\ forall t, List.filter (fun m => end_time m =? t) (best :: rest)
                 = List.filter (fun m => end_time m =? t)
                     (List.filter (far_enough noon_5_march_2026 60)
                                  (discovered default_config busy_world)).
Proof.
  apply (select_market_earliest default_config busy_world
           (discovered default_config busy_world)
           (snd (discover_markets "BTC" "5m" busy_world))).
  - vm_compute. reflexivity.
  - vm_compute. discriminate.
Defined.

Example busy_world_choice :
  fst (select_market default_config busy_world)
  = Ret (Some (Market (PStr "Bitcoin Up or Down - March 5, 3:00PM-3:05PM ET")
                      (PStr "btc-updown-5m-1772741100") (PStr "b")
                      1772741100000000
                      (PList [PFloat (1 # 2); PFloat (1 # 2)]) 0)).
Proof. vm_compute. reflexivity. Qed.

Lemma get_api_key_set w key :
  environ w !! "SIMMER_API_KEY" = Some key -> key <> EmptyString ->
  get_api_key w = (Ret key, w).
Proof.
  intros H Hne. unfold get_api_key. rewrite H. destruct key; [contradiction | reflexivity].
Qed.

(** C7. With the credential set, when discovery returns normally and no
    market it returned is more than [min_time_remaining] seconds from its
    deadline, the run ends normally, its last line of output says that no
    suitable market was found, and every request the run made went to the
    market listing: no candle and no spot price was asked for. *)
Theorem no_suitable_markets_ends_cycle live cfg w key markets w1 :
  environ w !! "SIMMER_API_KEY" = Some key -> key <> EmptyString ->
  discover_markets (cfg_asset cfg) (cfg_window cfg)
    (snd (print (MsgRunning (cfg_asset cfg)) w)) = (Ret markets, w1) ->
  Forall (fun m => ~ cfg_min_time_remaining cfg * 1000000 < end_time m - now w1) markets ->
  exists w',
    run_strategy live cfg w = (Ret tt, w')
    /\ stdout w' = (stdout w1 ++ [MsgNoMarkets])%list
    /\ exists n, requests w' = (requests w ++ replicate n GammaMarkets)%list.
Proof.
  intros Hkey Hne Hdisc Hnone.
  assert (Hvalid : List.filter (far_enough (now w1) (cfg_min_time_remaining cfg)) markets = []).
  { clear Hdisc. induction markets as [| m ms IH]; [reflexivity |].
    inversion Hnone as [| ? ? Hm Hms]; subst. cbn [List.filter].
    unfold far_enough at 1. destruct (Z.ltb_spec (cfg_min_time_remaining cfg * 1000000)
                                        (end_time m - now w1)); [contradiction | auto]. }
  apply discover_markets_frame in Hdisc as Hframe.
  destruct Hframe as (_ & _ & _ & n & Hreq).
  eexists. split; [| split].
  - unfold run_strategy, bind at 1. cbn [print].
    unfold bind at 1. rewrite (get_api_key_set _ key) by assumption.
    unfold bind at 1, select_market, bind at 1.
    change (World (environ w) (files w) (now w) (http w) (requests w)
                  (stdout w ++ [MsgRunning (cfg_asset cfg)]))
      with (snd (print (MsgRunning (cfg_asset cfg)) w)).
    rewrite Hdisc. unfold bind at 1, datetime_now. rewrite Hvalid. cbn. reflexivity.
  - reflexivity.
  - exists n. exact Hreq.
Qed.

Lemma no_suitable_markets_ends_cycle_witness :
  exists w',
    run_strategy false default_config late_world = (Ret tt, w')
    /\ stdout w'
       = (stdout (snd (discover_markets "BTC" "5m" (snd (print (MsgRunning "BTC") late_world))))
          ++ [MsgNoMarkets])%list
    /\ exists n, requests w' = (requests late_world ++ replicate n GammaMarkets)%list.
Proof.
  apply (no_suitable_markets_ends_cycle false default_config late_world "secret"
           (discovered default_config (snd (print (MsgRunning "BTC") late_world)))
           (snd (discover_markets "BTC" "5m" (snd (print (MsgRunning "BTC") late_world))))).
  - vm_compute. reflexivity.
  - discriminate.
  - vm_compute. reflexivity.
  - apply (bool_decide_unpack _). vm_compute. exact I.
Defined.

(* ================================================================= *)
(** ** The exchange-candle provider *)

Lemma obind_ret_inv {A B} (x : outcome A) (k : A -> outcome B) b :
  obind x k = Ret b -> exists a, x = Ret a /\ k a = Ret b.
Proof. destruct x; simpl; [eauto | discriminate]. Qed.

Lemma map_outcome_Forall2 {A B} (f : A -> outcome B) l l' :
  map_outcome f l = Ret l' -> Forall2 (fun x y => f x = Ret y) l l'.
Proof.
  revert l'. induction l as [| x l IH]; intros l' H; simpl in H.
  - injection H as <-. constructor.
  - apply obind_ret_inv in H as (y & Hy & H).
    apply obind_ret_inv in H as (ys & Hys & H). injection H as <-.
    constructor; auto.
Qed.

Lemma Forall2_map_outcome {A B} (f : A -> outcome B) l l' :
  Forall2 (fun x y => f x = Ret y) l l' -> map_outcome f l = Ret l'.
Proof.
  induction 1 as [| x y l l' Hxy _ IH]; simpl; [reflexivity |].
  now rewrite Hxy, IH.
Qed.

Lemma candle_of_inv c r :
  candle_of c = Ret r ->
  exists o cl v,
    py_index c 1 = Ret o /\ py_float o = Ret (c_open r)
    /\ py_index c 4 = Ret cl /\ py_float cl = Ret (c_close r)
    /\ py_index c 5 = Ret v /\ py_float v = Ret (c_volume r).
Proof.
  unfold candle_of. intros H.
  apply obind_ret_inv in H as (o & Ho & H). apply obind_ret_inv in H as (qo & Hqo & H).
  apply obind_ret_inv in H as (cl & Hcl & H). apply obind_ret_inv in H as (qc & Hqc & H).
  apply obind_ret_inv in H as (v & Hv & H). apply obind_ret_inv in H as (qv & Hqv & H).
  injection H as <-. exists o, cl, v. cbn. auto 10.
Qed.

Lemma candle_of_not_error c r : candle_of c = Ret r -> py_eq_str c "error" = false.
Proof.
  destruct c; try reflexivity. cbn [py_eq_str].
  destruct (String.eqb_spec s "error") as [-> |]; [| reflexivity].
  vm_compute. discriminate.
Qed.

Lemma candles_no_error cs rows :
  Forall2 (fun c r => candle_of c = Ret r) cs rows ->
  existsb (fun v => py_eq_str v "error") cs = false.
Proof.
  induction 1 as [| c r cs rows Hc _ IH]; simpl; [reflexivity |].
  now rewrite (candle_of_not_error _ _ Hc), IH.
Qed.

Lemma py_index_last (l : list pyval) d :
  l <> [] -> py_index (PList l) (-1) = Ret (List.last l d).
Proof.
  intros Hne. unfold py_index.
  assert (Hlen : (0 < List.length l)%nat) by (destruct l; [congruence | simpl; lia]).
  destruct (Z.ltb_spec (-1) 0); [| lia].
  replace ((0 <=? -1 + Z.of_nat (List.length l)) && (-1 + Z.of_nat (List.length l) <? Z.of_nat (List.length l)))
    with true by (symmetry; apply andb_true_iff; split; [apply Z.leb_le | apply Z.ltb_lt]; lia).
  replace (Z.to_nat (-1 + Z.of_nat (List.length l))) with (List.length l - 1)%nat by lia.
  clear H Hlen. induction l as [| x l IH]; [congruence |].
  destruct l as [| y l]; [reflexivity |].
  specialize (IH ltac:(congruence)). cbn [List.length List.last] in *.
  replace (S (S (List.length l)) - 1)%nat with (S (S (List.length l) - 1)) by lia.
  exact IH.
Qed.

Lemma Forall2_last {A B} (R : A -> B -> Prop) l l' d d' :
  Forall2 R l l' -> l <> [] -> R (List.last l d) (List.last l' d').
Proof.
  induction 1 as [| x y l l' Hxy Hl IH]; [congruence | intros _].
  destruct Hl as [| x' y' l l' Hxy' Hl]; [exact Hxy |].
  apply IH. congruence.
Qed.

Lemma py_sum_fold_right l : (py_sum l == fold_right Qplus 0 l)%Q.
Proof.
  unfold py_sum.
  assert (H : forall acc, (fold_left Qplus l acc == acc + fold_right Qplus 0 l)%Q).
  { induction l as [| x l IH]; intros acc; simpl.
    - now rewrite Qplus_0_r.
    - rewrite IH. now rewrite Qplus_assoc. }
  rewrite H. apply Qplus_0_l.
Qed.

Lemma fold_right_nonneg l :
  Forall (fun q => (0 <= q)%Q) l -> (0 <= fold_right Qplus 0 l)%Q.
Proof.
  induction 1 as [| x l Hx _ IH]; simpl.
  - apply Qle_refl.
  - apply Qle_trans with (0 + 0)%Q; [now vm_compute | now apply Qplus_le_compat].
Qed.

Lemma last_map {A B} (f : A -> B) l d d' :
  l <> [] -> List.last (map f l) d = f (List.last l d').
Proof.
  induction l as [| x l IH]; [congruence | intros _].
  destruct l as [| y l]; [reflexivity |].
  change (List.last (map f (x :: y :: l)) d) with (List.last (map f (y :: l)) d).
  change (List.last (x :: y :: l) d') with (List.last (y :: l) d').
  apply IH. congruence.
Qed.

Lemma volumes_of_rows cs rows :
  Forall2 (fun c r => candle_of c = Ret r) cs rows ->
  map_outcome (fun c => v <- py_index c 5 ;; py_float v) cs = Ret (map c_volume rows).
Proof.
  intros H. apply Forall2_map_outcome.
  induction H as [| c r cs rows Hc _ IH]; simpl; constructor; [| exact IH].
  apply candle_of_inv in Hc as (_ & _ & v & _ & _ & _ & _ & -> & Hv). exact Hv.
Qed.

Lemma Qeq_bool_false_neq q : Qeq_bool q 0 = false -> ~ (q == 0)%Q.
Proof. intros H Hq. apply Qeq_bool_iff in Hq. congruence. Qed.

Lemma binance_signal_formula cs rows first :
  Forall2 (fun c r => candle_of c = Ret r) cs rows ->
  List.head rows = Some first ->
  ~ (c_open first == 0)%Q ->
  Forall (fun r => (0 <= c_volume r)%Q) rows ->
  exists s,
    binance_signal cs = Ret s
    /\ (momentum_pct s
        == (c_close (List.last rows first) - c_open first) / c_open first * 100)%Q
    /\ (volume_ratio s
        == if Qeq_bool (mean (map c_volume rows)) 0 then 1
           else c_volume (List.last rows first) / mean (map c_volume rows))%Q.
Proof.
  intros Hrows Hhead Hopen Hvol.
  destruct Hrows as [| c0 r0 cs rows Hc0 Hrest]; [discriminate |].
  injection Hhead as ->.
  assert (Hall : Forall2 (fun c r => candle_of c = Ret r) (c0 :: cs) (first :: rows))
    by now constructor.
  assert (Hlast : candle_of (List.last (c0 :: cs) c0) = Ret (List.last (first :: rows) first))
    by (apply (Forall2_last _ _ _ c0 first Hall); congruence).
  set (last_ := List.last (first :: rows) first) in *.
  apply candle_of_inv in Hc0 as (o & _ & _ & Ho & Hfo & _).
  apply candle_of_inv in Hlast as (_ & cl & _ & _ & _ & Hcl & Hfcl & _).
  unfold binance_signal.
  change (py_index (PList (c0 :: cs)) 0) with (Ret (A := pyval) c0). cbn [obind].
  rewrite Ho. cbn [obind]. rewrite Hfo. cbn [obind].
  rewrite (py_index_last (c0 :: cs) c0) by congruence. cbn [obind].
  rewrite Hcl. cbn [obind]. rewrite Hfcl. cbn [obind].
  unfold py_div at 1.
  destruct (Qeq_bool (c_open first) 0) eqn:Hz;
    [apply Qeq_bool_iff in Hz; contradiction |]. cbn [obind].
  rewrite (volumes_of_rows _ _ Hall). cbn [obind].
  set (volumes := map c_volume (first :: rows)).
  assert (Hlen : (0 < Z.of_nat (List.length volumes))%Z) by (unfold volumes; simpl; lia).
  assert (Hn : ~ (inject_Z (Z.of_nat (List.length volumes)) == 0)%Q).
  { unfold Qeq; simpl. lia. }
  unfold py_div at 1.
  destruct (Qeq_bool (inject_Z (Z.of_nat (List.length volumes))) 0) eqn:Hz';
    [apply Qeq_bool_iff in Hz'; contradiction |]. cbn [obind].
  set (avg_vol := (py_sum volumes / inject_Z (Z.of_nat (List.length volumes)))%Q).
  assert (Hmean : (avg_vol == mean volumes)%Q).
  { unfold avg_vol, mean. now rewrite py_sum_fold_right. }
  assert (Hnonneg : (0 <= avg_vol)%Q).
  { rewrite Hmean. unfold mean. apply Qle_shift_div_l.
    - unfold Qlt; simpl. lia.
    - rewrite Qmult_0_l. apply fold_right_nonneg. unfold volumes.
      apply Forall_map. exact Hvol. }
  assert (Hlastvol : List.last volumes 0%Q = c_volume last_).
  { unfold volumes, last_. apply last_map. congruence. }
  unfold Qltb. destruct (Qcompare_spec 0 avg_vol) as [Heq | Hlt | Hgt].
  - (* the mean is zero *)
    cbn [obind]. eexists. split; [reflexivity |]. cbn [momentum_pct volume_ratio].
    split; [reflexivity |].
    assert (Hz0 : Qeq_bool (mean volumes) 0 = true)
      by (apply Qeq_bool_iff; rewrite <- Hmean; now symmetry).
    rewrite Hz0. reflexivity.
  - (* the mean is positive *)
    unfold py_div.
    destruct (Qeq_bool avg_vol 0) eqn:Hz0.
    { apply Qeq_bool_iff in Hz0. rewrite Hz0 in Hlt. now apply Qlt_irrefl in Hlt. }
    cbn [obind]. eexists. split; [reflexivity |]. cbn [momentum_pct volume_ratio].
    split; [reflexivity |].
    assert (Hz1 : Qeq_bool (mean volumes) 0 = false).
    { destruct (Qeq_bool (mean volumes) 0) eqn:E; [| reflexivity].
      apply Qeq_bool_iff in E. rewrite <- Hmean in E.
      apply Qeq_bool_false_neq in Hz0. contradiction. }
    rewrite Hz1, Hlastvol. now rewrite Hmean.
  - (* a negative mean is excluded by the volumes *)
    exfalso. apply (Qlt_irrefl 0). eapply Qle_lt_trans; eauto.
Qed.

(** C5. When the exchange answers with a list of candles: fewer than
    two give no signal. Two or more whose open, close and volume fields
    read as numbers, with a first open price other than zero and no
    negative volume, give a signal whose momentum is (last close - first
    open) / first open * 100 and whose volume ratio is the last volume
    over the mean volume of the window, or 1 when that mean is zero. *)
Theorem binance_momentum_formula asset lookback w cs w1 :
  api_request (BinanceKlines (default "BTCUSDT" (ASSET_SYMBOLS !! asset)) lookback) w
  = (Ret (PList cs), w1) ->
  ((List.length cs < 2)%nat -> get_binance_momentum asset lookback w = (Ret None, w1))
  /\ (forall rows first,
        (2 <= List.length cs)%nat ->
        map_outcome candle_of cs = Ret rows ->
        List.head rows = Some first ->
        ~ (c_open first == 0)%Q ->
        Forall (fun r => (0 <= c_volume r)%Q) rows ->
        exists s,
          get_binance_momentum asset lookback w = (Ret (Some s), w1)
          /\ (momentum_pct s
              == (c_close (List.last rows first) - c_open first) / c_open first * 100)%Q
          /\ (volume_ratio s
              == if Qeq_bool (mean (map c_volume rows)) 0 then 1
                 else c_volume (List.last rows first) / mean (map c_volume rows))%Q).
Proof.
  intros Hreq.
  assert (Hrun : get_binance_momentum asset lookback w
                 = (if existsb (fun v => py_eq_str v "error") cs || (List.length cs <? 2)%nat
                    then ret None
                    else s <~ lift (binance_signal cs) ;; ret (Some s)) w1).
  { unfold get_binance_momentum, bind at 1. rewrite Hreq. reflexivity. }
  rewrite Hrun. clear Hrun. split.
  - intros Hshort. apply Nat.ltb_lt in Hshort. rewrite Hshort, orb_true_r. reflexivity.
  - intros rows first Hlong Hrows Hhead Hopen Hvol.
    apply map_outcome_Forall2 in Hrows.
    rewrite (candles_no_error _ _ Hrows).
    apply Nat.ltb_ge in Hlong. rewrite Hlong. cbn [orb].
    destruct (binance_signal_formula cs rows first Hrows Hhead Hopen Hvol)
      as (s & Hs & Hm & Hv).
    exists s. split; [| split; assumption].
    unfold bind, lift, ret. now rewrite Hs.
Qed.

Lemma binance_momentum_formula_witness :
  exists s,
    get_binance_momentum "BTC" 3 candle_world
    = (Ret (Some s), snd (api_request (BinanceKlines "BTCUSDT" 3) candle_world))
    /\ (momentum_pct s
        == (c_close (List.last candle_rows (Candle 100 (201 # 2) 10)) - 100) / 100 * 100)%Q
    /\ (volume_ratio s
        == if Qeq_bool (mean (map c_volume candle_rows)) 0 then 1
           else c_volume (List.last candle_rows (Candle 100 (201 # 2) 10))
                / mean (map c_volume candle_rows))%Q.
Proof.
  apply (proj2 (binance_momentum_formula "BTC" 3 candle_world three_candles
                  (snd (api_request (BinanceKlines "BTCUSDT" 3) candle_world))
                  ltac:(vm_compute; reflexivity))
               candle_rows (Candle 100 (201 # 2) 10)).
  - simpl. lia.
  - vm_compute. reflexivity.
  - reflexivity.
  - vm_compute. discriminate.
  - repeat constructor; vm_compute; discriminate.
Defined.

Example candle_world_signal :
  match fst (get_binance_momentum "BTC" 3 candle_world) with
  | Ret (Some s) =>
      (momentum_pct s == 2)%Q /\ (volume_ratio s == 3 # 2)%Q /\ signal_direction s = Up
  | _ => False
  end.
Proof. vm_compute. repeat split. Qed.

(* ================================================================= *)
(** ** Market discovery: which records are included *)

Lemma datetime_new_raises y mo d h mi e :
  Datetime.datetime_new y mo d h mi = Raise e -> e = ValueError.
Proof. unfold Datetime.datetime_new. destruct (_ && _); congruence. Qed.

Lemma strptime_raises s e : Datetime.strptime s = Raise e -> e = ValueError.
Proof.
  unfold Datetime.strptime.
  destruct (Re.match_ _ _) as [[[| c rest] caps] |]; try congruence.
  apply datetime_new_raises.
Qed.

Lemma parse_groups_raises date_str time_str year e :
  parse_groups date_str time_str year = Raise e -> e = ValueError \/ e = RecursionError.
Proof.
  unfold parse_groups.
  destruct (Datetime.strptime _) as [n | e'] eqn:Hs; cbn [obind].
  - destruct (Datetime.localize 2 (Datetime.wall_seconds n)); [discriminate | intros [= <-]; auto].
  - intros [= <-]. left. eapply strptime_raises; eauto.
Qed.

(** [parse_et_to_utc] on text: it returns what [parse_deadline] says for
    the year of the clock, never raises, and at most prints. *)
Lemma parse_et_to_utc_text q w :
  exists w',
    parse_et_to_utc (PStr q) w = (Ret (parse_deadline (utc_year (now w)) q), w')
    /\ print_frame w w'.
Proof.
  unfold parse_et_to_utc, parse_deadline.
  destruct (Re.search pattern (list_ascii_of_string q)) as [caps |].
  - unfold try_except, bind, datetime_now, lift, print, ret.
    destruct (parse_groups _ _ _) as [t | e] eqn:Hp.
    + eexists; split; [reflexivity | apply print_frame_refl].
    + apply parse_groups_raises in Hp as [-> | ->];
        (eexists; split; [reflexivity | now repeat split]).
  - eexists; split; [reflexivity | apply print_frame_refl].
Qed.

Lemma consider_spec patterns window d markets w r w' :
  consider patterns window (PDict d) markets w = (Ret r, w') ->
  now w' = now w
  /\ if included (utc_year (now w)) patterns window (d !! "question") (d !! "slug")
     then exists entry,
         r = (markets ++ [entry])%list
         /\ question entry = dict_get d "question" PNone
         /\ slug entry = dict_get d "slug" (PStr EmptyString)
         /\ condition_id entry = dict_get d "conditionId" PNone
     else r = markets.
Proof.
  intros Hrun. split.
  { apply consider_frame in Hrun. apply Hrun. }
  revert Hrun.
  unfold consider, included, two_conditions, question_matches, slug_has_window,
    deadline_parses, matches.
  cbn [py_get obind]. unfold dict_get.
  unfold bind at 1, lift at 1.
  destruct (py_lower (py_or (default PNone (d !! "question")) (PStr EmptyString)))
    as [q |] eqn:Hlow; cbn [obind]; [| discriminate].
  destruct (existsb (fun p => str_in p q) patterns); cbn [andb];
    [| now intros [= <- <-]].
  destruct (py_in ("-" +:+ window +:+ "-") (default (PStr EmptyString) (d !! "slug")))
    as [[|] |]; cbn [andb]; [| now intros [= <- <-] | discriminate].
  unfold bind at 1, lift at 1. unfold bind at 1.
  destruct (default (PStr EmptyString) (d !! "question")) as [| | | | qs | |] eqn:Hq;
    try discriminate.
  destruct (parse_et_to_utc_text qs w) as (w1 & -> & _).
  destruct (parse_deadline (utc_year (now w)) qs) as [t |]; [| now intros [= <- <-]].
  unfold bind, lift, ret.
  destruct (Json.loads (default (PStr "[0.5, 0.5]") (d !! "outcomePrices"))) as [prices |];
    cbn [obind]; [| discriminate].
  destruct (py_int (py_or (default PNone (d !! "feeRateBps")) (PInt 0))) as [fee |];
    cbn [obind]; [| discriminate].
  intros [= <- <-]. eexists. split; [reflexivity |]. cbn. auto.
Qed.

Lemma dicts_no_error ds :
  existsb (fun v => py_eq_str v "error") (map PDict ds) = false.
Proof. induction ds as [| d ds IH]; [reflexivity | exact IH]. Qed.

Lemma discover_loop_spec patterns window ds markets w r w' :
  discover_loop patterns window (map PDict ds) markets w = (Ret r, w') ->
  map market_id r
  = (map market_id markets
     ++ map record_id
          (List.filter (fun d => included (utc_year (now w)) patterns window
                                          (d !! "question") (d !! "slug")) ds))%list.
Proof.
  revert markets w. induction ds as [| d ds IH]; intros markets w; cbn [map discover_loop].
  - intros [= <- <-]. cbn. now rewrite app_nil_r.
  - unfold bind.
    destruct (consider patterns window (PDict d) markets w) as [[ms |] w1] eqn:Hc;
      [| discriminate].
    apply consider_spec in Hc as [Hnow Hc]. intros Hloop.
    apply IH in Hloop. rewrite Hnow in Hloop. rewrite Hloop. cbn [List.filter].
    destruct (included (utc_year (now w)) patterns window (d !! "question") (d !! "slug")).
    + destruct Hc as (entry & -> & Hq & Hs & Hi).
      rewrite map_app. cbn [map]. rewrite <- app_assoc. cbn [app].
      unfold market_id at 2, record_id at 2. now rewrite Hq, Hs, Hi.
    + now subst ms.
Qed.

(** C2, as amended. When the listing is a list of JSON objects and
    discovery returns normally, its output is, in order, the records for
    which three conditions hold: the lower-cased question contains one
    of the asset's patterns, the slug contains the window token between
    hyphens, and the deadline parses from the question. [included] reads
    nothing of a record but its question and its slug, so no other field
    changes whether a record is included. *)
Theorem discover_markets_inclusion asset window w ds w0 markets w' :
  api_request GammaMarkets w = (Ret (PList (map PDict ds)), w0) ->
  discover_markets asset window w = (Ret markets, w') ->
  map market_id markets
  = map record_id
      (List.filter (fun d => included (utc_year (now w0)) (patterns_of asset) window
                                      (d !! "question") (d !! "slug")) ds).
Proof.
  intros Hreq. unfold discover_markets, bind at 1. rewrite Hreq.
  unfold bind, lift. cbn [py_in]. rewrite dicts_no_error.
  intros Hloop. now apply discover_loop_spec in Hloop.
Qed.

Lemma discover_markets_inclusion_witness :
  map market_id (discovered default_config busy_world)
  = map record_id
      (List.filter (fun d => included (utc_year (now (snd (api_request GammaMarkets busy_world))))
                                      (patterns_of "BTC") "5m"
                                      (d !! "question") (d !! "slug"))
                   (map dict_of three_markets)).
Proof.
  apply (discover_markets_inclusion "BTC" "5m" busy_world (map dict_of three_markets)
           (snd (api_request GammaMarkets busy_world))
           (discovered default_config busy_world)
           (snd (discover_markets "BTC" "5m" busy_world)));
    vm_compute; reflexivity.
Defined.

(** C2, as stated, fails: two records that both satisfy the two
    conditions of the specification, of which discovery keeps the one
    with a deadline in its question and drops the other. *)
Lemma two_conditions_do_not_decide :
  two_conditions (patterns_of "BTC") "5m"
    (field (btc_record "3:05PM" []) "question") (field (btc_record "3:05PM" []) "slug") = true
  /\ two_conditions (patterns_of "BTC") "5m"
       (field undated_record "question") (field undated_record "slug") = true
  /\ List.length (discovered default_config
                    (quiet noon_5_march_2026 (listing [btc_record "3:05PM" []]))) = 1%nat
  /\ fst (discover_markets "BTC" "5m" (quiet noon_5_march_2026 (listing [undated_record])))
     = Ret [].
Proof. repeat split; vm_compute; reflexivity. Qed.

(* ================================================================= *)
(** ** The US/Eastern zone: from the transition table to the rule *)

Module EasternFacts.
Import Datetime Eastern.



























Lemma datetime_new_valid y mo d h mi n :
  datetime_new y mo d h mi = Ret n ->
  n = Naive y mo d h mi
  /\ 1 <= mo <= 12 /\ 1 <= d <= days_in_month y mo /\ 0 <= h <= 23 /\ 0 <= mi <= 59.
Proof.
  unfold datetime_new.
  destruct (_ && _) eqn:Hc; [| discriminate]. intros [= <-].
  repeat (apply andb_true_iff in Hc as [Hc ?]). split; [reflexivity | lia].
Qed.


End EasternFacts.

(* ================================================================= *)
(** ** Regular expressions: the matcher is sound, and what the two
       expressions of the deadline parser capture *)

Module ReFacts.
Import Re ReSpec.

Lemma star_loop_sound (r : regex) (greedy : bool) (Hr : sound_for r) (A : Type)
    (k : list ascii -> captures -> option A) fuel :
  forall s c x,
    star_loop greedy (run r) k fuel s c = Some x ->
    exists u s' c', s = (u ++ s')%list /\ Matches (Star greedy r) u c c' /\ k s' c' = Some x.
Proof.
  induction fuel as [| fuel IH]; intros s c x H.
  - exists [], s, c. split; [reflexivity |]. split; [constructor |].
    cbn [star_loop] in H. destruct greedy; [exact H |].
    destruct (k s c); [exact H | discriminate].
  - assert (Hagain :
      forall y,
        run r s c (fun s' caps' =>
          if (List.length s' <? List.length s)%nat
          then star_loop greedy (run r) k fuel s' caps' else None) = Some y ->
        exists u s' c', s = (u ++ s')%list /\ Matches (Star greedy r) u c c'
                        /\ k s' c' = Some y).
    { intros y Hy. apply Hr in Hy as (u & s1 & c1 & -> & Hu & Hy).
      destruct (_ <? _)%nat; [| discriminate].
      apply IH in Hy as (v & s2 & c2 & -> & Hv & Hy).
      exists (u ++ v)%list, s2, c2. split; [now rewrite app_assoc |].
      split; [econstructor; eauto | exact Hy]. }
    cbn [star_loop] in H. destruct greedy.
    + destruct (run r s c _) as [y |] eqn:He.
      * injection H as ->. now apply Hagain.
      * exists [], s, c. split; [reflexivity |]. split; [constructor | exact H].
    + destruct (k s c) as [y |] eqn:Hk.
      * injection H as ->. exists [], s, c. split; [reflexivity |].
        split; [constructor | exact Hk].
      * now apply Hagain.
Qed.

Lemma run_sound r : sound_for r.
Proof.
  induction r as [| p | r1 IH1 r2 IH2 | r1 IH1 r2 IH2 | g r IH | n r IH];
    intros A s c k x H; cbn [run] in H.
  - exists [], s, c. repeat split; [constructor | exact H].
  - destruct s as [| a s]; [discriminate |].
    destruct (p a) eqn:Hp; [| discriminate].
    exists [a], s, c. repeat split; [now constructor | exact H].
  - apply IH1 in H as (u & s1 & c1 & -> & Hu & H).
    apply IH2 in H as (v & s2 & c2 & -> & Hv & H).
    exists (u ++ v)%list, s2, c2. split; [now rewrite app_assoc |].
    split; [econstructor; eauto | exact H].
  - destruct (run r1 s c k) as [y |] eqn:H1.
    + injection H as ->. apply IH1 in H1 as (u & s' & c' & -> & Hu & H1).
      exists u, s', c'. repeat split; [now apply MAltL | exact H1].
    + apply IH2 in H as (u & s' & c' & -> & Hu & H).
      exists u, s', c'. repeat split; [now apply MAltR | exact H].
  - eapply star_loop_sound; eauto.
  - apply IH in H as (u & s' & c' & -> & Hu & H).
    exists u, s', ((n, u) :: c'). repeat split; [now constructor |].
    rewrite length_app in H.
    replace (List.length u + List.length s' - List.length s')%nat with (List.length u) in H by lia.
    now rewrite firstn_app, firstn_all, Nat.sub_diag, app_nil_r in H.
Qed.

Lemma match_sound r s rest caps :
  match_ r s = Some (rest, caps) ->
  exists u, s = (u ++ rest)%list /\ Matches r u [] caps.
Proof.
  unfold match_. intros H. apply run_sound in H as (u & s' & c' & -> & Hu & [= <- <-]).
  eauto.
Qed.

Lemma search_sound r s caps :
  search r s = Some caps ->
  exists before u rest, s = (before ++ u ++ rest)%list /\ Matches r u [] caps.
Proof.
  induction s as [| a s IH]; cbn [search].
  - destruct (match_ r []) as [[rest c] |] eqn:Hm; [| discriminate].
    intros [= <-]. apply match_sound in Hm as (u & -> & Hu). now exists [], u, rest.
  - destruct (match_ r (a :: s)) as [[rest c] |] eqn:Hm.
    + intros [= <-]. apply match_sound in Hm as (u & -> & Hu). now exists [], u, rest.
    + intros H. apply IH in H as (before & u & rest & -> & Hu).
      now exists (a :: before), u, rest.
Qed.

Lemma matches_within P r u c c' :
  Within P r -> Matches r u c c' -> Forall (fun a => P a = true) u.
Proof.
  intros Hw Hm. induction Hm; inversion Hw; subst; auto.
  - apply Forall_app; auto.
  - apply Forall_app; auto.
Qed.

(** A match only adds captures, and only of its own groups. *)
Lemma matches_captures r u c c' :
  Matches r u c c' ->
  exists new, c' = (new ++ c)%list /\ Forall (fun e => In (fst e) (group_ids r)) new.
Proof.
  induction 1 as [c | p a c Hp | r1 r2 u v c c1 c2 _ IH1 _ IH2 | r1 r2 u c c' _ IH
                  | r1 r2 u c c' _ IH | g r c | g r u v c c1 c2 _ IH1 _ IH2
                  | n r u c c' _ IH]; cbn [group_ids].
  - now exists [].
  - now exists [].
  - destruct IH1 as (n1 & -> & H1), IH2 as (n2 & -> & H2).
    exists (n2 ++ n1)%list. split; [now rewrite app_assoc |].
    apply Forall_app; split; eapply List.Forall_impl; eauto; cbn; intros; apply in_or_app; auto.
  - destruct IH as (n1 & -> & H1). exists n1. split; [reflexivity |].
    eapply List.Forall_impl; eauto; cbn; intros; apply in_or_app; auto.
  - destruct IH as (n1 & -> & H1). exists n1. split; [reflexivity |].
    eapply List.Forall_impl; eauto; cbn; intros; apply in_or_app; auto.
  - now exists [].
  - destruct IH1 as (n1 & -> & H1), IH2 as (n2 & -> & H2).
    exists (n2 ++ n1)%list. split; [now rewrite app_assoc |].
    apply Forall_app; split; assumption.
  - destruct IH as (n1 & -> & H1). exists ((n, u) :: n1). split; [reflexivity |].
    constructor; [now left |]. eapply List.Forall_impl; eauto; cbn; intros; now right.
Qed.

Lemma group_skip n new c :
  Forall (fun e : nat * list ascii => fst e <> n) new ->
  group n (new ++ c)%list = group n c.
Proof.
  induction 1 as [| [i s] new Hi _ IH]; [reflexivity |]. cbn [app group].
  cbn in Hi. destruct (Nat.eqb_spec i n); [contradiction | exact IH].
Qed.

(** The group [n] of a sequence whose tail has no group [n] is the one
    its head captured. *)
Lemma group_of_head n r rest u v c c1 c2 :
  Matches (Group n r) u c c1 -> Matches rest v c1 c2 ->
  ~ In n (group_ids rest) ->
  group n c2 = u.
Proof.
  intros H1 H2 Hn. inversion H1; subst.
  apply matches_captures in H2 as (new & -> & Hnew).
  rewrite group_skip.
  - cbn [group]. now rewrite Nat.eqb_refl.
  - eapply List.Forall_impl; [| exact Hnew]. cbn. intros e He Heq. apply Hn. now rewrite <- Heq.
Qed.

(** Two runs of characters of [P], each followed by a character outside
    [P], that start the same text are the same run. *)
Lemma run_unique (P : ascii -> bool) x y a b r1 r2 :
  Forall (fun c => P c = true) x -> Forall (fun c => P c = true) y ->
  P a = false -> P b = false ->
  (x ++ a :: r1 = y ++ b :: r2)%list -> x = y /\ a = b /\ r1 = r2.
Proof.
  intros Hx. revert y. induction Hx as [| c x Hc _ IH]; intros y Hy Ha Hb Heq.
  - destruct Hy as [| d y Hd _]; cbn in Heq.
    + now injection Heq as -> ->.
    + injection Heq as -> _. congruence.
  - destruct Hy as [| d y Hd Hy]; cbn in Heq.
    + injection Heq as -> _. congruence.
    + injection Heq as -> Heq. destruct (IH y Hy Ha Hb Heq) as (-> & -> & ->). auto.
Qed.

Lemma matches_chr p u c c' : Matches (Chr p) u c c' -> exists a, u = [a] /\ p a = true /\ c' = c.
Proof. inversion 1; subst; eauto. Qed.

Lemma matches_seq r1 r2 u c c2 :
  Matches (Seq r1 r2) u c c2 ->
  exists u1 u2 c1, u = (u1 ++ u2)%list /\ Matches r1 u1 c c1 /\ Matches r2 u2 c1 c2.
Proof. inversion 1; subst; eauto 7. Qed.

Lemma matches_alt r1 r2 u c c' :
  Matches (Alt r1 r2) u c c' -> Matches r1 u c c' \/ Matches r2 u c c'.
Proof. inversion 1; subst; auto. Qed.

Lemma matches_group n r u c c' :
  Matches (Group n r) u c c' -> exists c1, Matches r u c c1 /\ c' = (n, u) :: c1.
Proof. inversion 1; subst; eauto. Qed.

(** One or more characters of a class. *)
Lemma matches_plus_chr p u c c' :
  Matches (plus (Chr p)) u c c' ->
  exists a v, u = a :: v /\ p a = true /\ Forall (fun x => p x = true) v /\ c' = c.
Proof.
  unfold plus. intros H. apply matches_seq in H as (u1 & u2 & c1 & -> & H1 & H2).
  apply matches_chr in H1 as (a & -> & Ha & ->).
  exists a, u2. repeat split; auto.
  - eapply (matches_within p); [| exact H2]. repeat constructor. auto.
  - apply matches_captures in H2 as (new & -> & Hnew). cbn in Hnew.
    destruct Hnew as [| e new He _]; [reflexivity | destruct He].
Qed.

Lemma space_not_word a : is_space a = true -> is_word a = false.
Proof. destruct a as [[] [] [] [] [] [] [] []]; vm_compute; congruence. Qed.



Lemma ilit_letter_word c a :
  is_lower c = true -> Ascii.eqb (lower_char a) c = true -> is_word a = true.
Proof.
  intros Hc Ha. apply Ascii.eqb_eq in Ha. subst c. revert Hc.
  destruct a as [[] [] [] [] [] [] [] []]; vm_compute; congruence.
Qed.




Ltac within_letters :=
  repeat first
    [ apply WSeq | apply WAlt
    | apply WChr; intros ? ?; eapply ilit_letter_word; [| eassumption]; reflexivity ].

Lemma re_B_letters : Within is_word Datetime.re_B.
Proof. unfold Datetime.re_B. cbn. within_letters. Qed.



Lemma pattern_eq : pattern = Seq (Group 1 date_part) after_date.
Proof. reflexivity. Qed.

(** The first group of the pattern: a word, a blank, digits. *)
Lemma pattern_group1 u caps :
  Matches pattern u [] caps ->
  exists W D,
    group 1 caps = (W ++ " "%char :: D)%list
    /\ Forall (fun a => is_word a = true) W
    /\ D <> [] /\ Forall (fun a => is_digit a = true) D.
Proof.
  rewrite pattern_eq. intros H.
  apply matches_seq in H as (u1 & u2 & c1 & -> & H1 & H2).
  rewrite (group_of_head 1 _ _ _ _ _ _ _ H1 H2)
    by (vm_compute; intuition discriminate).
  apply matches_group in H1 as (c0 & Hd & _). unfold date_part in Hd. cbn [seq] in Hd.
  apply matches_seq in Hd as (w & v & cw & -> & Hw & Hv).
  apply matches_seq in Hv as (b & d & cb & -> & Hb & Hdig).
  apply matches_plus_chr in Hw as (a & w' & -> & Ha & Hw' & _).
  apply matches_chr in Hb as (sp & -> & Hsp & _). apply Ascii.eqb_eq in Hsp. subst sp.
  apply matches_plus_chr in Hdig as (dg & d' & -> & Hdg & Hd' & _).
  exists (a :: w'), (dg :: d'). repeat split; try constructor; auto.
Qed.

Lemma format_regex_eq :
  Datetime.format_regex
  = Seq (Group 1 Datetime.re_B)
      (Seq (plus space)
         (Seq (Group 2 Datetime.re_d)
            (Seq (plus space) (Seq (Group 3 Datetime.re_Y) format_tail)))).
Proof. reflexivity. Qed.


Lemma list_ascii_of_append a b :
  list_ascii_of_string (a +:+ b) = (list_ascii_of_string a ++ list_ascii_of_string b)%list.
Proof. induction a as [| c a IH]; [reflexivity |]. simpl. now f_equal. Qed.

Lemma dt_str_chars caps y :
  list_ascii_of_string (dt_str_of caps y)
  = (group 1 caps ++ " "%char :: list_ascii_of_string (str_of_Z y)
       ++ " "%char :: group 2 caps)%list.
Proof.
  unfold dt_str_of. rewrite !list_ascii_of_append, !list_ascii_of_string_of_list_ascii.
  reflexivity.
Qed.



Lemma strptime_year s n :
  Datetime.strptime s = Ret n ->
  exists caps,
    Matches Datetime.format_regex (list_ascii_of_string s) [] caps
    /\ Datetime.year n = Datetime.int_of_group (group 3 caps).
Proof.
  unfold Datetime.strptime.
  destruct (match_ _ _) as [[[| c rest] caps] |] eqn:Hm; try discriminate.
  intros H. apply EasternFacts.datetime_new_valid in H as (-> & _).
  apply match_sound in Hm as (u & -> & Hu). rewrite app_nil_r. eauto.
Qed.


End ReFacts.

(* ================================================================= *)
(** ** Regular expressions: the matcher finds what matches, and
       [strptime] on the text of a question *)

Module ReComplete.
Import Re ReSpec ReFacts.





End ReComplete.

Module ReadingFacts.
Import Re ReSpec ReFacts ReComplete.















End ReadingFacts.

Module PatternFacts.
Import Re ReSpec ReFacts.



Lemma leading_all p x :
  Forall (fun c => p c = true) x -> leading p x = x.
Proof. induction 1 as [| c x Hc _ IH]; cbn; [reflexivity | now rewrite Hc, IH]. Qed.


End PatternFacts.

Module FormatFacts.
Import Re ReSpec ReFacts ReadingFacts.





End FormatFacts.

Module StrptimeFacts.
Import Re ReSpec ReFacts ReComplete ReadingFacts PatternFacts FormatFacts.





End StrptimeFacts.

(* ================================================================= *)
(** ** The deadline parser *)




(** Either side of the start of daylight time in 2026 (8 March): the same
    wall-clock time is five hours behind UTC the day before and four
    hours behind the day after. *)
Example deadline_before_spring_forward :
  parse_deadline 2026 "Bitcoin Up or Down - March 7, 3:00PM-3:05PM ET"
  = Some ((Datetime.wall_seconds (Datetime.Naive 2026 3 7 15 5) + 5 * 3600) * 1000000).
Proof. vm_compute. reflexivity. Qed.

Example deadline_after_spring_forward :
  parse_deadline 2026 "Bitcoin Up or Down - March 9, 3:00PM-3:05PM ET"
  = Some ((Datetime.wall_seconds (Datetime.Naive 2026 3 9 15 5) + 4 * 3600) * 1000000).
Proof. vm_compute. reflexivity. Qed.

Example deadline_before_fall_back :
  parse_deadline 2026 "Bitcoin Up or Down - October 31, 3:00PM-3:05PM ET"
  = Some ((Datetime.wall_seconds (Datetime.Naive 2026 10 31 15 5) + 4 * 3600) * 1000000).
Proof. vm_compute. reflexivity. Qed.

Example deadline_after_fall_back :
  parse_deadline 2026 "Bitcoin Up or Down - November 1, 3:00PM-3:05PM ET"
  = Some ((Datetime.wall_seconds (Datetime.Naive 2026 11 1 15 5) + 5 * 3600) * 1000000).
Proof. vm_compute. reflexivity. Qed.

(* ================================================================= *)
(** ** The retry loop of [api_request] *)

Lemma api_attempts_step e retries i todo w :
  api_attempts e retries i (S todo) w
  = match attempt w e 0 with
    | Payload v => (Ret v, after_requests e 1 0 w)
    | RequestException msg =>
        if i =? retries - 1 then (Ret (error_dict msg), after_requests e 1 0 w)
        else api_attempts e retries (i + 1) todo (after_requests e 1 (i + 1) w)
    end.
Proof.
  unfold attempt, after_requests. cbn [api_attempts replicate].
  unfold bind at 1, http_request. rewrite Nat.add_0_r, !Z.add_0_r.
  destruct (http w e (List.length (requests w))); [reflexivity |].
  destruct (i =? retries - 1); [reflexivity |].
  unfold bind, sleep. cbn. now rewrite Z.mul_1_l.
Qed.

Lemma after_requests_twice e n m s t w :
  after_requests e m t (after_requests e n s w) = after_requests e (n + m) (s + t) w.
Proof.
  unfold after_requests. cbn. f_equal; [lia |].
  now rewrite <- app_assoc, replicate_add.
Qed.

Lemma attempt_after e n s w j :
  attempt (after_requests e n s w) e j = attempt w e (n + j).
Proof.
  unfold attempt, after_requests. cbn.
  now rewrite length_app, length_replicate, Nat.add_assoc.
Qed.

(** The three attempts of [api_request], unrolled. *)
Lemma api_request_cases e w :
  match attempt w e 0 with
  | Payload v => api_request e w = (Ret v, after_requests e 1 0 w)
  | RequestException _ =>
      match attempt w e 1 with
      | Payload v => api_request e w = (Ret v, after_requests e 2 1 w)
      | RequestException _ =>
          match attempt w e 2 with
          | Payload v => api_request e w = (Ret v, after_requests e 3 3 w)
          | RequestException msg =>
              api_request e w = (Ret (error_dict msg), after_requests e 3 3 w)
          end
      end
  end.
Proof.
  unfold api_request. rewrite api_attempts_step.
  destruct (attempt w e 0); [reflexivity |].
  change (0 =? 3 - 1) with false. cbv iota.
  rewrite api_attempts_step, attempt_after, !after_requests_twice.
  change (1 + 0)%nat with 1%nat. change (1 + 1)%nat with 2%nat.
  change (0 + 1 + 0) with 1.
  destruct (attempt w e 1); [reflexivity |].
  change (0 + 1 =? 3 - 1) with false. cbv iota.
  rewrite api_attempts_step, attempt_after, !after_requests_twice.
  change (2 + 0)%nat with 2%nat. change (1 + 1 + 1)%nat with 3%nat.
  change (0 + 1 + (0 + 1 + 1) + 0) with 3.
  destruct (attempt w e 2); reflexivity.
Qed.

(** X1. When the first [k] attempts of [api_request] fail ([k] below 3)
    and the next one is answered, the call returns that answer after
    exactly [k + 1] requests, having paused one second after the first
    failure and two after the second: [k (k + 1) / 2] seconds in all. *)
Theorem api_request_first_success e w k v :
  (k < 3)%nat ->
  (forall j, (j < k)%nat -> fails (attempt w e j)) ->
  attempt w e k = Payload v ->
  api_request e w
  = (Ret v, after_requests e (S k) (Z.of_nat (k * (k + 1) / 2)) w).
Proof.
  intros Hk Hfail Hok. pose proof (api_request_cases e w) as H.
  destruct k as [| [| [| k]]]; [| | | lia].
  - now rewrite Hok in H.
  - pose proof (Hfail 0%nat ltac:(lia)) as H0.
    destruct (attempt w e 0); [destruct H0 |]. now rewrite Hok in H.
  - pose proof (Hfail 0%nat ltac:(lia)) as H0. pose proof (Hfail 1%nat ltac:(lia)) as H1.
    destruct (attempt w e 0); [destruct H0 |].
    destruct (attempt w e 1); [destruct H1 |]. now rewrite Hok in H.
Qed.

Lemma api_request_first_success_witness :
  api_request GammaMarkets (quiet 0 (flaky (PList [])))
  = (Ret (PList []),
     after_requests GammaMarkets 3 (Z.of_nat (2 * (2 + 1) / 2)) (quiet 0 (flaky (PList [])))).
Proof.
  apply (api_request_first_success GammaMarkets (quiet 0 (flaky (PList []))) 2 (PList [])).
  - lia.
  - intros [| [| j]] Hj; [exact I | exact I | lia].
  - reflexivity.
Defined.

(** X2. When all three attempts fail, [api_request] returns, without
    raising, the object that holds the message of the last failure under
    the key [error], after three requests and three seconds of pauses:
    there is no pause after the last attempt. *)
Theorem api_request_all_fail e w m0 m1 m2 :
  attempt w e 0 = RequestException m0 ->
  attempt w e 1 = RequestException m1 ->
  attempt w e 2 = RequestException m2 ->
  api_request e w = (Ret (error_dict m2), after_requests e 3 3 w).
Proof.
  intros H0 H1 H2. pose proof (api_request_cases e w) as H.
  now rewrite H0, H1, H2 in H.
Qed.

Lemma api_request_all_fail_witness :
  api_request GammaMarkets (quiet 0 refusing)
  = (Ret (error_dict "refused 2"), after_requests GammaMarkets 3 3 (quiet 0 refusing)).
Proof.
  apply (api_request_all_fail GammaMarkets (quiet 0 refusing) "refused 0" "refused 1");
    reflexivity.
Defined.

(** The shape of every call of [api_request]. *)
Lemma api_request_effects e w :
  exists v n secs,
    api_request e w = (Ret v, after_requests e n secs w)
    /\ (1 <= n <= 3)%nat /\ 0 <= secs <= 3.
Proof.
  pose proof (api_request_cases e w) as H.
  destruct (attempt w e 0); [exists v, 1%nat, 0; split; [exact H | lia] |].
  destruct (attempt w e 1); [exists v, 2%nat, 1; split; [exact H | lia] |].
  destruct (attempt w e 2); eexists _, 3%nat, 3; (split; [exact H | lia]).
Qed.

(** X3. Every call of [api_request] returns normally, makes between one
    and three requests, all to its own endpoint, pauses three seconds at
    most and touches nothing else of the world. Its result is the answer
    to the last attempt made, or the error object for the message of the
    third failure; the [return] after the loop is never reached. *)
Theorem api_request_bounded e w :
  exists v n secs,
    api_request e w = (Ret v, after_requests e n secs w)
    /\ (1 <= n <= 3)%nat /\ 0 <= secs <= 3
    /\ (attempt w e (n - 1) = Payload v
        \/ exists msg, n = 3%nat /\ attempt w e 2 = RequestException msg /\ v = error_dict msg).
Proof.
  pose proof (api_request_cases e w) as H.
  destruct (attempt w e 0) eqn:H0.
  { exists v, 1%nat, 0. split; [exact H |]. repeat split; try lia. now left. }
  destruct (attempt w e 1) eqn:H1.
  { exists v, 2%nat, 1. split; [exact H |]. repeat split; try lia. now left. }
  destruct (attempt w e 2) eqn:H2.
  { exists v, 3%nat, 3. split; [exact H |]. repeat split; try lia. now left. }
  exists (error_dict msg1), 3%nat, 3. split; [exact H |]. repeat split; try lia.
  right. now exists msg1.
Qed.

(* ================================================================= *)
(** ** Configuration loading: every content of the file *)

Lemma fill_config_dom schema config acc cfg :
  fill_config schema config acc = Ret cfg ->
  forall k, is_Some (cfg !! k) <-> k ∈ map fst schema \/ is_Some (acc !! k).
Proof.
  revert acc. induction schema as [| [key spec] schema IH]; intros acc Hrun k; simpl in *.
  - injection Hrun as <-. rewrite elem_of_nil. tauto.
  - destruct (py_get config key (fst spec)) as [v |]; [| discriminate]. cbn [obind] in Hrun.
    rewrite (IH _ Hrun k), elem_of_cons, lookup_insert_is_Some.
    destruct (decide (key = k)); subst; intuition congruence.
Qed.

(** What the first half of [load_config] hands to the loop. *)
Lemma load_config_split path w :
  exists config w',
    load_config path w = lift (fill_config CONFIG_SCHEMA config ∅) w'
    /\ print_frame w w'
    /\ ((stdout w' = stdout w
         /\ config = match files w !! path with Some (Document v) => v | _ => PDict ∅ end)
        \/ (stdout w' = (stdout w ++ [MsgConfigWarning])%list /\ config = PDict ∅
            /\ (files w !! path = Some Unreadable \/ files w !! path = Some Malformed))).
Proof.
  unfold load_config, bind at 1.
  set (inner := bind (path_exists path) _).
  assert (Hinner : exists config w',
    inner w = (Ret config, w') /\ print_frame w w'
    /\ ((stdout w' = stdout w
         /\ config = match files w !! path with Some (Document v) => v | _ => PDict ∅ end)
        \/ (stdout w' = (stdout w ++ [MsgConfigWarning])%list /\ config = PDict ∅
            /\ (files w !! path = Some Unreadable \/ files w !! path = Some Malformed)))).
  { unfold inner, bind, path_exists, try_except, json_load_file, print, ret.
    destruct (files w !! path) as [[| | v] |] eqn:Hf; cbn; rewrite ?Hf; cbn;
      eexists _, _; (split; [reflexivity |]); (split; [now repeat split |]); auto. }
  destruct Hinner as (config & w' & -> & Hframe & Hout). now exists config, w'.
Qed.

(** X4. A configuration that [load_config] returns has exactly the nine
    keys of the schema: a key of the user's file that the schema does
    not know is dropped. *)
Theorem load_config_keys path w cfg w' :
  load_config path w = (Ret cfg, w') ->
  dom cfg =@{gset string} list_to_set (map fst CONFIG_SCHEMA).
Proof.
  intros Hrun. apply set_eq. intros k. rewrite elem_of_dom, elem_of_list_to_set.
  destruct (load_config_split path w) as (config & w1 & Heq & _).
  rewrite Heq in Hrun. apply (f_equal fst) in Hrun. cbn [lift fst] in Hrun.
  rewrite (fill_config_dom CONFIG_SCHEMA config ∅ cfg Hrun k), lookup_empty.
  split; [intros [H | [x Hx]]; [exact H | discriminate] | auto].
Qed.

Lemma load_config_keys_witness :
  dom (loaded "config.json" user_world) =@{gset string} list_to_set (map fst CONFIG_SCHEMA).
Proof.
  apply (load_config_keys "config.json" user_world (loaded "config.json" user_world)
           (snd (load_config "config.json" user_world))).
  vm_cast_no_check (eq_refl (load_config "config.json" user_world)).
Defined.

(** X5. For a configuration file that holds a JSON object, [load_config]
    returns without printing or changing anything, with, under each key
    of the schema, the user's value when the file binds the key and the
    schema's default otherwise. *)
Theorem load_config_user_overrides path w d :
  files w !! path = Some (Document (PDict d)) ->
  exists cfg,
    load_config path w = (Ret cfg, w)
    /\ Forall (fun e => cfg !! fst e = Some (resolved d e)) CONFIG_SCHEMA.
Proof.
  intros H. destruct (load_config_user_values path w d H) as (cfg & Hrun & Hget).
  exists cfg. split; [exact Hrun |].
  apply Forall_forall. intros [key [dflt t]] Hin. cbn. now apply (Hget key dflt t).
Qed.

Lemma load_config_user_overrides_witness :
  exists cfg,
    load_config "config.json" user_world = (Ret cfg, user_world)
    /\ Forall (fun e => cfg !! fst e = Some (resolved user_config e)) CONFIG_SCHEMA.
Proof.
  apply (load_config_user_overrides "config.json" user_world user_config).
  vm_compute. reflexivity.
Defined.

Example user_world_config :
  exists cfg,
    fst (load_config "config.json" user_world) = Ret cfg
    /\ cfg !! "asset" = Some (PStr "ETH")
    /\ cfg !! "min_momentum_pct" = Some (PInt 1)
    /\ cfg !! "window" = Some (PStr "5m")
    /\ cfg !! "comment" = None.
Proof.
  exists (loaded "config.json" user_world). split.
  - vm_cast_no_check (eq_refl (fst (load_config "config.json" user_world))).
  - repeat split; vm_compute; reflexivity.
Qed.

(** X6. A configuration file that holds JSON other than an object (a
    list, a number, text, [null]) makes [load_config] raise
    [AttributeError]: the [config.get] of the loop is outside the [try]. *)
Theorem load_config_non_object_raises path w v :
  files w !! path = Some (Document v) ->
  (forall d, v <> PDict d) ->
  load_config path w = (Raise AttributeError, w).
Proof.
  intros Hf Hv.
  unfold load_config, bind, path_exists, try_except, json_load_file, lift.
  rewrite Hf. cbn. rewrite Hf.
  destruct v; try reflexivity. now destruct (Hv d).
Qed.

Lemma load_config_non_object_raises_witness :
  load_config "config.json" (with_file "config.json" (Document (PList [])) (quiet 0 no_answer))
  = (Raise AttributeError,
     with_file "config.json" (Document (PList [])) (quiet 0 no_answer)).
Proof.
  apply (load_config_non_object_raises "config.json"
           (with_file "config.json" (Document (PList [])) (quiet 0 no_answer)) (PList [])).
  - vm_compute. reflexivity.
  - discriminate.
Defined.

Lemma fill_config_raises schema config acc e :
  fill_config schema config acc = Raise e -> e = AttributeError.
Proof.
  revert acc. induction schema as [| [key spec] schema IH]; intros acc; simpl; [discriminate |].
  destruct config; cbn; try (intros [= <-]; reflexivity). apply IH.
Qed.

(** X7. [load_config] only reads: whatever the file holds, it leaves the
    environment, the files, the clock and the request log as they were
    and prints at most the warning; the only exception it can raise is
    [AttributeError]. *)
Theorem load_config_effects path w :
  print_frame w (snd (load_config path w))
  /\ (stdout (snd (load_config path w)) = stdout w
      \/ stdout (snd (load_config path w)) = (stdout w ++ [MsgConfigWarning])%list)
  /\ forall e, fst (load_config path w) = Raise e -> e = AttributeError.
Proof.
  destruct (load_config_split path w) as (config & w1 & -> & Hframe & Hout).
  unfold lift. cbn [fst snd]. split; [exact Hframe |]. split.
  - destruct Hout as [[H _] | [H _]]; auto.
  - intros e. apply fill_config_raises.
Qed.

(* ================================================================= *)
(** ** The deadline parser on any text *)

(** X8. On text, [parse_et_to_utc] never raises. Where the pattern finds
    nothing it returns [None] and prints nothing; where it finds a date
    and a time it returns either an instant, printing nothing, or [None]
    after printing the parse error. *)
Theorem parse_et_to_utc_never_raises q w :
  (Re.search pattern (list_ascii_of_string q) = None
   /\ parse_et_to_utc (PStr q) w = (Ret None, w))
  \/ (Re.search pattern (list_ascii_of_string q) <> None
      /\ ((exists t, parse_et_to_utc (PStr q) w = (Ret (Some t), w))
          \/ parse_et_to_utc (PStr q) w = (Ret None, snd (print MsgTimeParseError w)))).
Proof.
  unfold parse_et_to_utc.
  destruct (Re.search pattern (list_ascii_of_string q)) as [caps |]; [right | now left].
  split; [discriminate |].
  unfold try_except, bind, datetime_now, lift, ret.
  destruct (parse_groups _ _ _) as [t | e] eqn:Hp; [left; eauto |].
  right. apply parse_groups_raises in Hp as [-> | ->]; reflexivity.
Qed.

Module MonthFacts.
Import Re ReSpec ReFacts.

Lemma matches_seq_list rs : forall u c c',
  Matches (seq rs) u c c' ->
  exists us, u = concat us /\ Forall2 (fun r ui => exists c1 c2, Matches r ui c1 c2) rs us.
Proof.
  induction rs as [| r rs IH]; intros u c c' H.
  - inversion H; subst. exists []. split; [reflexivity | constructor].
  - destruct rs as [| r2 rs].
    + exists [u]. split; [cbn; now rewrite app_nil_r |]. repeat constructor. eauto.
    + change (seq (r :: r2 :: rs)) with (Seq r (seq (r2 :: rs))) in H.
      apply matches_seq in H as (u1 & u2 & c1 & -> & H1 & H2).
      apply IH in H2 as (us & -> & Hall).
      exists (u1 :: us). split; [reflexivity |]. constructor; eauto.
Qed.

Lemma matches_alt_list rs : forall u c c',
  Matches (alt rs) u c c' -> exists r, In r rs /\ Matches r u c c'.
Proof.
  induction rs as [| r rs IH]; intros u c c' H.
  - cbn in H. apply matches_chr in H as (a & _ & Ha & _). discriminate.
  - destruct rs as [| r2 rs].
    + exists r. split; [now left | exact H].
    + change (alt (r :: r2 :: rs)) with (Alt r (alt (r2 :: rs))) in H.
      apply matches_alt in H as [H | H].
      * exists r. split; [now left | exact H].
      * apply IH in H as (r' & Hin & H). exists r'. split; [now right | exact H].
Qed.

Lemma lower_string cs :
  lower (string_of_list_ascii cs) = string_of_list_ascii (map lower_char cs).
Proof. induction cs as [| c cs IH]; [reflexivity |]. cbn. now rewrite IH. Qed.

(** Text matched by a case-insensitive literal is the literal, up to
    case. *)
Lemma matches_itext s u c c' :
  Matches (itext s) u c c' -> lower (string_of_list_ascii u) = s.
Proof.
  unfold itext. intros H. apply matches_seq_list in H as (us & -> & Hall).
  rewrite lower_string. rewrite <- (string_of_list_ascii_of_string s). f_equal.
  remember (list_ascii_of_string s) as cs eqn:E. clear E s.
  revert us Hall. induction cs as [| a cs IH]; intros us Hall; inversion Hall; subst.
  - reflexivity.
  - destruct H1 as (c1 & c2 & H1). apply matches_chr in H1 as (x & -> & Hx & _).
    apply Ascii.eqb_eq in Hx. cbn. rewrite Hx. f_equal. now apply IH.
Qed.

Lemma matches_month u c c' :
  Matches Datetime.re_B u c c' -> In (lower (string_of_list_ascii u)) Datetime.f_month.
Proof.
  unfold Datetime.re_B. intros H. apply matches_alt_list in H as (r & Hin & H).
  apply in_map_iff in Hin as (name & <- & Hname).
  apply matches_itext in H. rewrite H.
  revert Hname. unfold Datetime.month_alternatives, Datetime.f_month. cbn. intuition.
Qed.

Lemma leading_word_run W a rest :
  Forall (fun x => is_word x = true) W -> is_word a = false ->
  leading_word (W ++ a :: rest) = W.
Proof.
  induction 1 as [| x W Hx _ IH]; intros Ha; cbn.
  - now rewrite Ha.
  - rewrite Hx. f_equal. now apply IH.
Qed.

(** The month [strptime] reads in the text built by [parse_et_to_utc] is
    the word of the question's date. *)
Lemma strptime_month_word q caps y local :
  search pattern (list_ascii_of_string q) = Some caps ->
  Datetime.strptime (dt_str_of caps y) = Ret local ->
  In (lower (string_of_list_ascii (leading_word (group 1 caps)))) Datetime.f_month.
Proof.
  intros Hsearch Hstrp.
  apply search_sound in Hsearch as (before & u & rest & _ & Hu).
  apply pattern_group1 in Hu as (W & D & Hg1 & HW & HD0 & HD).
  rewrite Hg1, (leading_word_run W _ _ HW) by reflexivity.
  apply strptime_year in Hstrp as (caps' & Hm & _).
  rewrite dt_str_chars, Hg1, <- app_assoc in Hm. cbn [app] in Hm.
  rewrite format_regex_eq in Hm.
  apply matches_seq in Hm as (b & u1 & c1 & Heq & Hb & Hm).
  apply matches_seq in Hm as (w1 & u2 & c2 & -> & Hw1 & _).
  apply matches_group in Hb as (cB & Hb & _).
  assert (Hbw : Forall (fun a => is_word a = true) b)
    by (eapply matches_within; [apply re_B_letters | eassumption]).
  apply matches_plus_chr in Hw1 as (s1 & w1' & -> & Hs1 & _ & _).
  cbn [app] in Heq. symmetry in Heq.
  apply run_unique with (P := is_word) in Heq as (-> & _ & _);
    [| assumption | assumption | now apply space_not_word | reflexivity].
  eapply matches_month; eauto.
Qed.

End MonthFacts.

(** X9. The word in front of the day has to be the full English name of
    a month, in any case: for a question in which the pattern matches
    but that word is no month name (an abbreviation such as [Mar]),
    [parse_et_to_utc] prints the parse error and returns [None]. *)
Theorem parse_et_to_utc_needs_month_name q w caps :
  Re.search pattern (list_ascii_of_string q) = Some caps ->
  ~ In (lower (string_of_list_ascii (leading_word (Re.group 1 caps)))) Datetime.f_month ->
  parse_et_to_utc (PStr q) w = (Ret None, snd (print MsgTimeParseError w)).
Proof.
  intros Hsearch Hmonth. unfold parse_et_to_utc. rewrite Hsearch.
  unfold try_except, bind, datetime_now, lift, ret.
  destruct (parse_groups _ _ _) as [t | e] eqn:Hp.
  - exfalso. apply Hmonth. unfold parse_groups in Hp.
    fold (dt_str_of caps (utc_year (now w))) in Hp.
    destruct (Datetime.strptime _) as [local |] eqn:Hs; [| discriminate].
    eapply MonthFacts.strptime_month_word; eauto.
  - apply parse_groups_raises in Hp as [-> | ->]; reflexivity.
Qed.

Lemma parse_et_to_utc_needs_month_name_witness :
  parse_et_to_utc (PStr q_abbreviated) (quiet noon_5_march_2026 no_answer)
  = (Ret None, snd (print MsgTimeParseError (quiet noon_5_march_2026 no_answer))).
Proof.
  apply (parse_et_to_utc_needs_month_name q_abbreviated (quiet noon_5_march_2026 no_answer)
           (captures_of q_abbreviated)).
  - vm_compute. reflexivity.
  - vm_compute. intuition discriminate.
Defined.

(* ================================================================= *)
(** ** Market discovery: the response, the entries, and when it returns *)

Lemma in_error_existsb l :
  In (PStr "error") l -> existsb (fun v => py_eq_str v "error") l = true.
Proof.
  intros H. apply existsb_exists. exists (PStr "error"). split; [exact H | reflexivity].
Qed.

(** X10. When [api_request] hands discovery an object (such as the error
    object of a failed call), text, or a list that has the string
    [error] among its elements, [discover_markets] returns the empty
    list and does nothing more. *)
Theorem discover_markets_unusable_listing asset window w v w1 :
  api_request GammaMarkets w = (Ret v, w1) ->
  unusable v ->
  discover_markets asset window w = (Ret [], w1).
Proof.
  intros Hreq Hv. unfold discover_markets, bind at 1. rewrite Hreq.
  unfold bind, lift, ret. destruct v; try destruct Hv; try reflexivity.
  cbn [py_in]. now rewrite (in_error_existsb _ Hv).
Qed.

Lemma discover_markets_unusable_listing_witness :
  discover_markets "BTC" "5m" (quiet 0 refusing)
  = (Ret [], after_requests GammaMarkets 3 3 (quiet 0 refusing)).
Proof.
  apply (discover_markets_unusable_listing "BTC" "5m" (quiet 0 refusing)
           (error_dict "refused 2")).
  - reflexivity.
  - exact I.
Defined.

(** X11. When the listing answers with a JSON scalar ([null], a boolean,
    a number), [discover_markets] raises [TypeError]: the membership
    test for [error] comes before the [isinstance] test. *)
Theorem discover_markets_scalar_raises asset window w v w1 :
  api_request GammaMarkets w = (Ret v, w1) ->
  scalar v ->
  discover_markets asset window w = (Raise TypeError, w1).
Proof.
  intros Hreq Hv. unfold discover_markets, bind at 1. rewrite Hreq.
  unfold bind, lift. destruct v; try destruct Hv; reflexivity.
Qed.

Lemma discover_markets_scalar_raises_witness :
  discover_markets "BTC" "5m" (quiet 0 (fun _ _ => Payload PNone))
  = (Raise TypeError, after_requests GammaMarkets 1 0 (quiet 0 (fun _ _ => Payload PNone))).
Proof.
  apply (discover_markets_scalar_raises "BTC" "5m" (quiet 0 (fun _ _ => Payload PNone)) PNone).
  - reflexivity.
  - exact I.
Defined.

Lemma parse_deadline_empty year : parse_deadline year EmptyString = None.
Proof. reflexivity. Qed.

Lemma consider_entries patterns window m markets w r w' :
  consider patterns window m markets w = (Ret r, w') ->
  Forall (well_formed_entry patterns window (utc_year (now w))) markets ->
  Forall (well_formed_entry patterns window (utc_year (now w))) r.
Proof.
  intros Hrun Hall. revert Hrun.
  unfold consider, matches.
  destruct m as [| | | | | | d]; try discriminate.
  cbn [py_get obind]. unfold dict_get.
  unfold bind at 1, lift at 1.
  destruct (py_lower (py_or (default PNone (d !! "question")) (PStr EmptyString)))
    as [q |] eqn:Hlow; cbn [obind]; [| discriminate].
  destruct (existsb (fun p => str_in p q) patterns) eqn:Hpat;
    [| now intros [= <- <-]].
  destruct (py_in ("-" +:+ window +:+ "-") (default (PStr EmptyString) (d !! "slug")))
    as [[|] |] eqn:Hslug; [| now intros [= <- <-] | discriminate].
  unfold bind at 1, lift at 1. unfold bind at 1.
  destruct (default (PStr EmptyString) (d !! "question")) as [| | | | qs | |] eqn:Hq;
    try discriminate.
  destruct (parse_et_to_utc_text qs w) as (w1 & -> & _).
  destruct (parse_deadline (utc_year (now w)) qs) as [t |] eqn:Hparse; [| now intros [= <- <-]].
  unfold bind, lift, ret.
  destruct (Json.loads (default (PStr "[0.5, 0.5]") (d !! "outcomePrices"))) as [prices |];
    cbn [obind]; [| discriminate].
  destruct (py_int (py_or (default PNone (d !! "feeRateBps")) (PInt 0))) as [fee |];
    cbn [obind]; [| discriminate].
  intros [= <- <-]. apply Forall_app. split; [exact Hall |]. constructor; [| constructor].
  assert (Hfield : d !! "question" = Some (PStr qs)).
  { destruct (d !! "question") as [x |]; cbn in Hq; [now subst |].
    injection Hq as <-. rewrite parse_deadline_empty in Hparse. discriminate. }
  exists qs. cbn [question slug end_time]. rewrite Hfield in *. cbn [default] in *.
  split; [reflexivity |]. split; [| split; [assumption | exact Hparse]].
  assert (q = lower qs) as ->; [| exact Hpat].
  clear -Hlow. destruct qs; cbn in Hlow; now injection Hlow as <-.
Qed.

Lemma discover_loop_entries patterns window l markets w r w' :
  discover_loop patterns window l markets w = (Ret r, w') ->
  Forall (well_formed_entry patterns window (utc_year (now w))) markets ->
  Forall (well_formed_entry patterns window (utc_year (now w))) r.
Proof.
  revert markets w. induction l as [| m l IH]; intros markets w; simpl.
  - now intros [= <- <-].
  - unfold bind.
    destruct (consider patterns window m markets w) as [[ms |] w1] eqn:Hc; [| discriminate].
    intros Hloop Hall. pose proof (consider_frame _ _ _ _ _ _ _ Hc) as (_ & _ & Hnow & _).
    rewrite <- Hnow. eapply IH; [exact Hloop |]. rewrite Hnow.
    eapply consider_entries; eauto.
Qed.

(** X12. Every entry of the output of [discover_markets] has a question
    that is text and contains one of the asset's patterns once
    lower-cased, has the window token in its slug, and carries as its
    deadline the instant parsed from that question for the year of the
    run. *)
Theorem discover_markets_entries asset window w markets w' :
  discover_markets asset window w = (Ret markets, w') ->
  Forall (well_formed_entry (patterns_of asset) window (utc_year (now w'))) markets.
Proof.
  unfold discover_markets, bind at 1.
  destruct (api_request GammaMarkets w) as [[res |] w1]; [| discriminate].
  unfold bind, lift.
  destruct (py_in "error" res) as [err |]; [| discriminate].
  destruct res; try (intros [= <- <-]; constructor).
  destruct err; [intros [= <- <-]; constructor |].
  intros Hloop. pose proof (discover_loop_frame _ _ _ _ _ _ _ Hloop) as (_ & _ & Hnow & _).
  rewrite Hnow. eapply discover_loop_entries; [exact Hloop | constructor].
Qed.

Lemma discover_markets_entries_witness :
  Forall (well_formed_entry (patterns_of "BTC") "5m"
            (utc_year (now (snd (discover_markets "BTC" "5m" busy_world)))))
         (discovered default_config busy_world).
Proof.
  apply (discover_markets_entries "BTC" "5m" busy_world (discovered default_config busy_world)
           (snd (discover_markets "BTC" "5m" busy_world))).
  vm_compute. reflexivity.
Defined.

Lemma str_in_empty p : p <> EmptyString -> str_in p EmptyString = false.
Proof. destruct p; [congruence | reflexivity]. Qed.

Lemma patterns_of_nonempty asset : Forall (fun p => p <> EmptyString) (patterns_of asset).
Proof.
  unfold patterns_of. destruct (ASSET_PATTERNS !! asset) as [l |] eqn:H; cbn.
  - apply elem_of_list_to_map_2 in H.
    repeat (apply elem_of_cons in H as [[= -> ->] | H]; [repeat constructor; discriminate |]).
    now apply elem_of_nil in H.
  - repeat constructor. discriminate.
Qed.

Lemma existsb_empty patterns :
  Forall (fun p => p <> EmptyString) patterns ->
  existsb (fun p => str_in p EmptyString) patterns = false.
Proof.
  induction 1 as [| p l Hp _ IH]; [reflexivity |]. cbn [existsb].
  now rewrite (str_in_empty p Hp), IH.
Qed.

Lemma consider_total patterns window d markets w :
  Forall (fun p => p <> EmptyString) patterns ->
  well_formed_record d ->
  exists r w', consider patterns window (PDict d) markets w = (Ret r, w').
Proof.
  intros Hpat (Hq & Hs & (prices & Hprices) & (fee & Hfee)).
  unfold consider, matches. cbn [py_get obind]. unfold dict_get in *.
  unfold bind at 1, lift at 1.
  assert (Hslug : exists b, py_in ("-" +:+ window +:+ "-") (default (PStr EmptyString) (d !! "slug"))
                            = Ret b).
  { destruct (d !! "slug") as [v |] eqn:E; cbn; [| eauto].
    destruct (Hs v eq_refl) as [s ->]. cbn. eauto. }
  destruct Hslug as [b Hslug].
  destruct (d !! "question") as [v |] eqn:E; cbn [default from_option id].
  - specialize (Hq v eq_refl). destruct v; try destruct Hq.
    + (* null *)
      cbn [py_or truthy py_lower lower obind]. rewrite (existsb_empty _ Hpat). cbn. eauto.
    + (* text *)
      assert (Hlow : py_lower (py_or (PStr s) (PStr EmptyString)) = Ret (lower s))
        by (destruct s; reflexivity).
      rewrite Hlow. cbn [obind].
      destruct (existsb _ patterns); [| cbn; eauto].
      rewrite Hslug. destruct b; [| cbn; eauto].
      unfold bind at 1, lift at 1. unfold bind at 1.
      destruct (parse_et_to_utc_text s w) as (w1 & -> & _).
      destruct (parse_deadline _ s); [| cbn; eauto].
      unfold bind, lift, ret. rewrite Hprices. cbn [obind]. rewrite Hfee. cbn [obind]. eauto.
  - cbn [py_or truthy py_lower lower obind]. rewrite (existsb_empty _ Hpat). cbn. eauto.
Qed.

Lemma discover_loop_total patterns window ds markets w :
  Forall (fun p => p <> EmptyString) patterns ->
  Forall well_formed_record ds ->
  exists r w', discover_loop patterns window (map PDict ds) markets w = (Ret r, w').
Proof.
  intros Hpat Hall. revert markets w.
  induction Hall as [| d ds Hd _ IH]; intros markets w; cbn [map discover_loop].
  - unfold ret. eauto.
  - unfold bind.
    destruct (consider_total patterns window d markets w Hpat Hd) as (r & w1 & ->).
    apply IH.
Qed.

(** X13. On a listing of records whose question is text, [null] or
    absent, whose slug is text or absent, whose outcome-price field (or
    its default) decodes and whose fee field (or its default) reads as an
    integer, [discover_markets] returns normally. *)
Theorem discover_markets_returns asset window w ds w1 :
  api_request GammaMarkets w = (Ret (PList (map PDict ds)), w1) ->
  Forall well_formed_record ds ->
  exists markets w', discover_markets asset window w = (Ret markets, w').
Proof.
  intros Hreq Hall. unfold discover_markets, bind at 1. rewrite Hreq.
  unfold bind, lift. cbn [py_in]. rewrite dicts_no_error.
  apply discover_loop_total; [apply patterns_of_nonempty | exact Hall].
Qed.

Lemma discover_markets_returns_witness :
  exists markets w', discover_markets "BTC" "5m" busy_world = (Ret markets, w').
Proof.
  apply (discover_markets_returns "BTC" "5m" busy_world (map dict_of three_markets)
           (snd (api_request GammaMarkets busy_world))).
  - vm_compute. reflexivity.
  - repeat constructor;
      try (intros v Hv; vm_compute in Hv; injection Hv as <-; first [exact I | eauto]);
      try (eexists; vm_compute; reflexivity).
Defined.

(** X14. An asset other than BTC, ETH and SOL is silently treated as
    Bitcoin: discovery uses Bitcoin's patterns, the exchange provider
    asks for BTCUSDT and the spot provider asks for the price of
    bitcoin. *)
Theorem unknown_asset_is_bitcoin asset :
  asset ∉ ["BTC"; "ETH"; "SOL"] ->
  (forall window w, discover_markets asset window w = discover_markets "BTC" window w)
  /\ (forall lookback w,
        get_binance_momentum asset lookback w = get_binance_momentum "BTC" lookback w)
  /\ (forall w, fetch_spot_price asset w = fetch_spot_price "BTC" w).
Proof.
  intros Hnot.
  assert (Hp : ASSET_PATTERNS !! asset = None)
    by (apply not_elem_of_list_to_map_1; exact Hnot).
  assert (Hs : ASSET_SYMBOLS !! asset = None)
    by (apply not_elem_of_list_to_map_1; exact Hnot).
  assert (Hc : COINGECKO_IDS !! asset = None)
    by (apply not_elem_of_list_to_map_1; exact Hnot).
  split; [| split].
  - intros window w. unfold discover_markets, patterns_of. now rewrite Hp.
  - intros lookback w. unfold get_binance_momentum. now rewrite Hs.
  - intros w. unfold fetch_spot_price. now rewrite Hc.
Qed.

Lemma unknown_asset_is_bitcoin_witness :
  (forall window w, discover_markets "DOGE" window w = discover_markets "BTC" window w)
  /\ (forall lookback w,
        get_binance_momentum "DOGE" lookback w = get_binance_momentum "BTC" lookback w)
  /\ (forall w, fetch_spot_price "DOGE" w = fetch_spot_price "BTC" w).
Proof.
  apply (unknown_asset_is_bitcoin "DOGE").
  apply (bool_decide_unpack _). vm_compute. exact I.
Defined.

(* ================================================================= *)
(** ** What a computation does to the world *)

Lemma effects_refl w : effects w w 0 [] [].
Proof. unfold effects. rewrite !app_nil_r. repeat split; lia. Qed.

Lemma effects_trans w1 w2 w3 s1 s2 r1 r2 o1 o2 :
  effects w1 w2 s1 r1 o1 -> effects w2 w3 s2 r2 o2 ->
  effects w1 w3 (s1 + s2) (r1 ++ r2) (o1 ++ o2).
Proof.
  unfold effects. intros (He1 & Hh1 & Hn1 & Hr1 & Ho1) (He2 & Hh2 & Hn2 & Hr2 & Ho2).
  rewrite He2, Hh2, Hn2, Hr2, Ho2, He1, Hh1, Hn1, Hr1, Ho1, !app_assoc.
  repeat split; lia.
Qed.

Lemma effects_print m w : effects w (snd (print m w)) 0 [] [m].
Proof. unfold effects. cbn. rewrite app_nil_r. repeat split; lia. Qed.

Lemma effects_after_requests e n secs w :
  effects w (after_requests e n secs w) secs (replicate n e) [].
Proof. unfold effects. cbn. rewrite app_nil_r. repeat split. Qed.

Lemma parse_et_to_utc_prints qv w r w' :
  parse_et_to_utc qv w = (r, w') ->
  exists errs, effects w w' 0 [] errs /\ Forall (eq MsgTimeParseError) errs.
Proof.
  unfold parse_et_to_utc.
  destruct qv; try (intros [= <- <-]; exists []; split; [apply effects_refl | constructor]).
  destruct (Re.search pattern (list_ascii_of_string s)) as [caps |];
    [| intros [= <- <-]; exists []; split; [apply effects_refl | constructor]].
  unfold try_except, bind, datetime_now, lift, ret.
  destruct (parse_groups _ _ _) as [t | []]; intros [= <- <-];
    first [ exists []; split; [apply effects_refl | constructor]
          | exists [MsgTimeParseError]; split; [apply effects_print | repeat constructor] ].
Qed.

Lemma consider_prints patterns window m markets w r w' :
  consider patterns window m markets w = (r, w') ->
  exists errs, effects w w' 0 [] errs /\ Forall (eq MsgTimeParseError) errs.
Proof.
  unfold consider, bind at 1, lift at 1.
  destruct (matches patterns window m) as [[|] |];
    try (intros [= <- <-]; exists []; split; [apply effects_refl | constructor]).
  unfold bind at 1, lift at 1.
  destruct (py_get m "question" (PStr EmptyString)) as [qv |];
    [| intros [= <- <-]; exists []; split; [apply effects_refl | constructor]].
  unfold bind at 1.
  destruct (parse_et_to_utc qv w) as [[[t |] |] w1] eqn:Hparse;
    apply parse_et_to_utc_prints in Hparse.
  - unfold bind, lift, ret.
    match goal with |- context [match ?x with _ => _ end] => destruct x end;
      now intros [= <- <-].
  - now intros [= <- <-].
  - now intros [= <- <-].
Qed.

Lemma discover_loop_prints patterns window l markets w r w' :
  discover_loop patterns window l markets w = (r, w') ->
  exists errs, effects w w' 0 [] errs /\ Forall (eq MsgTimeParseError) errs.
Proof.
  revert markets w. induction l as [| m l IH]; intros markets w; simpl.
  - intros [= <- <-]. exists []. split; [apply effects_refl | constructor].
  - unfold bind.
    destruct (consider patterns window m markets w) as [[ms |] w1] eqn:Hc;
      apply consider_prints in Hc as (e1 & H1 & Hf1).
    + intros H. apply IH in H as (e2 & H2 & Hf2).
      exists (e1 ++ e2)%list. split; [| now apply Forall_app].
      apply (effects_trans _ _ _ _ _ _ _ _ _ H1 H2).
    + intros [= <- <-]. eauto.
Qed.

(** What discovery does to the world: up to three requests to the
    listing, the pauses between them, and a line for each deadline that
    did not parse. *)
Lemma discover_markets_effects asset window w r w' :
  discover_markets asset window w = (r, w') ->
  files w' = files w
  /\ exists n secs errs,
       effects w w' secs (replicate n GammaMarkets) errs
       /\ (1 <= n <= 3)%nat /\ 0 <= secs <= 3 /\ Forall (eq MsgTimeParseError) errs.
Proof.
  intros H. split; [now apply discover_markets_frame in H |]. revert H.
  unfold discover_markets, bind at 1.
  destruct (api_request_effects GammaMarkets w) as (res & n & secs & -> & Hn & Hs).
  pose proof (effects_after_requests GammaMarkets n secs w) as Hreq.
  set (w1 := after_requests GammaMarkets n secs w) in *.
  assert (Hbase : forall (r r' : outcome (list market)) w', (r, w1) = (r', w') ->
            exists n secs errs,
              effects w w' secs (replicate n GammaMarkets) errs
              /\ (1 <= n <= 3)%nat /\ 0 <= secs <= 3 /\ Forall (eq MsgTimeParseError) errs).
  { intros r0 r1 w0 [= _ <-]. exists n, secs, []. auto. }
  unfold bind, lift.
  destruct (py_in "error" res) as [err |]; [| apply Hbase].
  destruct res; try apply Hbase.
  destruct err; [apply Hbase |].
  intros H. apply discover_loop_prints in H as (errs & H & Hf).
  exists n, secs, errs. split; [| auto].
  pose proof (effects_trans _ _ _ _ _ _ _ _ _ Hreq H) as Ht.
  now rewrite Z.add_0_r, app_nil_r in Ht.
Qed.

(* ================================================================= *)
(** ** The exchange-candle provider: its edges *)

(** The exchange provider only asks the exchange: up to three requests,
    no file, no output. *)
Lemma get_binance_momentum_frame asset lookback w :
  exists n secs,
    snd (get_binance_momentum asset lookback w)
    = after_requests (BinanceKlines (default "BTCUSDT" (ASSET_SYMBOLS !! asset)) lookback)
        n secs w
    /\ (1 <= n <= 3)%nat /\ 0 <= secs <= 3.
Proof.
  unfold get_binance_momentum, bind at 1.
  destruct (api_request_effects
              (BinanceKlines (default "BTCUSDT" (ASSET_SYMBOLS !! asset)) lookback) w)
    as (res & n & secs & -> & Hn & Hs).
  exists n, secs. split; [| auto].
  unfold bind, lift, ret.
  destruct (py_in "error" res) as [err |]; [| reflexivity].
  destruct res; try reflexivity.
  destruct (err || _); [reflexivity |].
  now destruct (binance_signal l).
Qed.

Lemma binance_signal_shape cs s :
  binance_signal cs = Ret s ->
  signal_direction s = (if Qltb 0 (momentum_pct s) then Up else Down)
  /\ exists q, price_now s = PFloat q.
Proof.
  unfold binance_signal. intros H.
  repeat (apply obind_ret_inv in H as (? & ? & H)).
  injection H as <-. cbn. eauto.
Qed.

Lemma get_binance_momentum_shape asset lookback w s w' :
  get_binance_momentum asset lookback w = (Ret (Some s), w') ->
  signal_direction s = (if Qltb 0 (momentum_pct s) then Up else Down)
  /\ exists q, price_now s = PFloat q.
Proof.
  unfold get_binance_momentum, bind at 1.
  destruct (api_request _ w) as [[candles |] w1]; [| discriminate].
  unfold bind, lift, ret.
  destruct (py_in "error" candles) as [err |]; [| discriminate].
  destruct candles; try discriminate.
  destruct (err || _); [discriminate |].
  destruct (binance_signal l) as [s1 |] eqn:Hs; [| discriminate].
  intros [= <- <-]. now apply (binance_signal_shape l).
Qed.

Lemma Qltb_lt a b : Qltb a b = true <-> (a < b)%Q.
Proof.
  unfold Qltb. rewrite Qlt_alt. destruct (a ?= b)%Q; split; congruence.
Qed.

Lemma Qltb_ge a b : Qltb a b = false <-> (b <= a)%Q.
Proof.
  split; intros H.
  - apply Qnot_lt_le. intros Hlt. apply Qltb_lt in Hlt. congruence.
  - destruct (Qltb a b) eqn:E; [| reflexivity].
    apply Qltb_lt in E. exfalso. eapply Qlt_not_le; eauto.
Qed.

(** X15. When [api_request] hands the exchange provider an object (such
    as the error object of a failed call), text, or a list that has the
    string [error] among its elements, [get_binance_momentum] returns
    [None]. *)
Theorem binance_unusable_response asset lookback w v w1 :
  api_request (BinanceKlines (default "BTCUSDT" (ASSET_SYMBOLS !! asset)) lookback) w
  = (Ret v, w1) ->
  unusable v ->
  get_binance_momentum asset lookback w = (Ret None, w1).
Proof.
  intros Hreq Hv. unfold get_binance_momentum, bind at 1. rewrite Hreq.
  unfold bind, lift, ret. destruct v; try destruct Hv; try reflexivity.
  cbn [py_in]. now rewrite (in_error_existsb _ Hv).
Qed.

Lemma binance_unusable_response_witness :
  get_binance_momentum "BTC" 5 (quiet 0 refusing)
  = (Ret None, after_requests (BinanceKlines "BTCUSDT" 5) 3 3 (quiet 0 refusing)).
Proof.
  apply (binance_unusable_response "BTC" 5 (quiet 0 refusing) (error_dict "refused 2")).
  - reflexivity.
  - exact I.
Defined.

(** X16. Two or more candles whose fields read as numbers and whose
    first open price is zero make [get_binance_momentum] raise
    [ZeroDivisionError]. *)
Theorem binance_zero_open_raises asset lookback w cs w1 rows first :
  api_request (BinanceKlines (default "BTCUSDT" (ASSET_SYMBOLS !! asset)) lookback) w
  = (Ret (PList cs), w1) ->
  (2 <= List.length cs)%nat ->
  map_outcome candle_of cs = Ret rows ->
  List.head rows = Some first ->
  (c_open first == 0)%Q ->
  get_binance_momentum asset lookback w = (Raise ZeroDivisionError, w1).
Proof.
  intros Hreq Hlong Hrows Hhead Hopen.
  unfold get_binance_momentum, bind at 1. rewrite Hreq.
  apply map_outcome_Forall2 in Hrows.
  unfold bind at 1, lift at 1. cbn [py_in]. rewrite (candles_no_error _ _ Hrows).
  apply Nat.ltb_ge in Hlong. rewrite Hlong. cbn [orb].
  unfold bind, lift.
  assert (Hs : binance_signal cs = Raise ZeroDivisionError); [| now rewrite Hs].
  destruct Hrows as [| c0 r0 cs rows Hc0 Hrest]; [discriminate |].
  injection Hhead as ->.
  assert (Hall : Forall2 (fun c r => candle_of c = Ret r) (c0 :: cs) (first :: rows))
    by now constructor.
  assert (Hlast : candle_of (List.last (c0 :: cs) c0) = Ret (List.last (first :: rows) first))
    by (apply (Forall2_last _ _ _ c0 first Hall); congruence).
  apply candle_of_inv in Hc0 as (o & _ & _ & Ho & Hfo & _).
  apply candle_of_inv in Hlast as (_ & cl & _ & _ & _ & Hcl & Hfcl & _).
  unfold binance_signal.
  change (py_index (PList (c0 :: cs)) 0) with (Ret (A := pyval) c0). cbn [obind].
  rewrite Ho. cbn [obind]. rewrite Hfo. cbn [obind].
  rewrite (py_index_last (c0 :: cs) c0) by congruence. cbn [obind].
  rewrite Hcl. cbn [obind]. rewrite Hfcl. cbn [obind].
  unfold py_div at 1. apply Qeq_bool_iff in Hopen. now rewrite Hopen.
Qed.

Lemma binance_zero_open_raises_witness :
  get_binance_momentum "BTC" 2 (quiet 0 (answering (PList zero_open_candles)))
  = (Raise ZeroDivisionError,
     after_requests (BinanceKlines "BTCUSDT" 2) 1 0
       (quiet 0 (answering (PList zero_open_candles)))).
Proof.
  apply (binance_zero_open_raises "BTC" 2 (quiet 0 (answering (PList zero_open_candles)))
           zero_open_candles
           (after_requests (BinanceKlines "BTCUSDT" 2) 1 0
              (quiet 0 (answering (PList zero_open_candles))))
           [Candle 0 (1 # 2) 10; Candle (1 # 2) 1 20] (Candle 0 (1 # 2) 10)).
  - reflexivity.
  - simpl. lia.
  - vm_compute. reflexivity.
  - reflexivity.
  - reflexivity.
Defined.

(** X17. A signal of the exchange provider is never neutral: its
    direction is up exactly when the momentum is positive and down
    otherwise, zero momentum included. *)
Theorem binance_direction_never_neutral asset lookback w s w' :
  get_binance_momentum asset lookback w = (Ret (Some s), w') ->
  (signal_direction s = Up <-> (0 < momentum_pct s)%Q)
  /\ (signal_direction s = Down <-> (momentum_pct s <= 0)%Q)
  /\ signal_direction s <> Neutral.
Proof.
  intros H. apply get_binance_momentum_shape in H as [Hd _]. rewrite Hd.
  destruct (Qltb 0 (momentum_pct s)) eqn:E.
  - apply Qltb_lt in E. repeat split; try discriminate; auto.
    intros Hle. exfalso. eapply Qlt_not_le; eauto.
  - apply Qltb_ge in E. repeat split; try discriminate; auto.
    intros Hlt. exfalso. eapply Qlt_not_le; eauto.
Qed.

Lemma binance_direction_never_neutral_witness :
  (signal_direction first_exchange_signal = Up <-> (0 < momentum_pct first_exchange_signal)%Q)
  /\ (signal_direction first_exchange_signal = Down
      <-> (momentum_pct first_exchange_signal <= 0)%Q)
  /\ signal_direction first_exchange_signal <> Neutral.
Proof.
  apply (binance_direction_never_neutral "BTC" 3 candle_world first_exchange_signal
           (snd (get_binance_momentum "BTC" 3 candle_world))).
  vm_compute. reflexivity.
Defined.

(* ================================================================= *)
(** ** The spot-price provider: the formula and its edges *)

Lemma fetch_spot_price_effects asset w :
  exists n secs,
    snd (fetch_spot_price asset w)
    = after_requests (CoinGeckoPrice (default "bitcoin" (COINGECKO_IDS !! asset))) n secs w
    /\ (1 <= n <= 3)%nat /\ 0 <= secs <= 3.
Proof.
  unfold fetch_spot_price, bind at 1.
  destruct (api_request_effects (CoinGeckoPrice (default "bitcoin" (COINGECKO_IDS !! asset))) w)
    as (res & n & secs & -> & Hn & Hs).
  exists n, secs. split; [| auto].
  unfold bind, lift, ret.
  destruct (py_in "error" res) as [[|] |]; try reflexivity.
  destruct (inner <- py_get res _ (PDict ∅);; py_get inner "usd" PNone); [| reflexivity].
  now destruct (negb _).
Qed.

Lemma spot_signal_effects asset price w r w' :
  spot_signal asset price w = (r, w') ->
  effects w w' 0 [] []
  /\ (files w' = files w
      \/ exists d, files w' = <[STATE_FILE := Document (PDict d)]> (files w)).
Proof.
  intros H. apply spot_signal_state in H as Hs. split.
  - revert H.
    unfold spot_signal, bind, lift, path_exists, json_load_file, json_dump_file, ret.
    destruct (files w !! STATE_FILE) as [[| | v] |] eqn:Hfile; cbn; rewrite ?Hfile; cbn;
      try (intros [= <- <-]; apply effects_refl).
    + destruct v; cbn; try (intros [= <- <-]; apply effects_refl).
      destruct (spot_momentum _ _); cbn; rewrite ?Hfile; intros [= <- <-];
        try apply effects_refl.
      unfold effects; cbn. rewrite !app_nil_r. repeat split; lia.
    + destruct (spot_momentum _ _); cbn; rewrite ?Hfile; intros [= <- <-];
        try apply effects_refl.
      unfold effects; cbn. rewrite !app_nil_r. repeat split; lia.
  - destruct Hs as [[Hs _] | (d & s & _ & _ & _ & Hs)]; [now left | right; eauto].
Qed.

Lemma get_coingecko_momentum_effects asset w r w' :
  get_coingecko_momentum asset w = (r, w') ->
  exists n secs,
    effects w w' secs
      (replicate n (CoinGeckoPrice (default "bitcoin" (COINGECKO_IDS !! asset)))) []
    /\ (1 <= n <= 3)%nat /\ 0 <= secs <= 3
    /\ (files w' = files w
        \/ exists d, files w' = <[STATE_FILE := Document (PDict d)]> (files w)).
Proof.
  destruct (fetch_spot_price_effects asset w) as (n & secs & Hw & Hn & Hs).
  unfold get_coingecko_momentum, bind at 1.
  destruct (fetch_spot_price asset w) as [fetched w1]. cbn [snd] in Hw. subst w1.
  pose proof (effects_after_requests
                (CoinGeckoPrice (default "bitcoin" (COINGECKO_IDS !! asset))) n secs w) as Hreq.
  intros H. exists n, secs.
  destruct fetched as [[price |] |];
    [| injection H as <- <-; repeat split; try apply Hreq; try lia; now left ..].
  unfold bind at 1 in H.
  destruct (spot_signal asset price _) as [r1 w2] eqn:Hsig.
  apply spot_signal_effects in Hsig as [Heff Hfiles].
  assert (w' = w2) as -> by (destruct r1; now injection H).
  split; [| auto].
  pose proof (effects_trans _ _ _ _ _ _ _ _ _ Hreq Heff) as Ht.
  now rewrite Z.add_0_r, !app_nil_r in Ht.
Qed.

Lemma spot_signal_shape asset price w s w' :
  spot_signal asset price w = (Ret s, w') ->
  volume_ratio s = 1%Q /\ price_now s = price
  /\ signal_direction s = spot_direction (momentum_pct s).
Proof.
  unfold spot_signal, bind, lift, path_exists, json_load_file, json_dump_file, ret.
  repeat match goal with
         | |- context [match ?x with _ => _ end] => destruct x; cbn
         end; intros [= <- _]; cbn; auto.
Qed.

Lemma get_coingecko_momentum_shape asset w s w' :
  get_coingecko_momentum asset w = (Ret (Some s), w') ->
  volume_ratio s = 1%Q /\ truthy (price_now s) = true
  /\ signal_direction s = spot_direction (momentum_pct s).
Proof.
  unfold get_coingecko_momentum, bind at 1.
  destruct (fetch_spot_price asset w) as [fetched w1] eqn:Hfetch.
  apply fetch_spot_price_frame in Hfetch as [_ Htruthy].
  destruct fetched as [[price |] |]; try discriminate.
  unfold bind at 1. destruct (spot_signal asset price w1) as [[s1 |] w2] eqn:Hsig;
    [| discriminate].
  intros [= <- <-]. apply spot_signal_shape in Hsig as (Hv & Hp & Hd).
  rewrite Hp. auto.
Qed.

Lemma number_truthy p b :
  as_number p = Some b -> ~ (b == 0)%Q -> truthy p = true.
Proof.
  destruct p as [| [|] | z | q | | |]; cbn; intros [= <-] Hb; try reflexivity.
  - exfalso. apply Hb. reflexivity.
  - apply negb_true_iff, Z.eqb_neq. intros ->. apply Hb. reflexivity.
  - apply negb_true_iff. destruct (Qeq_bool q 0) eqn:E; [| reflexivity].
    apply Qeq_bool_iff in E. contradiction.
Qed.

Lemma spot_direction_sign m :
  (spot_direction m = Up <-> (0 < m)%Q)
  /\ (spot_direction m = Down <-> (m < 0)%Q)
  /\ (spot_direction m = Neutral <-> (m == 0)%Q).
Proof.
  unfold spot_direction.
  destruct (Qltb 0 m) eqn:E1.
  { apply Qltb_lt in E1. repeat split; try discriminate; auto.
    - intros H. exfalso. eapply Qlt_irrefl. eapply Qlt_trans; eauto.
    - intros H. rewrite H in E1. now apply Qlt_irrefl in E1. }
  apply Qltb_ge in E1.
  destruct (Qltb m 0) eqn:E2.
  { apply Qltb_lt in E2. repeat split; try discriminate; auto.
    - intros H. exfalso. eapply Qlt_not_le; eauto.
    - intros H. rewrite H in E2. now apply Qlt_irrefl in E2. }
  apply Qltb_ge in E2. repeat split; try discriminate; auto.
  - intros H. exfalso. eapply Qlt_not_le; eauto.
  - intros H. exfalso. eapply Qlt_not_le; eauto.
  - intros _. now apply Qle_antisym.
Qed.

(** The second half of the provider, for a state that is an object or
    absent: the signal has the momentum [spot_momentum] gives against the
    stored price, and the state gets the fetched price. *)
Lemma spot_signal_with asset p w d m :
  files w !! STATE_FILE = Some (Document (PDict d))
  \/ (files w !! STATE_FILE = None /\ d = ∅) ->
  spot_momentum p (dict_get d (state_key asset) p) = Ret m ->
  spot_signal asset p w
  = (Ret (Signal m (spot_direction m) p 1),
     World (environ w)
           (<[STATE_FILE := Document (PDict (<[state_key asset := p]> d))]> (files w))
           (now w) (http w) (requests w) (stdout w)).
Proof.
  intros Hfile Hm.
  unfold spot_signal, bind, lift, path_exists, json_load_file, json_dump_file, ret.
  destruct Hfile as [Hfile | [Hfile ->]]; rewrite Hfile; cbn; rewrite ?Hfile; cbn;
    rewrite Hm; cbn; rewrite ?Hfile; reflexivity.
Qed.

Lemma spot_momentum_formula p prev a b :
  as_number p = Some a -> as_number prev = Some b -> ~ (b == 0)%Q ->
  spot_momentum p prev = Ret ((a - b) / b * 100)%Q.
Proof.
  intros Ha Hb Hnz. pose proof (number_truthy _ _ Hb Hnz) as Ht.
  unfold spot_momentum, number, py_div. rewrite Ht, Ha, Hb. cbn.
  destruct (Qeq_bool b 0) eqn:E; [apply Qeq_bool_iff in E; contradiction | reflexivity].
Qed.

(** X19. When the state holds no previous price for the asset (no state
    file, no entry under the asset's key, or a stored value that counts
    as false, such as zero) and the fetched price is numeric, the spot
    provider returns a signal of momentum 0 and direction neutral, and
    leaves the state with the fetched price under the asset's key, the
    other keys kept. *)
Theorem coingecko_no_previous_price asset w p w1 d a :
  fetch_spot_price asset w = (Ret (Some p), w1) ->
  (files w !! STATE_FILE = None /\ d = ∅)
  \/ files w !! STATE_FILE = Some (Document (PDict d)) ->
  no_previous d (state_key asset) ->
  as_number p = Some a ->
  exists s w',
    get_coingecko_momentum asset w = (Ret (Some s), w')
    /\ (momentum_pct s == 0)%Q /\ signal_direction s = Neutral
    /\ price_now s = p
    /\ files w' = <[STATE_FILE := Document (PDict (<[state_key asset := p]> d))]> (files w).
Proof.
  intros Hfetch Hstate Hprev Ha.
  pose proof (fetch_spot_price_frame _ _ _ _ Hfetch) as [(_ & Hfiles & _) Htruthy].
  specialize (Htruthy p eq_refl).
  assert (Hm : exists m, spot_momentum p (dict_get d (state_key asset) p) = Ret m
                         /\ (m == 0)%Q).
  { unfold no_previous in Hprev. unfold dict_get.
    destruct (d !! state_key asset) as [prev |]; cbn [default from_option id].
    - exists 0%Q. split; [| reflexivity]. unfold spot_momentum. now rewrite Hprev.
    - now apply (spot_momentum_same p a). }
  destruct Hm as (m & Hm & Hzero).
  unfold get_coingecko_momentum, bind at 1. rewrite Hfetch. unfold bind at 1.
  rewrite (spot_signal_with asset p w1 d m).
  - eexists _, _. split; [reflexivity |].
    cbn [momentum_pct signal_direction price_now volume_ratio files].
    split; [exact Hzero |]. split; [now apply spot_direction_zero |].
    split; [reflexivity | now rewrite Hfiles].
  - rewrite Hfiles. destruct Hstate as [[H ->] | H]; auto.
  - exact Hm.
Qed.

Lemma coingecko_no_previous_price_witness :
  exists s w',
    get_coingecko_momentum "BTC" zero_state_world = (Ret (Some s), w')
    /\ (momentum_pct s == 0)%Q /\ signal_direction s = Neutral
    /\ price_now s = PInt 51000
    /\ files w' = <[STATE_FILE := Document (PDict (<[state_key "BTC" := PInt 51000]>
                                                     {[ "BTC_last_price" := PInt 0 ]}))]>
                    (files zero_state_world).
Proof.
  apply (coingecko_no_previous_price "BTC" zero_state_world (PInt 51000)
           (snd (fetch_spot_price "BTC" zero_state_world))
           {[ "BTC_last_price" := PInt 0 ]} 51000).
  - vm_compute. reflexivity.
  - right. vm_compute. reflexivity.
  - vm_compute. reflexivity.
  - reflexivity.
Defined.

(** X20. When the state holds a previous price other than zero for the
    asset and the fetched price is numeric, the spot provider returns
    the momentum (price - previous) / previous * 100, the direction up,
    down or neutral by the sign of that momentum, the fetched price and
    the volume ratio 1, and stores the fetched price under the asset's
    key. *)
Theorem coingecko_momentum_formula asset w p w1 d prev a b :
  fetch_spot_price asset w = (Ret (Some p), w1) ->
  files w !! STATE_FILE = Some (Document (PDict d)) ->
  d !! state_key asset = Some prev ->
  as_number p = Some a -> as_number prev = Some b -> ~ (b == 0)%Q ->
  exists s w',
    get_coingecko_momentum asset w = (Ret (Some s), w')
    /\ (momentum_pct s == (a - b) / b * 100)%Q
    /\ (signal_direction s = Up <-> (0 < momentum_pct s)%Q)
    /\ (signal_direction s = Down <-> (momentum_pct s < 0)%Q)
    /\ (signal_direction s = Neutral <-> (momentum_pct s == 0)%Q)
    /\ price_now s = p /\ volume_ratio s = 1%Q
    /\ files w' = <[STATE_FILE := Document (PDict (<[state_key asset := p]> d))]> (files w).
Proof.
  intros Hfetch Hfile Hprev Ha Hb Hnz.
  pose proof (fetch_spot_price_frame _ _ _ _ Hfetch) as [(_ & Hfiles & _) _].
  unfold get_coingecko_momentum, bind at 1. rewrite Hfetch. unfold bind at 1.
  rewrite (spot_signal_with asset p w1 d ((a - b) / b * 100)%Q).
  - eexists _, _. split; [reflexivity |]. cbn [momentum_pct signal_direction price_now volume_ratio files].
    split; [reflexivity |].
    destruct (spot_direction_sign ((a - b) / b * 100)) as (Hu & Hd & Hn).
    rewrite Hfiles. auto 10.
  - left. now rewrite Hfiles.
  - unfold dict_get. rewrite Hprev. now apply spot_momentum_formula.
Qed.

Lemma coingecko_momentum_formula_witness :
  exists s w',
    get_coingecko_momentum "BTC" spot_world = (Ret (Some s), w')
    /\ (momentum_pct s == (51000 - 50000) / 50000 * 100)%Q
    /\ (signal_direction s = Up <-> (0 < momentum_pct s)%Q)
    /\ (signal_direction s = Down <-> (momentum_pct s < 0)%Q)
    /\ (signal_direction s = Neutral <-> (momentum_pct s == 0)%Q)
    /\ price_now s = PInt 51000 /\ volume_ratio s = 1%Q
    /\ files w' = <[STATE_FILE := Document (PDict (<[state_key "BTC" := PInt 51000]> earlier_state))]>
                    (files spot_world).
Proof.
  apply (coingecko_momentum_formula "BTC" spot_world (PInt 51000)
           (snd (fetch_spot_price "BTC" spot_world)) earlier_state (PInt 50000)
           51000 50000).
  - vm_compute. reflexivity.
  - vm_compute. reflexivity.
  - vm_compute. reflexivity.
  - reflexivity.
  - reflexivity.
  - discriminate.
Defined.

(** X21. When the answer of the price service has a key [error], has no
    entry for the asset, or has a price that is absent, [null] or zero,
    the spot provider returns [None] and leaves the files as they
    were. *)
Theorem coingecko_no_price asset w res w1 :
  api_request (CoinGeckoPrice (default "bitcoin" (COINGECKO_IDS !! asset))) w
  = (Ret (PDict res), w1) ->
  is_Some (res !! "error")
  \/ res !! default "bitcoin" (COINGECKO_IDS !! asset) = None
  \/ (exists inner,
        res !! default "bitcoin" (COINGECKO_IDS !! asset) = Some (PDict inner)
        /\ truthy (dict_get inner "usd" PNone) = false) ->
  get_coingecko_momentum asset w = (Ret None, w1) /\ files w1 = files w.
Proof.
  intros Hreq Hres.
  destruct (api_request_effects (CoinGeckoPrice (default "bitcoin" (COINGECKO_IDS !! asset))) w)
    as (v & n & secs & Heff & _).
  assert (Hfiles : files w1 = files w) by (rewrite Hreq in Heff; now injection Heff as _ ->).
  split; [| exact Hfiles].
  unfold get_coingecko_momentum, bind at 1, fetch_spot_price, bind at 1. rewrite Hreq.
  unfold bind, lift, ret. cbn [py_in].
  destruct (bool_decide (is_Some (res !! "error"))) eqn:Herr; [reflexivity |].
  apply bool_decide_eq_false in Herr.
  destruct Hres as [Hres | [Hres | (inner & Hres & Hzero)]]; [contradiction | |];
    cbn [py_get obind]; unfold dict_get at 1; rewrite Hres; cbn.
  - reflexivity.
  - now rewrite Hzero.
Qed.

Lemma coingecko_no_price_witness :
  get_coingecko_momentum "BTC" (quiet 0 (quoting (PInt 0)))
  = (Ret None, after_requests (CoinGeckoPrice "bitcoin") 1 0 (quiet 0 (quoting (PInt 0))))
  /\ files (after_requests (CoinGeckoPrice "bitcoin") 1 0 (quiet 0 (quoting (PInt 0))))
     = files (quiet 0 (quoting (PInt 0))).
Proof.
  apply (coingecko_no_price "BTC" (quiet 0 (quoting (PInt 0)))
           {[ "bitcoin" := PDict {[ "usd" := PInt 0 ]} ]}).
  - reflexivity.
  - right. right. exists {[ "usd" := PInt 0 ]}. split; reflexivity.
Defined.

(** X22. A state file that does not hold JSON makes the spot provider
    raise [JSONDecodeError] once it has fetched a price: unlike the load
    of the configuration, the load of the state is not guarded. The
    files are left as they were. *)
Theorem coingecko_corrupt_state_raises asset w p w1 :
  fetch_spot_price asset w = (Ret (Some p), w1) ->
  files w !! STATE_FILE = Some Malformed ->
  get_coingecko_momentum asset w = (Raise JSONDecodeError, w1)
  /\ files w1 = files w.
Proof.
  intros Hfetch Hfile.
  pose proof (fetch_spot_price_frame _ _ _ _ Hfetch) as [(_ & Hfiles & _) _].
  split; [| exact Hfiles].
  unfold get_coingecko_momentum, bind at 1. rewrite Hfetch.
  unfold spot_signal, bind, lift, path_exists, json_load_file.
  rewrite Hfiles, Hfile. cbn. now rewrite Hfiles, Hfile.
Qed.

Lemma coingecko_corrupt_state_raises_witness :
  get_coingecko_momentum "BTC" (with_file STATE_FILE Malformed (quiet 0 (quoting (PInt 51000))))
  = (Raise JSONDecodeError,
     snd (fetch_spot_price "BTC"
            (with_file STATE_FILE Malformed (quiet 0 (quoting (PInt 51000))))))
  /\ files (snd (fetch_spot_price "BTC"
                   (with_file STATE_FILE Malformed (quiet 0 (quoting (PInt 51000))))))
     = files (with_file STATE_FILE Malformed (quiet 0 (quoting (PInt 51000)))).
Proof.
  apply (coingecko_corrupt_state_raises "BTC"
           (with_file STATE_FILE Malformed (quiet 0 (quoting (PInt 51000)))) (PInt 51000)).
  - vm_compute. reflexivity.
  - vm_compute. reflexivity.
Defined.

Lemma spot_momentum_raises p prev e :
  spot_momentum p prev = Raise e -> e = TypeError.
Proof.
  unfold spot_momentum, number, py_div.
  destruct (truthy prev) eqn:Ht; [| discriminate].
  destruct (as_number p) as [a |]; cbn; [| now intros [= <-]].
  destruct (as_number prev) as [b |] eqn:Hb; cbn; [| now intros [= <-]].
  rewrite (truthy_number_nonzero _ _ Ht Hb). discriminate.
Qed.

Lemma fetch_spot_price_raises asset w e w' :
  fetch_spot_price asset w = (Raise e, w') -> e = TypeError \/ e = AttributeError.
Proof.
  unfold fetch_spot_price, bind at 1.
  destruct (api_request_effects (CoinGeckoPrice (default "bitcoin" (COINGECKO_IDS !! asset))) w)
    as (res & n & secs & -> & _).
  unfold bind, lift, ret.
  destruct (py_in "error" res) as [[|] | e0] eqn:Hin.
  - discriminate.
  - destruct (inner <- py_get res _ (PDict ∅);; py_get inner "usd" PNone) as [price | e1] eqn:Hp.
    + now destruct (negb _).
    + intros [= <- _]. right.
      destruct res; cbn in Hp; try congruence.
      destruct (dict_get d _ _); cbn in Hp; congruence.
  - intros [= <- _]. left. destruct res; cbn in Hin; congruence.
Qed.

Lemma spot_signal_raises asset p w e w' :
  spot_signal asset p w = (Raise e, w') ->
  e = TypeError \/ e = AttributeError \/ e = OSError \/ e = JSONDecodeError.
Proof.
  unfold spot_signal, bind, lift, path_exists, json_load_file, json_dump_file, ret.
  destruct (files w !! STATE_FILE) as [[| | v] |] eqn:Hfile; cbn; rewrite ?Hfile; cbn;
    try (intros [= <- _]; auto).
  - destruct v; cbn; try (intros [= <- _]; auto).
    destruct (spot_momentum _ _) eqn:Hm; cbn; rewrite ?Hfile; [discriminate |].
    intros [= <- _]. apply spot_momentum_raises in Hm. auto.
  - destruct (spot_momentum _ _) eqn:Hm; cbn; rewrite ?Hfile; [discriminate |].
    intros [= <- _]. apply spot_momentum_raises in Hm. auto.
Qed.

Lemma get_coingecko_momentum_raises asset w e w' :
  get_coingecko_momentum asset w = (Raise e, w') ->
  e = TypeError \/ e = AttributeError \/ e = OSError \/ e = JSONDecodeError.
Proof.
  unfold get_coingecko_momentum, bind at 1.
  destruct (fetch_spot_price asset w) as [[[p |] | e0] w1] eqn:Hfetch.
  - unfold bind at 1. destruct (spot_signal asset p w1) as [[s |] w2] eqn:Hsig;
      [discriminate |].
    intros [= <- _]. eapply spot_signal_raises; eauto.
  - discriminate.
  - intros [= <- _]. apply fetch_spot_price_raises in Hfetch. tauto.
Qed.

(** X23. The spot provider never raises [ZeroDivisionError]: a stored
    price of zero counts as false and is treated as no previous price,
    and a stored value that counts as true is a number other than zero
    or no number at all. *)
Theorem coingecko_never_divides_by_zero asset w e w' :
  get_coingecko_momentum asset w = (Raise e, w') -> e <> ZeroDivisionError.
Proof.
  intros H. apply get_coingecko_momentum_raises in H. intuition congruence.
Qed.

Lemma coingecko_never_divides_by_zero_witness : TypeError <> ZeroDivisionError.
Proof.
  apply (coingecko_never_divides_by_zero "BTC" text_state_world TypeError
           (snd (get_coingecko_momentum "BTC" text_state_world))).
  vm_compute. reflexivity.
Defined.

(* ================================================================= *)
(** ** The run as a whole *)

Lemma select_market_effects cfg w r w' :
  select_market cfg w = (r, w') ->
  files w' = files w
  /\ exists n secs errs tail,
       effects w w' secs (replicate n GammaMarkets) (errs ++ tail)
       /\ (1 <= n <= 3)%nat /\ 0 <= secs <= 3 /\ Forall (eq MsgTimeParseError) errs
       /\ match r with
          | Ret (Some best) => tail = [MsgTarget (question best)]
          | Ret None => tail = [MsgNoMarkets]
          | Raise _ => tail = []
          end.
Proof.
  unfold select_market, bind at 1.
  destruct (discover_markets (cfg_asset cfg) (cfg_window cfg) w) as [[markets | e] w1] eqn:Hd;
    apply discover_markets_effects in Hd as (Hfiles & n & secs & errs & Heff & Hn & Hs & Herrs).
  2:{ intros [= <- <-]. split; [exact Hfiles |]. exists n, secs, errs, [].
      rewrite app_nil_r. auto. }
  unfold bind at 1, datetime_now.
  set (valid := List.filter _ markets).
  assert (Hprint : forall m, effects w (snd (print m w1)) secs (replicate n GammaMarkets)
                               (errs ++ [m])).
  { intros m. pose proof (effects_trans _ _ _ _ _ _ _ _ _ Heff (effects_print m w1)) as Ht.
    now rewrite Z.add_0_r, app_nil_r in Ht. }
  destruct (bool_decide (valid = [])).
  - intros [= <- <-]. split; [exact Hfiles |]. exists n, secs, errs, [MsgNoMarkets].
    split; [exact (Hprint MsgNoMarkets) | auto].
  - destruct (sorted end_time valid) as [| best rest].
    + intros [= <- <-]. split; [exact Hfiles |]. exists n, secs, errs, [].
      rewrite app_nil_r. auto.
    + intros [= <- <-]. split; [exact Hfiles |].
      exists n, secs, errs, [MsgTarget (question best)].
      split; [exact (Hprint (MsgTarget (question best))) | auto].
Qed.

Lemma get_signal_effects cfg w r w' :
  get_signal cfg w = (r, w') ->
  exists m secs,
    effects w w' secs (replicate m (provider_endpoint cfg)) []
    /\ (1 <= m <= 3)%nat /\ 0 <= secs <= 3
    /\ (files w' = files w
        \/ String.eqb (cfg_signal_source cfg) "binance" = false
           /\ exists d, files w' = <[STATE_FILE := Document (PDict d)]> (files w)).
Proof.
  unfold get_signal, provider_endpoint.
  destruct (String.eqb (cfg_signal_source cfg) "binance").
  - intros H.
    destruct (get_binance_momentum_frame (cfg_asset cfg) (cfg_lookback_minutes cfg) w)
      as (m & secs & Hw & Hm & Hs).
    rewrite H in Hw. cbn [snd] in Hw. subst w'. exists m, secs.
    split; [apply effects_after_requests |]. split; [exact Hm |]. split; [exact Hs |]. now left.
  - intros H. apply get_coingecko_momentum_effects in H as (m & secs & Heff & Hm & Hs & Hf).
    exists m, secs. split; [exact Heff |]. split; [exact Hm |]. split; [exact Hs |].
    destruct Hf as [Hf | Hf]; [now left | right; auto].
Qed.

Lemma get_signal_spot_ratio cfg w s w' :
  get_signal cfg w = (Ret (Some s), w') ->
  String.eqb (cfg_signal_source cfg) "binance" = false ->
  volume_ratio s = 1%Q.
Proof.
  unfold get_signal. intros H Hsrc. rewrite Hsrc in H.
  now apply get_coingecko_momentum_shape in H.
Qed.

Lemma verdict_effects (live : bool) cfg s w :
  (if Qltb (Qabs (momentum_pct s)) (cfg_min_momentum_pct cfg) then print MsgWeak
   else if cfg_volume_confidence cfg && Qltb (volume_ratio s) (5 # 10) then print MsgLowVolume
   else
     let side := match signal_direction s with Up => "yes" | _ => "no" end in
     print (MsgAction side) ;;; if live then print MsgLive else print MsgDryRun) w
  = (Ret tt, World (environ w) (files w) (now w) (http w) (requests w)
                   (stdout w ++ verdict live cfg s)).
Proof.
  unfold verdict.
  destruct (Qltb _ _); [reflexivity |].
  destruct (_ && _); [reflexivity |].
  unfold bind, print. cbn. destruct live; cbn; now rewrite <- app_assoc.
Qed.

(** Every run of [run_strategy], by the point at which it ends. *)
Lemma run_strategy_shape live cfg w r w' :
  run_strategy live cfg w = (r, w') ->
  exists n m secs errs tail,
    effects w w' secs (replicate n GammaMarkets ++ replicate m (provider_endpoint cfg))
            (MsgRunning (cfg_asset cfg) :: errs ++ tail)
    /\ (n <= 3)%nat /\ (m <= 3)%nat /\ 0 <= secs <= 6
    /\ Forall (eq MsgTimeParseError) errs
    /\ (files w' = files w
        \/ String.eqb (cfg_signal_source cfg) "binance" = false
           /\ exists d, files w' = <[STATE_FILE := Document (PDict d)]> (files w))
    /\ ((r = Raise (SystemExit 1) /\ tail = [MsgNoApiKey] /\ n = 0%nat /\ m = 0%nat
         /\ files w' = files w)
        \/ ((exists e, r = Raise e) /\ tail = [] /\ m = 0%nat)
        \/ (r = Ret tt /\ tail = [MsgNoMarkets] /\ m = 0%nat)
        \/ exists q,
             ((exists e, r = Raise e) /\ tail = [MsgTarget q])
             \/ (r = Ret tt /\ tail = [MsgTarget q; MsgNoSignal])
             \/ exists s,
                  r = Ret tt /\ tail = MsgTarget q :: MsgSignal s :: verdict live cfg s
                  /\ (String.eqb (cfg_signal_source cfg) "binance" = false ->
                      volume_ratio s = 1%Q)).
Proof.
  unfold run_strategy, bind at 1.
  pose proof (effects_print (MsgRunning (cfg_asset cfg)) w) as Hp.
  set (w0 := snd (print (MsgRunning (cfg_asset cfg)) w)) in *.
  change (print (MsgRunning (cfg_asset cfg)) w) with (Ret tt, w0).
  assert (Hf0 : files w0 = files w) by reflexivity.
  unfold bind at 1.
  destruct (get_api_key w0) as [[key | e] wk] eqn:Hkey.
  2:{ (* no credential *)
      assert (e = SystemExit 1 /\ wk = snd (print MsgNoApiKey w0)) as [-> ->].
      { revert Hkey. unfold get_api_key.
        destruct (environ w0 !! "SIMMER_API_KEY") as [[| c k] |];
          unfold bind, print, raise; cbn; intros Hkey; split; congruence. }
      intros [= <- <-]. exists 0%nat, 0%nat, 0, [], [MsgNoApiKey].
      pose proof (effects_trans _ _ _ _ _ _ _ _ _ Hp (effects_print MsgNoApiKey w0)) as Ht.
      split; [exact Ht |]. split; [lia |]. split; [lia |]. split; [lia |].
      split; [constructor |]. split; [now left |]. left. auto. }
  assert (wk = w0) as ->.
  { revert Hkey. unfold get_api_key.
    destruct (environ w0 !! "SIMMER_API_KEY") as [[| c k] |];
      unfold bind, print, raise; cbn; congruence. }
  unfold bind at 1.
  destruct (select_market cfg w0) as [[chosen | e] w1] eqn:Hsel;
    apply select_market_effects in Hsel
      as (Hf1 & n & s1 & errs & tail & He1 & Hn & Hs1 & Herrs & Htail).
  2:{ (* discovery raised *)
      intros [= <- <-]. subst tail. exists n, 0%nat, s1, errs, [].
      pose proof (effects_trans _ _ _ _ _ _ _ _ _ Hp He1) as Ht.
      cbn [replicate]. rewrite app_nil_r.
      split; [exact Ht |]. split; [lia |]. split; [lia |]. split; [lia |].
      split; [exact Herrs |]. split; [left; congruence |]. right. left. eauto. }
  pose proof (effects_trans _ _ _ _ _ _ _ _ _ Hp He1) as Ht1. cbn [app] in Ht1.
  rewrite Z.add_0_l in Ht1.
  destruct chosen as [best |].
  2:{ (* no suitable market *)
      intros [= <- <-]. subst tail. exists n, 0%nat, s1, errs, [MsgNoMarkets].
      cbn [replicate]. rewrite app_nil_r.
      split; [exact Ht1 |]. split; [lia |]. split; [lia |]. split; [lia |].
      split; [exact Herrs |]. split; [left; congruence |]. right. right. left. auto. }
  subst tail. unfold bind at 1.
  destruct (get_signal cfg w1) as [[sig | e] w2] eqn:Hsig;
    pose proof (get_signal_effects _ _ _ _ Hsig) as (m & s2 & He2 & Hm & Hs2 & Hf2).
  2:{ (* the provider raised *)
      intros [= <- <-]. exists n, m, (s1 + s2), errs, [MsgTarget (question best)].
      pose proof (effects_trans _ _ _ _ _ _ _ _ _ Ht1 He2) as Ht.
      rewrite app_nil_r in Ht.
      split; [exact Ht |]. split; [lia |]. split; [lia |]. split; [lia |].
      split; [exact Herrs |]. split; [rewrite Hf1, Hf0 in Hf2; exact Hf2 |].
      right. right. right. exists (question best). left. eauto. }
  rewrite Hf1, Hf0 in Hf2.
  pose proof (effects_trans _ _ _ _ _ _ _ _ _ Ht1 He2) as Ht2.
  rewrite app_nil_r in Ht2.
  destruct sig as [s |].
  - unfold bind at 1. change (print (MsgSignal s) w2) with (Ret tt, snd (print (MsgSignal s) w2)).
    cbv iota beta. rewrite verdict_effects. intros [= <- <-].
    exists n, m, (s1 + s2), errs, (MsgTarget (question best) :: MsgSignal s :: verdict live cfg s).
    split.
    + destruct Ht2 as (He & Hh & Hnow & Hr & Ho). unfold effects. cbn.
      rewrite He, Hh, Hnow, Hr, Ho. repeat split.
      rewrite <- !app_assoc. cbn. now rewrite <- !app_assoc.
    + split; [lia |]. split; [lia |]. split; [lia |].
      split; [exact Herrs |]. split; [exact Hf2 |].
      right. right. right. exists (question best). right. right. exists s.
      split; [reflexivity |]. split; [reflexivity |].
      exact (get_signal_spot_ratio _ _ _ _ Hsig).
  - intros [= <- <-].
    exists n, m, (s1 + s2), errs, [MsgTarget (question best); MsgNoSignal].
    split.
    + destruct Ht2 as (He & Hh & Hnow & Hr & Ho). unfold effects. cbn.
      rewrite He, Hh, Hnow, Hr, Ho. repeat split.
      rewrite <- !app_assoc. cbn. now rewrite <- !app_assoc.
    + split; [lia |]. split; [lia |]. split; [lia |].
      split; [exact Herrs |]. split; [exact Hf2 |].
      right. right. right. exists (question best). right. left. auto.
Qed.

(** X24. Without the credential ([SIMMER_API_KEY] unset or empty),
    [run_strategy] prints its banner and the error and exits with status
    1; it makes no request and touches no file. *)
Theorem run_strategy_without_key live cfg w :
  environ w !! "SIMMER_API_KEY" = None \/ environ w !! "SIMMER_API_KEY" = Some EmptyString ->
  run_strategy live cfg w
  = (Raise (SystemExit 1),
     World (environ w) (files w) (now w) (http w) (requests w)
           (stdout w ++ [MsgRunning (cfg_asset cfg); MsgNoApiKey])).
Proof.
  intros Hkey. unfold run_strategy, bind at 1. cbn [print].
  unfold bind at 1, get_api_key. cbn [environ].
  destruct Hkey as [-> | ->]; unfold bind, print, raise; cbn; now rewrite <- app_assoc.
Qed.

Lemma run_strategy_without_key_witness :
  run_strategy true default_config (quiet 0 no_answer)
  = (Raise (SystemExit 1),
     World (environ (quiet 0 no_answer)) (files (quiet 0 no_answer)) (now (quiet 0 no_answer))
           (http (quiet 0 no_answer)) (requests (quiet 0 no_answer))
           (stdout (quiet 0 no_answer) ++ [MsgRunning (cfg_asset default_config); MsgNoApiKey])).
Proof.
  apply (run_strategy_without_key true default_config (quiet 0 no_answer)).
  left. reflexivity.
Defined.

(** X25. With the credential set and the market listing failing on all
    three attempts, the run ends normally with the banner and the line
    that no suitable market was found, after three requests to the
    listing and three seconds of pauses; no provider is asked and no
    file is touched. *)
Theorem run_strategy_listing_down live cfg w key :
  environ w !! "SIMMER_API_KEY" = Some key -> key <> EmptyString ->
  (forall j, (j < 3)%nat -> fails (attempt w GammaMarkets j)) ->
  run_strategy live cfg w
  = (Ret tt,
     World (environ w) (files w) (now w + 3 * 1000000) (http w)
           (requests w ++ replicate 3 GammaMarkets)
           (stdout w ++ [MsgRunning (cfg_asset cfg); MsgNoMarkets])).
Proof.
  intros Hkey Hne Hdown.
  unfold run_strategy, bind at 1. cbn [print].
  set (w0 := World _ _ _ _ _ _).
  unfold bind at 1. rewrite (get_api_key_set w0 key) by assumption.
  assert (Hreq : exists msg, api_request GammaMarkets w0
                             = (Ret (error_dict msg), after_requests GammaMarkets 3 3 w0)).
  { pose proof (api_request_cases GammaMarkets w0) as H.
    change (attempt w0 GammaMarkets) with (attempt w GammaMarkets) in H.
    pose proof (Hdown 0%nat ltac:(lia)) as H0. pose proof (Hdown 1%nat ltac:(lia)) as H1.
    pose proof (Hdown 2%nat ltac:(lia)) as H2.
    destruct (attempt w GammaMarkets 0); [destruct H0 |].
    destruct (attempt w GammaMarkets 1); [destruct H1 |].
    destruct (attempt w GammaMarkets 2); [destruct H2 |]. eauto. }
  destruct Hreq as [msg Hreq].
  unfold bind at 1, select_market, bind at 1, discover_markets, bind at 1.
  rewrite Hreq. unfold bind, lift, ret, datetime_now, print. cbn.
  now rewrite <- app_assoc.
Qed.

Lemma run_strategy_listing_down_witness :
  run_strategy false default_config (with_key "secret" (quiet 0 refusing))
  = (Ret tt,
     World (environ (with_key "secret" (quiet 0 refusing)))
           (files (with_key "secret" (quiet 0 refusing)))
           (now (with_key "secret" (quiet 0 refusing)) + 3 * 1000000)
           (http (with_key "secret" (quiet 0 refusing)))
           (requests (with_key "secret" (quiet 0 refusing)) ++ replicate 3 GammaMarkets)
           (stdout (with_key "secret" (quiet 0 refusing))
              ++ [MsgRunning (cfg_asset default_config); MsgNoMarkets])).
Proof.
  apply (run_strategy_listing_down false default_config (with_key "secret" (quiet 0 refusing))
           "secret").
  - reflexivity.
  - discriminate.
  - intros [| [| [| j]]] Hj; [exact I | exact I | exact I | lia].
Defined.

(** X26. One run of [run_strategy] makes at most three requests to the
    listing followed by at most three to the one provider the
    configuration selects, and pauses six seconds at most. *)
Theorem run_strategy_requests live cfg w :
  exists n m secs,
    requests (snd (run_strategy live cfg w))
    = (requests w ++ replicate n GammaMarkets ++ replicate m (provider_endpoint cfg))%list
    /\ (n <= 3)%nat /\ (m <= 3)%nat
    /\ now (snd (run_strategy live cfg w)) = now w + secs * 1000000 /\ 0 <= secs <= 6.
Proof.
  destruct (run_strategy live cfg w) as [r w'] eqn:Hrun.
  apply run_strategy_shape in Hrun
    as (n & m & secs & errs & tail & (_ & _ & Hnow & Hreq & _) & Hn & Hm & Hs & _).
  exists n, m, secs. cbn [snd]. auto.
Qed.

(** X27. [run_strategy] never changes the environment, and the only
    file it can change is the state file of the spot provider: with the
    exchange as signal source no file changes at all. *)
Theorem run_strategy_files live cfg w :
  environ (snd (run_strategy live cfg w)) = environ w
  /\ (files (snd (run_strategy live cfg w)) = files w
      \/ cfg_signal_source cfg <> "binance"
         /\ exists d, files (snd (run_strategy live cfg w))
                      = <[STATE_FILE := Document (PDict d)]> (files w)).
Proof.
  destruct (run_strategy live cfg w) as [r w'] eqn:Hrun.
  apply run_strategy_shape in Hrun
    as (n & m & secs & errs & tail & (Henv & _) & _ & _ & _ & _ & Hf & _).
  cbn [snd]. split; [exact Henv |].
  destruct Hf as [Hf | [Hsrc Hf]]; [now left | right; split; [| exact Hf]].
  now apply String.eqb_neq.
Qed.

Lemma run_strategy_live_dry cfg w r1 w1 r2 w2 :
  run_strategy true cfg w = (r1, w1) ->
  run_strategy false cfg w = (r2, w2) ->
  r1 = r2 /\ print_frame w2 w1
  /\ (stdout w1 = stdout w2
      \/ exists out, stdout w1 = (out ++ [MsgLive])%list /\ stdout w2 = (out ++ [MsgDryRun])%list).
Proof.
  assert (Hsame : forall (r : outcome unit) (w' : world),
            (r, w') = (r1, w1) -> (r, w') = (r2, w2) ->
            r1 = r2 /\ print_frame w2 w1
            /\ (stdout w1 = stdout w2
                \/ exists out, stdout w1 = (out ++ [MsgLive])%list
                               /\ stdout w2 = (out ++ [MsgDryRun])%list)).
  { intros r w' [= <- <-] [= <- <-]. split; [reflexivity |].
    split; [apply print_frame_refl | now left]. }
  unfold run_strategy. intros H1 H2.
  unfold bind at 1 in H1. unfold bind at 1 in H2. cbn [print] in H1, H2.
  unfold bind at 1 in H1. unfold bind at 1 in H2.
  destruct (get_api_key _) as [[key | e] wk]; [| eapply Hsame; eassumption].
  unfold bind at 1 in H1. unfold bind at 1 in H2.
  destruct (select_market cfg wk) as [[[best |] | e] wm]; [| eapply Hsame; eassumption ..].
  unfold bind at 1 in H1. unfold bind at 1 in H2.
  destruct (get_signal cfg wm) as [[[s |] | e] ws]; [| eapply Hsame; eassumption ..].
  unfold bind at 1 in H1. unfold bind at 1 in H2.
  change (print (MsgSignal s) ws) with (Ret tt, snd (print (MsgSignal s) ws)) in H1, H2.
  cbv iota beta in H1, H2.
  rewrite (verdict_effects true) in H1. rewrite (verdict_effects false) in H2.
  injection H1 as <- <-. injection H2 as <- <-.
  clear Hsame. split; [reflexivity |]. split; [now repeat split |]. cbn [stdout].
  unfold verdict. destruct (Qltb _ _); [now left |].
  destruct (_ && _); [now left |].
  right.
  exists ((stdout ws ++ [MsgSignal s])
            ++ [MsgAction (match signal_direction s with Up => "yes" | _ => "no" end)])%list.
  split; now rewrite <- (app_assoc _ [_] [_]).
Qed.

(** X28. A live run does what a dry run does: from the same world the
    two return the same outcome, make the same requests and leave the
    same files, and their output differs at most in the last line. *)
Theorem live_run_is_dry_run cfg w :
  fst (run_strategy true cfg w) = fst (run_strategy false cfg w)
  /\ print_frame (snd (run_strategy false cfg w)) (snd (run_strategy true cfg w))
  /\ (stdout (snd (run_strategy true cfg w)) = stdout (snd (run_strategy false cfg w))
      \/ exists out,
           stdout (snd (run_strategy true cfg w)) = (out ++ [MsgLive])%list
           /\ stdout (snd (run_strategy false cfg w)) = (out ++ [MsgDryRun])%list).
Proof.
  destruct (run_strategy true cfg w) as [r1 w1] eqn:H1.
  destruct (run_strategy false cfg w) as [r2 w2] eqn:H2.
  exact (run_strategy_live_dry cfg w r1 w1 r2 w2 H1 H2).
Qed.

Lemma printed_by_shape live cfg w out :
  stdout (snd (run_strategy live cfg w)) = (stdout w ++ out)%list ->
  printed_by live cfg w = out.
Proof. unfold printed_by. intros ->. apply drop_app_length. Qed.

Lemma not_in_errs m errs :
  Forall (eq MsgTimeParseError) errs -> m <> MsgTimeParseError -> ~ In m errs.
Proof.
  intros Hall Hm Hin. apply List.Forall_forall with (x := m) in Hall; [congruence | exact Hin].
Qed.

(** X29. A trade signal is only printed after a price signal that
    passed both thresholds: if a run prints an ACTION line, then it
    returned normally and printed a signal whose absolute momentum is
    not below [min_momentum_pct] and, when [volume_confidence] is on,
    whose volume ratio is not below 0.5; the side is yes for the
    direction up and no otherwise. *)
Theorem action_needs_strong_signal live cfg w side :
  In (MsgAction side) (printed_by live cfg w) ->
  exists s,
    In (MsgSignal s) (printed_by live cfg w)
    /\ fst (run_strategy live cfg w) = Ret tt
    /\ Qltb (Qabs (momentum_pct s)) (cfg_min_momentum_pct cfg) = false
    /\ (cfg_volume_confidence cfg = true -> Qltb (volume_ratio s) (5 # 10) = false)
    /\ side = match signal_direction s with Up => "yes" | _ => "no" end.
Proof.
  destruct (run_strategy live cfg w) as [r w'] eqn:Hrun.
  pose proof (run_strategy_shape _ _ _ _ _ Hrun)
    as (n & m & secs & errs & tail & (_ & _ & _ & _ & Hout) & _ & _ & _ & Herrs & _ & Htail).
  assert (Hp : printed_by live cfg w = MsgRunning (cfg_asset cfg) :: (errs ++ tail)%list).
  { apply printed_by_shape. now rewrite Hrun. }
  rewrite Hp. cbn [fst]. intros [Hin | Hin]; [discriminate |].
  apply in_app_or in Hin as [Hin | Hin];
    [exfalso; revert Hin; now apply not_in_errs |].
  destruct Htail as [(_ & -> & _) | [(_ & -> & _) | [(_ & -> & _) | (q & Htail)]]];
    try (cbn in Hin; intuition discriminate).
  destruct Htail as [(_ & ->) | [(_ & ->) | (s & -> & -> & _)]];
    try (cbn in Hin; intuition discriminate).
  exists s. split; [right; apply in_or_app; right; right; now left |].
  split; [reflexivity |].
  destruct Hin as [Hin | [Hin | Hin]]; try discriminate.
  unfold verdict in Hin.
  destruct (Qltb (Qabs (momentum_pct s)) (cfg_min_momentum_pct cfg));
    [cbn in Hin; intuition discriminate |].
  split; [reflexivity |].
  destruct (cfg_volume_confidence cfg); cbn [andb] in Hin.
  - destruct (Qltb (volume_ratio s) (5 # 10)); [cbn in Hin; intuition discriminate |].
    split; [reflexivity |]. destruct Hin as [[= <-] | [Hin | []]]; [reflexivity |].
    destruct live; discriminate.
  - split; [discriminate |]. destruct Hin as [[= <-] | [Hin | []]]; [reflexivity |].
    destruct live; discriminate.
Qed.

Lemma action_needs_strong_signal_witness :
  exists s,
    In (MsgSignal s) (printed_by false default_config trading_world)
    /\ fst (run_strategy false default_config trading_world) = Ret tt
    /\ Qltb (Qabs (momentum_pct s)) (cfg_min_momentum_pct default_config) = false
    /\ (cfg_volume_confidence default_config = true -> Qltb (volume_ratio s) (5 # 10) = false)
    /\ "yes" = match signal_direction s with Up => "yes" | _ => "no" end.
Proof.
  apply (action_needs_strong_signal false default_config trading_world "yes").
  vm_compute. do 3 right. left. reflexivity.
Defined.

(** X30. The line that the volume is too low is only printed with the
    exchange as signal source and [volume_confidence] on: a signal of
    the spot provider has volume ratio 1 and always passes the volume
    test. *)
Theorem low_volume_only_from_exchange live cfg w :
  In MsgLowVolume (printed_by live cfg w) ->
  cfg_signal_source cfg = "binance" /\ cfg_volume_confidence cfg = true.
Proof.
  destruct (run_strategy live cfg w) as [r w'] eqn:Hrun.
  pose proof (run_strategy_shape _ _ _ _ _ Hrun)
    as (n & m & secs & errs & tail & (_ & _ & _ & _ & Hout) & _ & _ & _ & Herrs & _ & Htail).
  assert (Hp : printed_by live cfg w = MsgRunning (cfg_asset cfg) :: (errs ++ tail)%list).
  { apply printed_by_shape. now rewrite Hrun. }
  rewrite Hp. intros [Hin | Hin]; [discriminate |].
  apply in_app_or in Hin as [Hin | Hin];
    [exfalso; revert Hin; now apply not_in_errs |].
  destruct Htail as [(_ & -> & _) | [(_ & -> & _) | [(_ & -> & _) | (q & Htail)]]];
    try (cbn in Hin; intuition discriminate).
  destruct Htail as [(_ & ->) | [(_ & ->) | (s & -> & -> & Hspot)]];
    try (cbn in Hin; intuition discriminate).
  destruct Hin as [Hin | [Hin | Hin]]; try discriminate.
  unfold verdict in Hin.
  destruct (Qltb (Qabs (momentum_pct s)) (cfg_min_momentum_pct cfg));
    [cbn in Hin; intuition discriminate |].
  destruct (cfg_volume_confidence cfg); cbn [andb] in Hin.
  2:{ destruct Hin as [Hin | [Hin | []]]; [discriminate | destruct live; discriminate]. }
  split; [| reflexivity].
  destruct (String.eqb_spec (cfg_signal_source cfg) "binance") as [-> | Hne]; [reflexivity |].
  rewrite (Hspot eq_refl) in Hin. change (Qltb 1 (5 # 10)) with false in Hin.
  destruct Hin as [Hin | [Hin | []]]; [discriminate | destruct live; discriminate].
Qed.

Lemma low_volume_only_from_exchange_witness :
  cfg_signal_source default_config = "binance" /\ cfg_volume_confidence default_config = true.
Proof.
  apply (low_volume_only_from_exchange false default_config thin_world).
  vm_compute. do 3 right. left. reflexivity.
Defined.
